(** * Form-submission-to-ticket pipeline: a shallow embedding

    The development follows the hardened handler (origin enforcement,
    rate limiting, validation, escaping, temp-file cleanup), the
    form-agnostic handler of [api/create-ticket.js] and the geocoding
    proxy of [api/geocode.js].  The form-specific handler is left out:
    its source has an opening brace that is never closed.

    JavaScript strings are sequences of UTF-16 code units, modelled as
    [list N]; objects whose iteration order matters are association lists
    in [Object.entries] order; the rate-limit [Map] and the response headers
    are finite maps. *)

From Stdlib Require Import ZArith NArith String Ascii List Lia Bool DecimalString.
From stdpp Require Import gmap list.
Import ListNotations.

Set Default Proof Using "Type".
Set Warnings "-register-all".

(** ** JavaScript strings *)

Abbreviation jsstring := (list N).

(** A source literal (ASCII only) as a sequence of code units. *)
Definition lit (s : string) : jsstring :=
  map N_of_ascii (list_ascii_of_string s).

Definition nl : jsstring := [10%N].
Definition dq : jsstring := [34%N].
(** A double-quoted attribute value inside a template. *)
Definition q (s : string) : jsstring := dq ++ lit s ++ dq.

Definition c_amp : N := 38.
Definition c_lt : N := 60.
Definition c_gt : N := 62.
Definition c_dq : N := 34.
Definition c_sq : N := 39.
Definition c_comma : N := 44.
Definition c_space : N := 32.
Definition c_at : N := 64.
Definition c_dot : N := 46.
Definition c_lf : N := 10.

(** ECMAScript WhiteSpace and LineTerminator code points: what
    [String.prototype.trim] strips and what the regex class [\s] matches. *)
Definition is_ws (c : N) : bool :=
  ((9 <=? c) && (c <=? 13) || (c =? 32) || (c =? 160) || (c =? 5760)
   || (8192 <=? c) && (c <=? 8202) || (c =? 8232) || (c =? 8233)
   || (c =? 8239) || (c =? 8287) || (c =? 12288) || (c =? 65279))%N.

Definition is_lower (c : N) : bool := ((97 <=? c) && (c <=? 122))%N.
Definition is_upper (c : N) : bool := ((65 <=? c) && (c <=? 90))%N.
Definition is_digit (c : N) : bool := ((48 <=? c) && (c <=? 57))%N.
(** The regex class [\w]. *)
Definition is_word (c : N) : bool :=
  is_lower c || is_upper c || is_digit c || (c =? 95)%N.

(** [toUpperCase] on one character of [\w]. *)
Definition toUpperCase_char (c : N) : N :=
  if is_lower c then (c - 32)%N else c.

Fixpoint dropWhile {A} (p : A -> bool) (l : list A) : list A :=
  match l with
  | [] => []
  | x :: t => if p x then dropWhile p t else l
  end.

Definition trimStart (s : jsstring) : jsstring := dropWhile is_ws s.
Definition trimEnd (s : jsstring) : jsstring := rev (dropWhile is_ws (rev s)).
Definition trim (s : jsstring) : jsstring := trimEnd (trimStart s).

(** [s.replace(/c/g, r)] for a one-character pattern. *)
Definition replaceAll (c : N) (r : jsstring) (s : jsstring) : jsstring :=
  flat_map (fun x => if (x =? c)%N then r else [x]) s.

(** [s.split(c)] for a one-character separator: never empty. *)
Fixpoint split_on (c : N) (s : jsstring) : list jsstring :=
  match s with
  | [] => [[]]
  | x :: t =>
      if (x =? c)%N then [] :: split_on c t
      else match split_on c t with
           | [] => [[x]]
           | w :: ws => (x :: w) :: ws
           end
  end.

(** [parts.join(sep)]. *)
Fixpoint join (sep : jsstring) (parts : list jsstring) : jsstring :=
  match parts with
  | [] => []
  | [p] => p
  | p :: rest => p ++ sep ++ join sep rest
  end.

(** [s.substring(0, n)]. *)
Definition substring0 (n : nat) (s : jsstring) : jsstring := firstn n s.

Definition includes_char (c : N) (s : jsstring) : bool :=
  existsb (fun x => (x =? c)%N) s.

Definition str_eqb (a b : jsstring) : bool := bool_decide (a = b).

(** [arr.includes(x)] on an array of strings. *)
Definition includes (arr : list jsstring) (x : jsstring) : bool :=
  existsb (str_eqb x) arr.

(** Truthiness of a string: non-empty. *)
Definition truthy_str (s : jsstring) : bool :=
  match s with [] => false | _ => true end.

(** Truthiness of a possibly undefined string. *)
Definition truthy (v : option jsstring) : bool :=
  match v with Some s => truthy_str s | None => false end.

(** [a || b] on possibly undefined strings. *)
Definition or_else (a b : option jsstring) : option jsstring :=
  if truthy a then a else b.

(** Whether [needle] occurs in [hay] ([hay.includes(needle)]). *)
Fixpoint is_prefix (p s : jsstring) : bool :=
  match p, s with
  | [], _ => true
  | _ :: _, [] => false
  | a :: p', b :: s' => (a =? b)%N && is_prefix p' s'
  end.

Fixpoint is_infix (needle hay : jsstring) : bool :=
  is_prefix needle hay ||
  match hay with
  | [] => false
  | _ :: t => is_infix needle t
  end.

(** ** Security helpers *)

(** The five replacements of [escapeHtml], in the order of the source. *)
Definition escapePasses (s : jsstring) : jsstring :=
  replaceAll c_sq (lit "&#39;")
    (replaceAll c_dq (lit "&quot;")
       (replaceAll c_gt (lit "&gt;")
          (replaceAll c_lt (lit "&lt;")
             (replaceAll c_amp (lit "&amp;") s)))).

(** [escapeHtml]: the empty string for a falsy argument, the
    replacements otherwise. *)
Definition escapeHtml (str : jsstring) : jsstring :=
  if negb (truthy_str str) then [] else escapePasses str.

(** What one character becomes under [escapeHtml]. *)
Definition escapeChar (c : N) : jsstring :=
  if (c =? c_amp)%N then lit "&amp;"
  else if (c =? c_lt)%N then lit "&lt;"
  else if (c =? c_gt)%N then lit "&gt;"
  else if (c =? c_dq)%N then lit "&quot;"
  else if (c =? c_sq)%N then lit "&#39;"
  else [c].

Definition is_special (c : N) : bool :=
  ((c =? c_amp) || (c =? c_lt) || (c =? c_gt) || (c =? c_dq) || (c =? c_sq))%N.

(** Characters that open or close markup or an attribute value. *)
Definition is_markup (c : N) : bool :=
  ((c =? c_lt) || (c =? c_gt) || (c =? c_dq) || (c =? c_sq))%N.

(** ** Field formatting *)

(** [.replace(/([a-z])([A-Z])/g, '$1 $2')]: a match consumes both
    characters and scanning resumes after them. *)
Fixpoint splitCamel (s : jsstring) : jsstring :=
  match s with
  | [] => []
  | a :: rest =>
      match rest with
      | b :: t =>
          if is_lower a && is_upper b then a :: c_space :: b :: splitCamel t
          else a :: splitCamel rest
      | [] => [a]
      end
  end.

(** [.replace(/[_-]/g, ' ')]. *)
Definition spaceSeparators (s : jsstring) : jsstring :=
  map (fun c => if ((c =? 95) || (c =? 45))%N then c_space else c) s.

(** [.replace(/\b\w/g, char => char.toUpperCase())]: [prev] tells whether
    the preceding character is a word character. *)
Fixpoint capitalizeWords (prev : bool) (s : jsstring) : jsstring :=
  match s with
  | [] => []
  | c :: t =>
      (if is_word c && negb prev then toUpperCase_char c else c)
        :: capitalizeWords (is_word c) t
  end.

Definition formatFieldName (fieldName : jsstring) : jsstring :=
  trim (capitalizeWords false (spaceSeparators (splitCamel fieldName))).

(** ** Submitted fields *)

(** What the multipart parser yields for one field name: a single value
    or an array of values. *)
Inductive RawField :=
| Single (v : jsstring)
| Multi (vs : list jsstring).

(** [Array.isArray(fields[key]) ? fields[key][0] : fields[key]];
    [None] is [undefined] (first element of an empty array). *)
Definition flattenField (r : RawField) : option jsstring :=
  match r with
  | Single v => Some v
  | Multi vs => head vs
  end.

(** The flattened field object, in [Object.entries] order; the keys of
    an object are distinct. *)
Abbreviation Fields := (list (jsstring * option jsstring)).

Definition flattenFields (raw : list (jsstring * RawField)) : Fields :=
  map (fun kv => (kv.1, flattenField kv.2)) raw.

(** Property read [fields.key]: [None] when absent or undefined. *)
Fixpoint get (fields : Fields) (key : jsstring) : option jsstring :=
  match fields with
  | [] => None
  | (k, v) :: rest => if str_eqb k key then v else get rest key
  end.

(** Assignment [fields.key = v]: the value of the key is replaced, a
    key that is not there yet is added last. *)
Fixpoint set (fields : Fields) (key : jsstring) (v : jsstring) : Fields :=
  match fields with
  | [] => [(key, Some v)]
  | (k, old) :: rest =>
      if str_eqb k key then (k, Some v) :: rest
      else (k, old) :: set rest key v
  end.

(** ** Ticket body rendering *)

(** The filter of [generateGenericTicketBody]: the key is not reserved,
    the value is truthy and not blank.  The surviving values are
    strings, so the entries are returned with the string unwrapped. *)
Definition dataFields (reserved : list jsstring) (fields : Fields)
  : list (jsstring * jsstring) :=
  omap (fun kv =>
          match kv.2 with
          | Some value =>
              if negb (includes reserved kv.1) && truthy_str value
                 && negb (str_eqb (trim value) [])
              then Some (kv.1, value) else None
          | None => None
          end) fields.

Definition html_open : jsstring :=
  nl ++ lit "    <div style=" ++ q "font-family: 'Segoe UI', Arial, sans-serif; font-size: 14px; line-height: 1.6; color: #333; max-width: 800px;" ++ lit ">" ++ nl ++ lit "  ".

Definition html_empty : jsstring :=
  lit "<p style=" ++ q "color: #999; font-style: italic;" ++ lit ">No additional data submitted</p>".

Definition html_close : jsstring := lit "</div>".

(** The expanded block used for long or multi-line values. *)
Definition longBlock (label displayValue : jsstring) : jsstring :=
  (nl ++ lit "          <div style=" ++ q "margin: 20px 0; padding: 15px; background: #f8f9fa; border-left: 3px solid #21808D; border-radius: 4px;" ++ lit ">" ++ nl ++ lit "            <strong style=" ++ q "display: block; color: #134252; margin-bottom: 8px; font-size: 15px;" ++ lit ">")
  ++ label
  ++ (lit "</strong>" ++ nl ++ lit "            <div style=" ++ q "color: #333; white-space: pre-wrap; line-height: 1.5;" ++ lit ">")
  ++ displayValue
  ++ (lit "</div>" ++ nl ++ lit "          </div>" ++ nl ++ lit "        ").

(** The compact inline row used for short values. *)
Definition shortRow (label displayValue : jsstring) : jsstring :=
  (nl ++ lit "          <div style=" ++ q "margin: 12px 0; padding: 10px 0; border-bottom: 1px solid #e9ecef;" ++ lit ">" ++ nl ++ lit "            <strong style=" ++ q "color: #134252; display: inline-block; min-width: 140px;" ++ lit ">")
  ++ label
  ++ (lit ":</strong>" ++ nl ++ lit "            <span style=" ++ q "color: #333;" ++ lit ">")
  ++ displayValue
  ++ (lit "</span>" ++ nl ++ lit "          </div>" ++ nl ++ lit "        ").

(** ** JSON values *)

(** Values produced by [JSON.parse] and serialised by [res.json] and
    [JSON.stringify].  [JNum n] is the number an integer literal [n]
    denotes, that is the double nearest to [n]; [JFrac text] is a number
    that is not an integer (such as [1.5]), identified by its [String]
    rendering [text]. *)
Inductive json :=
| JNull
| JBool (b : bool)
| JNum (n : Z)
| JFrac (text : jsstring)
| JStr (s : jsstring)
| JArr (items : list json)
| JObj (props : list (jsstring * json)).

Definition Z_to_str (n : Z) : jsstring :=
  lit (DecimalString.NilZero.string_of_int (Z.to_int n)).

(** The Number value for a non-negative integer: the nearest double,
    ties to even; [None] is [Infinity], past the largest double. *)
Definition nearestDouble (z : Z) : option Z :=
  let x :=
    if (Z.log2 z <=? 52)%Z then z
    else
      let sh := (Z.log2 z - 52)%Z in
      let q := Z.shiftr z sh in
      let r := (z - Z.shiftl q sh)%Z in
      let half := Z.shiftl 1 (sh - 1) in
      Z.shiftl (if (half <? r)%Z || ((r =? half)%Z && Z.odd q) then (q + 1)%Z else q) sh in
  if (Z.log2 x <? 1024)%Z then Some x else None.

Definition denotes (c x : Z) : bool :=
  match nearestDouble c with
  | Some y => (y =? x)%Z
  | None => false
  end.

(** The decimal with the fewest significant digits whose Number value is
    the double [x] of [len] digits; among those with [k] digits the one
    closest to [x], the even one on a tie. *)
Fixpoint shortestDecimal (fuel : nat) (k : Z) (x len : Z) : Z :=
  match fuel with
  | O => x
  | S fuel' =>
      if (len <=? k)%Z then x
      else
        let scale := (10 ^ (len - k))%Z in
        let lo := (x / scale * scale)%Z in
        let hi := (lo + scale)%Z in
        if denotes lo x && denotes hi x then
          if (x - lo <? hi - x)%Z then lo
          else if (hi - x <? x - lo)%Z then hi
          else if Z.even (x / scale) then lo else hi
        else if denotes lo x then lo
        else if denotes hi x then hi
        else shortestDecimal fuel' (k + 1) x len
  end.

(** [Number::toString] on the number an integer denotes: the shortest
    decimal that reads back as the same double, written out in full up to
    21 digits and in exponent notation beyond. *)
Definition Number_toString (z : Z) : jsstring :=
  if (z =? 0)%Z then lit "0"
  else
    let sign := if (z <? 0)%Z then lit "-" else [] in
    match nearestDouble (Z.abs z) with
    | None => sign ++ lit "Infinity"
    | Some x =>
        let c :=
          if (x <? 2 ^ 53)%Z then x
          else shortestDecimal 17 1 x (Z.of_nat (length (Z_to_str x))) in
        let digits := Z_to_str c in
        if (length digits <=? 21)%nat then sign ++ digits
        else
          let significant := rev (dropWhile (N.eqb 48) (rev digits)) in
          sign
          ++ match significant with
             | [] => []
             | d :: [] => [d]
             | d :: rest => d :: 46%N :: rest
             end
          ++ lit "e+" ++ Z_to_str (Z.of_nat (length digits) - 1)
    end.

(** [String(v)]: inside an array [null] prints as the empty string. *)
Fixpoint String_ (j : json) : jsstring :=
  match j with
  | JNull => lit "null"
  | JBool true => lit "true"
  | JBool false => lit "false"
  | JNum n => Number_toString n
  | JFrac text => text
  | JStr s => s
  | JArr items =>
      join (lit ",")
        (map (fun x => match x with JNull => [] | _ => String_ x end) items)
  | JObj _ => lit "[object Object]"
  end.

Definition truthy_json (j : json) : bool :=
  match j with
  | JNull => false
  | JBool b => b
  | JNum n => negb (n =? 0)%Z
  | JFrac _ => true
  | JStr s => truthy_str s
  | JArr _ | JObj _ => true
  end.

Fixpoint lookup_prop (props : list (jsstring * json)) (key : jsstring)
  : option json :=
  match props with
  | [] => None
  | (k, v) :: rest => if str_eqb k key then Some v else lookup_prop rest key
  end.

(** A fallible step: a value, or a thrown error with its message. *)
Inductive Result (A : Type) :=
| Ok (a : A)
| Err (message : jsstring).
Arguments Ok {A} a.
Arguments Err {A} message.

Definition is_Ok {A} (r : Result A) : bool :=
  match r with Ok _ => true | Err _ => false end.

(** The engine's message for reading a property of [null] or
    [undefined]. *)
Definition typeError (what key : string) : jsstring :=
  lit "Cannot read properties of " ++ lit what ++ lit " (reading '"
  ++ lit key ++ lit "')".

(** Property read [v.key] on a value that may be [undefined] ([None]):
    throws on [null] and [undefined], is [undefined] on primitives and
    arrays, and a lookup on objects. *)
Definition get_prop (v : option json) (key : string) : Result (option json) :=
  match v with
  | None => Err (typeError "undefined" key)
  | Some JNull => Err (typeError "null" key)
  | Some (JObj props) => Ok (lookup_prop props (lit key))
  | Some _ => Ok None
  end.

(** An object literal whose [undefined] properties are dropped on
    serialisation. *)
Definition obj (props : list (jsstring * option json)) : json :=
  JObj (omap (fun kv => match kv.2 with
                        | Some v => Some (kv.1, v)
                        | None => None
                        end) props).

Definition str_or_null (s : option jsstring) : json :=
  match s with Some x => JStr x | None => JNull end.

(** ** Requests, files and the environment *)

Record File := {
  filepath : jsstring;
  originalFilename : option jsstring;
  newFilename : jsstring;
  mimetype : option jsstring;
  size : Z
}.

(** A file field holds one file or an array of files. *)
Inductive FileOrFiles :=
| OneFile (f : File)
| ManyFiles (fs : list File).

(** The [files] object of the parser, in [Object.entries] order. *)
Abbreviation Files := (list (jsstring * FileOrFiles)).

(** [Array.isArray(fileOrFiles) ? fileOrFiles : [fileOrFiles]]. *)
Definition filesArray (f : FileOrFiles) : list File :=
  match f with
  | OneFile f => [f]
  | ManyFiles fs => fs
  end.

(** Every file of the parse result, in upload order. *)
Definition allFiles (files : Files) : list File :=
  flat_map (fun entry => filesArray entry.2) files.

(** What the multipart parser does with the request body: it yields the
    fields and the files it has written to temporary storage, or it
    rejects; [written] are the files it had written by then and left
    behind. *)
Inductive Multipart :=
| ParseError (message : jsstring) (written : Files)
| Parsed (fields : list (jsstring * RawField)) (files : Files).

Record Request := {
  method : jsstring;
  origin : option jsstring;
  forwardedFor : option jsstring;
  remoteAddress : option jsstring;
  multipart : Multipart
}.

(** [process.env]: [None] is an unset variable. *)
Record Env := {
  ALLOWED_ORIGIN : option jsstring;
  GORGIAS_SUBDOMAIN : option jsstring;
  GORGIAS_USERNAME : option jsstring;
  GORGIAS_API_KEY : option jsstring;
  GORGIAS_SUPPORT_EMAIL : option jsstring;
  TURNSTILE_SECRET_KEY : option jsstring;
  GORGIAS_INTEGRATION_B2B : option jsstring;
  GORGIAS_INTEGRATION_CONTACT : option jsstring;
  GORGIAS_INTEGRATION_DESIGN : option jsstring
}.

(** ** Responses *)

Record Response := {
  status : option Z;
  headers : gmap jsstring jsstring;
  body : option json
}.

Definition newResponse : Response :=
  {| status := None; headers := ∅; body := None |}.

Definition setHeader (res : Response) (name value : jsstring) : Response :=
  {| status := status res;
     headers := <[name := value]> (headers res);
     body := body res |}.

(** [res.status(code).json(b)]. *)
Definition send (res : Response) (code : Z) (b : json) : Response :=
  {| status := Some code; headers := headers res; body := Some b |}.

(** [res.status(code).end()]. *)
Definition send_empty (res : Response) (code : Z) : Response :=
  {| status := Some code; headers := headers res; body := None |}.

Definition error_body (message : string) : json :=
  JObj [(lit "error", JStr (lit message))].

(** ** Outbound HTTP *)

Inductive HttpBody :=
| FileBody (path filename contentType : jsstring)
| JsonBody (j : json).

(** An outbound POST.  [basic_auth] holds the user and key sent as Basic
    credentials. *)
Record HttpRequest := {
  url : jsstring;
  basic_auth : option (jsstring * jsstring);
  payload : HttpBody
}.

(** An upstream response; reading the body as text or as JSON may
    throw. *)
Record HttpResponse := {
  resp_status : Z;
  resp_text : Result jsstring;
  resp_json : Result json
}.

(** [resp.ok]: the status is in the range 200-299. *)
Definition resp_ok (r : HttpResponse) : bool :=
  ((200 <=? resp_status r) && (resp_status r <=? 299))%Z.

Definition uploadUrl (subdomain : jsstring) : jsstring :=
  lit "https://" ++ subdomain ++ lit ".gorgias.com/api/upload?type=attachment".

Definition ticketsUrl (apiUrl : jsstring) : jsstring := apiUrl ++ lit "/tickets".

Definition turnstileUrl : jsstring :=
  lit "https://challenges.cloudflare.com/turnstile/v0/siteverify".

(** A normalized attachment descriptor; [None] is [undefined]. *)
Record Attachment := {
  att_url : option json;
  att_name : option json;
  att_size : option json;
  att_content_type : option json
}.

Definition attachment_json (a : Attachment) : json :=
  obj [(lit "url", att_url a); (lit "name", att_name a);
       (lit "size", att_size a); (lit "content_type", att_content_type a)].

Record RejectedFile := {
  filename : option jsstring;
  reason : jsstring
}.

Definition rejected_json (r : RejectedFile) : json :=
  JObj [(lit "filename", str_or_null (filename r)); (lit "reason", JStr (reason r))].

(** ** Rate limiting *)

Record RateRecord := {
  start : Z;
  count : Z
}.

Definition RATE_LIMIT : Z := 5.
Definition RATE_WINDOW : Z := 60000.

(** [checkRateLimit(ip)] at time [now]: the verdict and the updated
    map. *)
Definition checkRateLimit (now : Z) (ip : jsstring)
    (rateLimitMap : gmap jsstring RateRecord)
  : bool * gmap jsstring RateRecord :=
  match rateLimitMap !! ip with
  | Some record =>
      if (now - start record >? RATE_WINDOW)%Z
      then (true, <[ip := {| start := now; count := 1 |}]> rateLimitMap)
      else
        let record' := {| start := start record; count := (count record + 1)%Z |} in
        ((count record' <=? RATE_LIMIT)%Z, <[ip := record']> rateLimitMap)
  | None => (true, <[ip := {| start := now; count := 1 |}]> rateLimitMap)
  end.

(** ** Temporary storage *)

Section Disk.

Variable deletable : jsstring -> bool.

(** [fs.unlinkSync(path)]: removes an existing file, and throws when the
    file is missing or cannot be removed. *)
Definition unlinkSync (path : jsstring) (disk : gset jsstring)
  : option (gset jsstring) :=
  if bool_decide (path ∈ disk) && deletable path
  then Some (disk ∖ {[path]}) else None.

(** [try { fs.unlinkSync(f.filepath); } catch {}]. *)
Definition tryUnlink (disk : gset jsstring) (f : File) : gset jsstring :=
  match unlinkSync (filepath f) disk with
  | Some disk' => disk'
  | None => disk
  end.

(** [cleanupTempFiles(files)]; [None] is the [null] the handler starts
    with. *)
Definition cleanupTempFiles (files : option Files) (disk : gset jsstring)
  : gset jsstring :=
  match files with
  | None => disk
  | Some files =>
      fold_left (fun disk entry => fold_left tryUnlink (filesArray entry.2) disk)
        files disk
  end.

End Disk.

(** ** Pieces shared by the handler variants *)

Definition bind {A B} (r : Result A) (k : A -> Result B) : Result B :=
  match r with
  | Ok a => k a
  | Err m => Err m
  end.

Notation "x <- e ;; k" := (bind e (fun x => k))
  (at level 100, e at next level, right associativity).

(** [a || b] where [a] may be undefined and [b] is a string. *)
Definition orS (a : option jsstring) (b : jsstring) : jsstring :=
  match a with
  | Some s => if truthy_str s then s else b
  | None => b
  end.

Definition orStr (a b : jsstring) : jsstring :=
  if truthy_str a then a else b.

(** [EMAIL_REGEX.test(s)] for [/^[^\s@]+@[^\s@]+\.[^\s@]{2,}$/].  The
    three classes exclude ['@'], so the literal ['@'] is the first one of
    [s]; what follows it must hold a dot with at least one character
    before it and at least two after it. *)
Definition email_char (c : N) : bool := negb (is_ws c) && negb (c =? c_at)%N.

Fixpoint takeWhile {A} (p : A -> bool) (l : list A) : list A :=
  match l with
  | [] => []
  | x :: t => if p x then x :: takeWhile p t else []
  end.

Fixpoint has_tld (seen : nat) (domain : jsstring) : bool :=
  match domain with
  | [] => false
  | c :: t =>
      ((c =? c_dot)%N && (1 <=? seen)%nat && (2 <=? length t)%nat)
      || has_tld (S seen) t
  end.

Definition EMAIL_REGEX_test (s : jsstring) : bool :=
  let local := takeWhile (fun c => negb (c =? c_at)%N) s in
  match dropWhile (fun c => negb (c =? c_at)%N) s with
  | [] => false
  | _ :: domain =>
      (1 <=? length local)%nat && forallb email_char local
      && forallb email_char domain && has_tld 0 domain
  end.

Definition MAX_FIELD_LENGTH : Z := 10000.

(** The length check: some string value is longer than the cap. *)
Definition tooLong (fields : Fields) : bool :=
  existsb (fun kv =>
             match kv.2 with
             | Some value => (Z.of_nat (length value) >? MAX_FIELD_LENGTH)%Z
             | None => false
             end) fields.

(** [if (fields.subject) fields.subject =
    escapeHtml(fields.subject).substring(0, 200)]. *)
Definition sanitizeSubject (fields : Fields) : Fields :=
  match get fields (lit "subject") with
  | Some subject =>
      if truthy_str subject
      then set fields (lit "subject") (substring0 200 (escapeHtml subject))
      else fields
  | None => fields
  end.

(** The customer identity derived from the name fields. *)
Record Customer := {
  fullName : jsstring;
  firstName : jsstring;
  lastName : jsstring
}.

Definition customerInfo (fields : Fields) (email : jsstring) : Customer :=
  let name :=
    orS (get fields (lit "name"))
      (orS (get fields (lit "fullName")) (orS (get fields (lit "firstName")) [])) in
  let firstName :=
    orS (get fields (lit "firstName"))
      (orStr (hd [] (split_on c_space name)) []) in
  let lastName :=
    orS (get fields (lit "lastName"))
      (orStr (join (lit " ") (tl (split_on c_space name))) []) in
  let fullName :=
    orStr name
      (orStr (trim (firstName ++ lit " " ++ lastName))
         (hd [] (split_on c_at email))) in
  {| fullName := fullName; firstName := firstName; lastName := lastName |}.

Definition subjectLine (fields : Fields) (formType : jsstring) (c : Customer)
  : jsstring :=
  orS (get fields (lit "subject"))
    (orS (get fields (lit "customSubject"))
       (formatFieldName formType ++ lit " - " ++ fullName c)).

Definition tag_json (name : json) : json := JObj [(lit "name", name)].

(** The ticket payload; [integration] is the optional
    [integration_id] entry and [attachments] is attached only when
    non-empty. *)
Definition ticketPayload (email supportEmail : jsstring) (c : Customer)
    (subject body_html : jsstring) (integration : option json)
    (tags : list json) (uploadedFiles : list Attachment) : json :=
  JObj [
    (lit "channel", JStr (lit "email"));
    (lit "via", JStr (lit "api"));
    (lit "customer", JObj [
       (lit "email", JStr email);
       (lit "name", JStr (fullName c));
       (lit "firstname", JStr (firstName c));
       (lit "lastname", JStr (lastName c))]);
    (lit "subject", JStr subject);
    (lit "messages", JArr [
       obj [
         (lit "source", Some (JObj [
            (lit "type", JStr (lit "email"));
            (lit "to", JArr [JObj [(lit "address", JStr supportEmail)]]);
            (lit "from", JObj [(lit "address", JStr email);
                               (lit "name", JStr (fullName c))])]));
         (lit "body_html", Some (JStr body_html));
         (lit "channel", Some (JStr (lit "email")));
         (lit "from_agent", Some (JBool false));
         (lit "via", Some (JStr (lit "api")));
         (lit "public", Some (JBool true));
         (lit "integration_id", integration);
         (lit "attachments",
            if (0 <? length uploadedFiles)%nat
            then Some (JArr (map attachment_json uploadedFiles))
            else None)]]);
    (lit "tags", JArr (map tag_json tags));
    (lit "status", JStr (lit "open"))].

(** [fields.tags.split(',').map(t => t.trim()).filter(t => t)]. *)
Definition commaTags (tags : jsstring) : list jsstring :=
  filter (fun t => truthy_str t = true) (map trim (split_on c_comma tags)).

(** The verdict of the client-IP derivation:
    [x-forwarded-for?.split(',')[0]?.trim() || remoteAddress || 'unknown']. *)
Definition clientIp (req : Request) : jsstring :=
  let forwarded :=
    match forwardedFor req with
    | Some h => Some (trim (hd [] (split_on c_comma h)))
    | None => None
    end in
  orS forwarded (orS (remoteAddress req) (lit "unknown")).

(** [parseMultipart(req)]: the promise rejects with the parser's error,
    or resolves with the flattened fields and the files; the second
    component lists what the parser has put into temporary storage
    either way. *)
Definition parseMultipart (req : Request) : Result (Fields * Files) * Files :=
  match multipart req with
  | ParseError m written => (Err m, written)
  | Parsed raw files => (Ok (flattenFields raw, files), files)
  end.

(** The parser writes the files it accepts to temporary storage. *)
Definition tempPaths (files : Files) : gset jsstring :=
  list_to_set (map filepath (allFiles files)).

(** The state of the outside world a handler runs against. *)
Record Net (World : Type) := {
  world : World;
  sent : list HttpRequest
}.
Arguments world {World} _.
Arguments sent {World} _.

(** Process state across requests. *)
Record State (World : Type) := {
  rateLimitMap : gmap jsstring RateRecord;
  net : Net World;
  disk : gset jsstring
}.
Arguments rateLimitMap {World} _.
Arguments net {World} _.
Arguments disk {World} _.

Section Outbound.

Context {World : Type}.
Variable fetch : World -> HttpRequest -> Result HttpResponse * World.

(** [await fetch(url, { method: 'POST', ... })], recorded in [sent]. *)
Definition post (req : HttpRequest) (n : Net World)
  : Result HttpResponse * Net World :=
  let (r, w) := fetch (world n) req in
  (r, {| world := w; sent := sent n ++ [req] |}).

(** The request [uploadAttachmentToGorgias] sends for a file. *)
Definition uploadRequest (subdomain apiUser apiKey : jsstring) (file : File)
  : HttpRequest :=
  {| url := uploadUrl subdomain;
     basic_auth := Some (apiUser, apiKey);
     payload := FileBody (filepath file)
                  (orS (originalFilename file) (newFilename file))
                  (orS (mimetype file) (lit "application/octet-stream")) |}.

(** The descriptor read off a successful upload response:
    [Array.isArray(data) ? data[0] : data], then the four properties. *)
Definition descriptor (data : json) (file : File) : Result Attachment :=
  let fileData :=
    match data with
    | JArr items => head items
    | _ => Some data
    end in
  url_ <- get_prop fileData "url" ;;
  name_ <- get_prop fileData "name" ;;
  size_ <- get_prop fileData "size" ;;
  ctype_ <- get_prop fileData "content_type" ;;
  Ok {| att_url := url_;
        att_name :=
          match name_ with
          | Some v => if truthy_json v then Some v
                      else Some (str_or_null (originalFilename file))
          | None => Some (str_or_null (originalFilename file))
          end;
        att_size := size_;
        att_content_type := ctype_ |}.

(** [uploadAttachmentToGorgias]; [failure] builds the message of the
    error thrown on a non-success status. *)
Definition uploadAttachment (failure : Z -> jsstring -> jsstring)
    (subdomain apiUser apiKey : jsstring) (file : File) (n : Net World)
  : Result Attachment * Net World :=
  match post (uploadRequest subdomain apiUser apiKey file) n with
  | (Err m, n) => (Err m, n)
  | (Ok res, n) =>
      if negb (resp_ok res) then
        match resp_text res with
        | Err m => (Err m, n)
        | Ok errorText => (Err (failure (resp_status res) errorText), n)
        end
      else
        match resp_json res with
        | Err m => (Err m, n)
        | Ok data => (descriptor data file, n)
        end
  end.

End Outbound.

(** ** The hardened handler *)

Module Hardened.

Definition RESERVED_FIELDS : list jsstring :=
  [lit "formType"; lit "tags"; lit "customSubject"; lit "subject";
   lit "fileFieldName"; lit "turnstileToken"].

Definition ALLOWED_FORM_TYPES : list jsstring :=
  [lit "b2b-form"; lit "contact-form"; lit "Playspace Design"].

(** [process.env.ALLOWED_ORIGIN?.split(',').map(o => o.trim()) || []]. *)
Definition allowedOrigins (env : Env) : list jsstring :=
  match ALLOWED_ORIGIN env with
  | Some s => map trim (split_on c_comma s)
  | None => []
  end.

(** [process.env.X || null], looked up by form type; [None] is a falsy
    entry (null, or no entry at all). *)
Definition INTEGRATION_MAP (env : Env) (formType : jsstring) : option jsstring :=
  let entry :=
    if str_eqb formType (lit "b2b-form") then GORGIAS_INTEGRATION_B2B env
    else if str_eqb formType (lit "contact-form") then GORGIAS_INTEGRATION_CONTACT env
    else if str_eqb formType (lit "Playspace Design") then GORGIAS_INTEGRATION_DESIGN env
    else None in
  if truthy entry then entry else None.

Definition sendCORS (env : Env) (req : Request) (res : Response) : Response :=
  let res :=
    match origin req with
    | Some o =>
        if truthy_str o && includes (allowedOrigins env) o
        then setHeader (setHeader res (lit "Access-Control-Allow-Origin") o)
               (lit "Vary") (lit "Origin")
        else res
    | None => res
    end in
  setHeader
    (setHeader
       (setHeader res (lit "Access-Control-Allow-Methods") (lit "POST,OPTIONS"))
       (lit "Access-Control-Allow-Headers") (lit "Content-Type"))
    (lit "Access-Control-Allow-Credentials") (lit "true").

(** One iteration of the rendering loop: the markup appended for a
    field. *)
Definition renderField (kv : jsstring * jsstring) : jsstring :=
  let label := escapeHtml (formatFieldName kv.1) in
  let displayValue := escapeHtml (trim kv.2) in
  let isLongText :=
    (100 <? length (trim kv.2))%nat || includes_char c_lf kv.2 in
  if isLongText then longBlock label displayValue
  else shortRow label displayValue.

Definition generateGenericTicketBody (formType : jsstring) (fields : Fields)
  : jsstring :=
  let html := html_open in
  let data := dataFields RESERVED_FIELDS fields in
  let html :=
    if (length data =? 0)%nat then html ++ html_empty
    else fold_left (fun html kv => html ++ renderField kv) data html in
  html ++ html_close.

Definition generic_error : json :=
  error_body "An unexpected error occurred. Please try again later.".

Section Run.

Context {World : Type}.
Variable fetch : World -> HttpRequest -> Result HttpResponse * World.
Variable JSON_parse : jsstring -> Result json.
Variable parseInt : jsstring -> option Z.
Variable deletable : jsstring -> bool.

Definition uploadAttachmentToGorgias :=
  uploadAttachment fetch
    (fun status _ => lit "Upload failed: " ++ Z_to_str status).

(** The body of the inner upload loop for one file: the [try] pushes the
    descriptor, the [catch] records the rejection. *)
Definition uploadStep (subdomain username apiKey : jsstring)
    (acc : list Attachment * list RejectedFile * Net World) (file : File)
  : list Attachment * list RejectedFile * Net World :=
  let '(uploadedFiles, rejectedFiles, n) := acc in
  match uploadAttachmentToGorgias subdomain username apiKey file n with
  | (Ok uploaded, n) => (uploadedFiles ++ [uploaded], rejectedFiles, n)
  | (Err _, n) =>
      (uploadedFiles,
       rejectedFiles ++ [{| filename := originalFilename file;
                            reason := lit "Upload failed" |}],
       n)
  end.

(** The upload loop over [Object.entries(files)]. *)
Definition uploadFiles (subdomain username apiKey : jsstring) (files : Files)
    (n : Net World)
  : list Attachment * list RejectedFile * Net World :=
  fold_left
    (fun acc entry =>
       fold_left (uploadStep subdomain username apiKey) (filesArray entry.2) acc)
    files ([], [], n).

(** Tag resolution; the result lists the [name] of each tag. *)
Definition resolveTags (formType : jsstring) (fields : Fields) : list jsstring :=
  match get fields (lit "tags") with
  | Some tags =>
      if truthy_str tags then
        match JSON_parse tags with
        | Ok (JArr parsedTags) =>
            map (fun tag => substring0 100 (String_ tag)) parsedTags
        | Ok _ => [formType]
        | Err _ =>
            let tagList := commaTags tags in
            if (0 <? length tagList)%nat
            then map (fun tag => substring0 100 tag) tagList
            else [formType]
        end
      else [formType]
  | None => [formType]
  end.

(** The optional bot-verification step: [Some] is the early 403,
    [None] lets the submission proceed (also when the verification
    service fails). *)
Definition captcha (env : Env) (fields : Fields) (n : Net World)
  : option (Z * json) * Net World :=
  match TURNSTILE_SECRET_KEY env, get fields (lit "turnstileToken") with
  | Some secret, Some token =>
      if truthy_str secret && truthy_str token then
        let req :=
          {| url := turnstileUrl; basic_auth := None;
             payload := JsonBody (JObj [(lit "secret", JStr secret);
                                        (lit "response", JStr token)]) |} in
        match post fetch req n with
        | (Ok verifyResp, n) =>
            match (verification <- resp_json verifyResp ;;
                   get_prop (Some verification) "success") with
            | Ok success =>
                if match success with Some v => truthy_json v | None => false end
                then (None, n)
                else (Some (403%Z, error_body "Verification failed. Please try again."), n)
            | Err _ => (None, n)
            end
        | (Err _, n) => (None, n)
        end
      else (None, n)
  | _, _ => (None, n)
  end.

(** The final call: build the payload, post it, and answer. *)
Definition createTicket (env : Env) (subdomain username apiKey : jsstring)
    (fields : Fields) (formType email : jsstring)
    (uploadedFiles : list Attachment) (rejectedFiles : list RejectedFile)
    (n : Net World)
  : Result (Z * json) * Net World :=
  let apiUrl := lit "https://" ++ subdomain ++ lit ".gorgias.com/api" in
  let supportEmail := orS (GORGIAS_SUPPORT_EMAIL env) (lit "support@example.com") in
  let ticketBodyHtml := generateGenericTicketBody formType fields in
  let customer := customerInfo fields email in
  let subject := subjectLine fields formType customer in
  let tags := resolveTags formType fields in
  let integration :=
    match INTEGRATION_MAP env formType with
    | Some id => Some match parseInt id with Some i => JNum i | None => JNull end
    | None => None
    end in
  let ticket :=
    ticketPayload email supportEmail customer subject ticketBodyHtml
      integration (map JStr tags) uploadedFiles in
  let req :=
    {| url := ticketsUrl apiUrl; basic_auth := Some (username, apiKey);
       payload := JsonBody ticket |} in
  match post fetch req n with
  | (Err m, n) => (Err m, n)
  | (Ok resp, n) =>
      if negb (resp_ok resp) then
        match resp_text resp with
        | Err m => (Err m, n)
        | Ok errorText =>
            (Ok (502%Z, error_body "Failed to submit your inquiry. Please try again later."), n)
        end
      else
        (ticketData <- resp_json resp ;;
         id <- get_prop (Some ticketData) "id" ;;
         Ok (200%Z,
             obj [(lit "success", Some (JBool true));
                  (lit "ticketId", id);
                  (lit "filesUploaded", Some (JNum (Z.of_nat (length uploadedFiles))));
                  (lit "filesRejected", Some (JNum (Z.of_nat (length rejectedFiles))))]),
         n)
  end.

(** The [try] block once the body is parsed: the status and JSON body it
    answers with, or the error it throws. *)
Definition process (env : Env) (fields : Fields) (files : Files) (n : Net World)
  : Result (Z * json) * Net World :=
  match GORGIAS_SUBDOMAIN env, GORGIAS_USERNAME env, GORGIAS_API_KEY env with
  | Some subdomain, Some username, Some apiKey =>
      if negb (truthy_str subdomain && truthy_str username && truthy_str apiKey)
      then (Ok (500%Z, generic_error), n)
      else
      match get fields (lit "formType"), get fields (lit "email") with
      | Some formType, Some email =>
          if negb (truthy_str formType && truthy_str email)
          then (Ok (400%Z, error_body "Missing required fields"), n)
          else if negb (includes ALLOWED_FORM_TYPES formType)
          then (Ok (400%Z, error_body "Invalid form type"), n)
          else if negb (EMAIL_REGEX_test email)
          then (Ok (400%Z, error_body "Invalid email format"), n)
          else if tooLong fields
          then (Ok (400%Z, error_body "Input too long"), n)
          else
            let fields := sanitizeSubject fields in
            match captcha env fields n with
            | (Some denied, n) => (Ok denied, n)
            | (None, n) =>
                let '(uploadedFiles, rejectedFiles, n) :=
                  uploadFiles subdomain username apiKey files n in
                createTicket env subdomain username apiKey fields formType email
                  uploadedFiles rejectedFiles n
            end
      | _, _ => (Ok (400%Z, error_body "Missing required fields"), n)
      end
  | _, _, _ => (Ok (500%Z, generic_error), n)
  end.

(** [handler(req, res)] at time [now]: the response sent and the state
    left behind. *)
Definition handler (env : Env) (now : Z) (req : Request) (st : State World)
  : Response * State World :=
  let res := sendCORS env req newResponse in
  if str_eqb (method req) (lit "OPTIONS") then (send_empty res 204, st)
  else if negb (str_eqb (method req) (lit "POST"))
  then (send res 405 (error_body "Method not allowed"), st)
  else if negb (truthy (origin req)
                && match origin req with
                   | Some o => includes (allowedOrigins env) o
                   | None => false
                   end)
  then (send res 403 (error_body "Forbidden"), st)
  else
    let (allowed, rateLimitMap') := checkRateLimit now (clientIp req) (rateLimitMap st) in
    if negb allowed
    then (send res 429 (error_body "Too many requests. Please wait a moment."),
          {| rateLimitMap := rateLimitMap'; net := net st; disk := disk st |})
    else
      (* try *)
      let (parsed, written) := parseMultipart req in
      let d := disk st ∪ tempPaths written in
      let '(outcome, files, n) :=
        match parsed with
        | Err m => (Err m, None, net st)
        | Ok (fields, files) =>
            let (r, n) := process env fields files (net st) in
            (r, Some files, n)
        end in
      (* catch *)
      let res :=
        match outcome with
        | Ok (code, b) => send res code b
        | Err _ => send res 500 generic_error
        end in
      (* finally *)
      (res, {| rateLimitMap := rateLimitMap'; net := n;
               disk := cleanupTempFiles deletable files d |}).

End Run.

End Hardened.

(** ** The form-agnostic handler of [api/create-ticket.js] *)

Module Generic.

Definition RESERVED_FIELDS : list jsstring :=
  [lit "formType"; lit "tags"; lit "customSubject"; lit "Subject";
   lit "fileFieldName"].

(** [process.env.ALLOWED_ORIGIN?.split(',') || []]. *)
Definition allowedOrigins (env : Env) : list jsstring :=
  match ALLOWED_ORIGIN env with
  | Some s => split_on c_comma s
  | None => []
  end.

Definition sendCORS (env : Env) (req : Request) (res : Response) : Response :=
  let res :=
    match origin req with
    | Some o =>
        if includes (allowedOrigins env) o
        then setHeader (setHeader res (lit "Access-Control-Allow-Origin") o)
               (lit "Vary") (lit "Origin")
        else res
    | None => res
    end in
  setHeader
    (setHeader
       (setHeader res (lit "Access-Control-Allow-Methods") (lit "POST,OPTIONS"))
       (lit "Access-Control-Allow-Headers") (lit "Content-Type"))
    (lit "Access-Control-Allow-Credentials") (lit "true").

(** The loop body of the renderer: label and value are interpolated as
    they are. *)
Definition renderField (kv : jsstring * jsstring) : jsstring :=
  let label := formatFieldName kv.1 in
  let displayValue := trim kv.2 in
  let isLongText :=
    (100 <? length displayValue)%nat || includes_char c_lf displayValue in
  if isLongText then longBlock label displayValue
  else shortRow label displayValue.

Definition generateGenericTicketBody (formType : jsstring) (fields : Fields)
  : jsstring :=
  let html := html_open in
  let data := dataFields RESERVED_FIELDS fields in
  let html :=
    if (length data =? 0)%nat then html ++ html_empty
    else fold_left (fun html kv => html ++ renderField kv) data html in
  html ++ html_close.

Section Run.

Context {World : Type}.
Variable fetch : World -> HttpRequest -> Result HttpResponse * World.
Variable JSON_parse : jsstring -> Result json.

Definition uploadAttachmentToGorgias :=
  uploadAttachment fetch
    (fun status errorText =>
       lit "Failed to upload attachment: " ++ Z_to_str status ++ lit " " ++ errorText).

Definition uploadStep (subdomain username apiKey : jsstring)
    (acc : list Attachment * list RejectedFile * Net World) (file : File)
  : list Attachment * list RejectedFile * Net World :=
  let '(uploadedFiles, rejectedFiles, n) := acc in
  match uploadAttachmentToGorgias subdomain username apiKey file n with
  | (Ok uploaded, n) => (uploadedFiles ++ [uploaded], rejectedFiles, n)
  | (Err message, n) =>
      (uploadedFiles,
       rejectedFiles ++ [{| filename := originalFilename file;
                            reason := message |}],
       n)
  end.

Definition uploadFiles (subdomain username apiKey : jsstring) (files : Files)
    (n : Net World)
  : list Attachment * list RejectedFile * Net World :=
  fold_left
    (fun acc entry =>
       fold_left (uploadStep subdomain username apiKey) (filesArray entry.2) acc)
    files ([], [], n).

(** Tag resolution; the result lists the [name] of each tag, which is
    whatever value the JSON array holds. *)
Definition resolveTags (formType : jsstring) (fields : Fields) : list json :=
  match get fields (lit "tags") with
  | Some tags =>
      if truthy_str tags then
        match JSON_parse tags with
        | Ok (JArr parsedTags) => parsedTags
        | Ok _ => [JStr formType]
        | Err _ =>
            let tagList := commaTags tags in
            if (0 <? length tagList)%nat
            then map JStr tagList
            else [JStr formType]
        end
      else [JStr formType]
  | None => [JStr formType]
  end.

(** String interpolation of a possibly undefined value. *)
Definition interpolate (v : option json) : jsstring :=
  match v with
  | Some j => String_ j
  | None => lit "undefined"
  end.

Definition createTicket (env : Env) (subdomain username apiKey : jsstring)
    (fields : Fields) (formType email : jsstring)
    (uploadedFiles : list Attachment) (rejectedFiles : list RejectedFile)
    (n : Net World)
  : Result (Z * json) * Net World :=
  let apiUrl := lit "https://" ++ subdomain ++ lit ".gorgias.com/api" in
  let supportEmail := orS (GORGIAS_SUPPORT_EMAIL env) (lit "support@example.com") in
  let ticketBodyHtml := generateGenericTicketBody formType fields in
  let customer := customerInfo fields email in
  let subject := subjectLine fields formType customer in
  let tags := resolveTags formType fields in
  let ticket :=
    ticketPayload email supportEmail customer subject ticketBodyHtml
      None tags uploadedFiles in
  let req :=
    {| url := ticketsUrl apiUrl; basic_auth := Some (username, apiKey);
       payload := JsonBody ticket |} in
  match post fetch req n with
  | (Err m, n) => (Err m, n)
  | (Ok resp, n) =>
      if negb (resp_ok resp) then
        match resp_text resp with
        | Err m => (Err m, n)
        | Ok errorText =>
            (Ok (502%Z,
                 JObj [(lit "error", JStr (lit "Failed to create ticket"));
                       (lit "status", JNum (resp_status resp));
                       (lit "details", JStr errorText)]), n)
        end
      else
        (ticketData <- resp_json resp ;;
         id <- get_prop (Some ticketData) "id" ;;
         uri <- get_prop (Some ticketData) "uri" ;;
         Ok (200%Z,
             obj [(lit "success", Some (JBool true));
                  (lit "ticketId", id);
                  (lit "ticketUrl",
                     match uri with
                     | Some u =>
                         if truthy_json u then Some u
                         else Some (JStr (lit "https://" ++ subdomain
                                          ++ lit ".gorgias.com/app/ticket/"
                                          ++ interpolate id))
                     | None =>
                         Some (JStr (lit "https://" ++ subdomain
                                     ++ lit ".gorgias.com/app/ticket/"
                                     ++ interpolate id))
                     end);
                  (lit "filesUploaded", Some (JNum (Z.of_nat (length uploadedFiles))));
                  (lit "filesRejected", Some (JNum (Z.of_nat (length rejectedFiles))));
                  (lit "rejectedFiles", Some (JArr (map rejected_json rejectedFiles)))]),
         n)
  end.

(** The [try] block once the body is parsed. *)
Definition process (env : Env) (fields : Fields) (files : Files) (n : Net World)
  : Result (Z * json) * Net World :=
  match GORGIAS_SUBDOMAIN env, GORGIAS_USERNAME env, GORGIAS_API_KEY env with
  | Some subdomain, Some username, Some apiKey =>
      if negb (truthy_str subdomain && truthy_str username && truthy_str apiKey)
      then (Err (lit "Missing Gorgias API credentials"), n)
      else
      match get fields (lit "formType"), get fields (lit "email") with
      | Some formType, Some email =>
          if negb (truthy_str formType && truthy_str email)
          then (Ok (400%Z,
                    JObj [(lit "error", JStr (lit "Missing required fields"));
                          (lit "required", JArr [JStr (lit "formType"); JStr (lit "email")])]),
                n)
          else
            let '(uploadedFiles, rejectedFiles, n) :=
              uploadFiles subdomain username apiKey files n in
            createTicket env subdomain username apiKey fields formType email
              uploadedFiles rejectedFiles n
      | _, _ =>
          (Ok (400%Z,
               JObj [(lit "error", JStr (lit "Missing required fields"));
                     (lit "required", JArr [JStr (lit "formType"); JStr (lit "email")])]),
           n)
      end
  | _, _, _ => (Err (lit "Missing Gorgias API credentials"), n)
  end.

(** [handler(req, res)]: no origin check, no rate limit, and the
    temporary files stay on disk. *)
Definition handler (env : Env) (req : Request) (st : State World)
  : Response * State World :=
  let res := sendCORS env req newResponse in
  if str_eqb (method req) (lit "OPTIONS") then (send_empty res 204, st)
  else if negb (str_eqb (method req) (lit "POST"))
  then (send res 405 (error_body "Method not allowed"), st)
  else
    let (parsed, written) := parseMultipart req in
    let d := disk st ∪ tempPaths written in
    let '(outcome, n) :=
      match parsed with
      | Err m => (Err m, net st)
      | Ok (fields, files) =>
          let (r, n) := process env fields files (net st) in
          (r, n)
      end in
    let res :=
      match outcome with
      | Ok (code, b) => send res code b
      | Err message =>
          send res 500
            (JObj [(lit "error", JStr (lit "Internal server error"));
                   (lit "details", JStr message)])
      end in
    (res, {| rateLimitMap := rateLimitMap st; net := n; disk := d |}).

End Run.

End Generic.
(** ** Definitions used in the statements *)

(** The probe string holding the five special characters. *)
Definition probe : jsstring := lit "<>&" ++ dq ++ lit "'".

(** The submission used to exercise the renderers. *)
Definition xss_fields : Fields :=
  [(lit "formType", Some (lit "contact-form"));
   (lit "email", Some (lit "test@test.com"));
   (lit "message", Some (lit "<script>alert('x')</script>"))].


(** What a reader of HTML makes of a text: each of the five entities
    stands for its character.  [skip] counts the characters of an entity
    that are still to be passed over. *)
Fixpoint decodeFrom (skip : nat) (s : jsstring) : jsstring :=
  match s with
  | [] => []
  | c :: t =>
      match skip with
      | S k => decodeFrom k t
      | O =>
          if is_prefix (lit "&amp;") s then c_amp :: decodeFrom 4 t
          else if is_prefix (lit "&lt;") s then c_lt :: decodeFrom 3 t
          else if is_prefix (lit "&gt;") s then c_gt :: decodeFrom 3 t
          else if is_prefix (lit "&quot;") s then c_dq :: decodeFrom 5 t
          else if is_prefix (lit "&#39;") s then c_sq :: decodeFrom 4 t
          else c :: decodeFrom 0 t
      end
  end.

Definition decodeEntities (s : jsstring) : jsstring := decodeFrom 0 s.

(** Requests of one client, served in order at the given times: the
    verdicts of [checkRateLimit] and the map left behind. *)
Fixpoint serve (ip : jsstring) (times : list Z)
    (rateLimitMap : gmap jsstring RateRecord)
  : list bool * gmap jsstring RateRecord :=
  match times with
  | [] => ([], rateLimitMap)
  | now :: rest =>
      let (allowed, m) := checkRateLimit now ip rateLimitMap in
      let (verdicts, m') := serve ip rest m in
      (allowed :: verdicts, m')
  end.

(** How many of the [earlier] requests arrived less than one window
    before [now]. *)
Definition recent (now : Z) (earlier : list Z) : nat :=
  length (filter (fun t => (now - t < RATE_WINDOW)%Z) earlier).

(** Whether the request carries an [Origin] header found in the
    allow-list. *)
Definition inAllowList (env : Env) (req : Request) : bool :=
  match origin req with
  | Some o => includes (Hardened.allowedOrigins env) o
  | None => false
  end.

(** Whether the hardened handler gets as far as parsing the body. *)
Definition reachesParse (env : Env) (now : Z) (req : Request)
    (rateLimitMap : gmap jsstring RateRecord) : bool :=
  str_eqb (method req) (lit "POST")
  && truthy (origin req) && inAllowList env req
  && (checkRateLimit now (clientIp req) rateLimitMap).1.

(** Whether a required field is absent or empty. *)
Definition missingRequired (fields : Fields) : bool :=
  negb (truthy (get fields (lit "formType")))
  || negb (truthy (get fields (lit "email"))).

(** Whether the three credentials are configured. *)
Definition configured (env : Env) : bool :=
  truthy (GORGIAS_SUBDOMAIN env) && truthy (GORGIAS_USERNAME env)
  && truthy (GORGIAS_API_KEY env).

(** Requests addressed to the attachment-upload or the ticket-creation
    endpoint. *)
Definition toTicketing (r : HttpRequest) : bool :=
  negb (str_eqb (url r) turnstileUrl).

(** A deployment and an upstream used in the examples. *)
Definition demo_env : Env :=
  {| ALLOWED_ORIGIN := Some (lit "https://shop.example");
     GORGIAS_SUBDOMAIN := Some (lit "acme");
     GORGIAS_USERNAME := Some (lit "api@shop.example");
     GORGIAS_API_KEY := Some (lit "k3y");
     GORGIAS_SUPPORT_EMAIL := None;
     TURNSTILE_SECRET_KEY := None;
     GORGIAS_INTEGRATION_B2B := None;
     GORGIAS_INTEGRATION_CONTACT := None;
     GORGIAS_INTEGRATION_DESIGN := None |}.

Definition idle : State unit :=
  {| rateLimitMap := ∅; net := {| world := tt; sent := [] |}; disk := ∅ |}.

(** An upstream that cannot be reached. *)
Definition offline (w : unit) (r : HttpRequest) : Result HttpResponse * unit :=
  (Err (lit "network error"), w).

Definition preflight_foreign : Request :=
  {| method := lit "OPTIONS";
     origin := Some (lit "https://evil.example");
     forwardedFor := None;
     remoteAddress := Some (lit "203.0.113.7");
     multipart := ParseError (lit "no body") [] |}.

(** Whether the hardened handler stops the request at the rate limit. *)
Definition rateLimited (env : Env) (now : Z) (req : Request)
    (rateLimitMap : gmap jsstring RateRecord) : bool :=
  str_eqb (method req) (lit "POST")
  && truthy (origin req) && inAllowList env req
  && negb (checkRateLimit now (clientIp req) rateLimitMap).1.

(** The configured credentials and the two required fields, as the
    handler reads them once they are known to be truthy. *)
Definition subdomainOf (env : Env) : jsstring := orS (GORGIAS_SUBDOMAIN env) [].
Definition usernameOf (env : Env) : jsstring := orS (GORGIAS_USERNAME env) [].
Definition apiKeyOf (env : Env) : jsstring := orS (GORGIAS_API_KEY env) [].
Definition formTypeOf (fields : Fields) : jsstring := orS (get fields (lit "formType")) [].
Definition emailOf (fields : Fields) : jsstring := orS (get fields (lit "email")) [].

(** A submission that passes every check made before the optional
    verification step. *)
Definition accepted (env : Env) (fields : Fields) : bool :=
  configured env && negb (missingRequired fields)
  && includes Hardened.ALLOWED_FORM_TYPES (formTypeOf fields)
  && EMAIL_REGEX_test (emailOf fields)
  && negb (tooLong fields).

(** The entry recorded for a file whose upload failed. *)
Definition rejection (f : File) : RejectedFile :=
  {| filename := originalFilename f; reason := lit "Upload failed" |}.

(** The body of a success response of the hardened handler. *)
Definition successBody (id : option json) (uploaded rejected : nat) : json :=
  obj [(lit "success", Some (JBool true));
       (lit "ticketId", id);
       (lit "filesUploaded", Some (JNum (Z.of_nat uploaded)));
       (lit "filesRejected", Some (JNum (Z.of_nat rejected)))].

(** Three files and a mocked upstream that refuses the second one with a
    500 and accepts every other upload and the ticket. *)
Definition file_a : File :=
  {| filepath := lit "/tmp/upload_a"; originalFilename := Some (lit "a.png");
     newFilename := lit "upload_a"; mimetype := Some (lit "image/png"); size := 120 |}.

Definition file_b : File :=
  {| filepath := lit "/tmp/upload_b"; originalFilename := Some (lit "b.pdf");
     newFilename := lit "upload_b"; mimetype := Some (lit "application/pdf"); size := 340 |}.

Definition file_c : File :=
  {| filepath := lit "/tmp/upload_c"; originalFilename := Some (lit "c.txt");
     newFilename := lit "upload_c"; mimetype := Some (lit "text/plain"); size := 7 |}.

Definition fails_b (f : File) : bool :=
  str_eqb (orS (originalFilename f) (newFilename f)) (lit "b.pdf").

Definition mock (w : unit) (r : HttpRequest) : Result HttpResponse * unit :=
  (match payload r with
   | FileBody path name contentType =>
       if str_eqb name (lit "b.pdf")
       then Ok {| resp_status := 500;
                  resp_text := Ok (lit "Internal Server Error");
                  resp_json := Err (lit "Unexpected token I in JSON at position 0") |}
       else Ok {| resp_status := 200;
                  resp_text := Ok [];
                  resp_json :=
                    Ok (JArr [JObj [(lit "url", JStr (lit "https://cdn.example/" ++ name));
                                    (lit "name", JStr name);
                                    (lit "size", JNum 1);
                                    (lit "content_type", JStr contentType)]]) |}
   | JsonBody _ =>
       Ok {| resp_status := 201;
             resp_text := Ok [];
             resp_json := Ok (JObj [(lit "id", JNum 42)]) |}
   end, w).

Definition no_json (s : jsstring) : Result json := Err (lit "Unexpected token").
Definition no_int (s : jsstring) : option Z := None.
Definition all_deletable (p : jsstring) : bool := true.

Definition submission : Request :=
  {| method := lit "POST";
     origin := Some (lit "https://shop.example");
     forwardedFor := Some (lit "203.0.113.7, 10.0.0.1");
     remoteAddress := None;
     multipart :=
       Parsed [(lit "formType", Multi [lit "contact-form"]);
               (lit "email", Multi [lit "test@test.com"]);
               (lit "name", Multi [lit "Jane Doe"]);
               (lit "message", Multi [lit "Hello" ++ nl ++ lit "World"])]
              [(lit "attachments", ManyFiles [file_a; file_b; file_c])] |}.

(** The error bodies the hardened handler can send: fixed texts. *)
Definition hardenedErrors : list json :=
  [error_body "Method not allowed";
   error_body "Forbidden";
   error_body "Too many requests. Please wait a moment.";
   Hardened.generic_error;
   error_body "Missing required fields";
   error_body "Invalid form type";
   error_body "Invalid email format";
   error_body "Input too long";
   error_body "Verification failed. Please try again.";
   error_body "Failed to submit your inquiry. Please try again later."].

Definition badGateway : json :=
  error_body "Failed to submit your inquiry. Please try again later.".

(** The 400 body of the form-agnostic handler for a missing field. *)
Definition missingFieldsBody : json :=
  JObj [(lit "error", JStr (lit "Missing required fields"));
        (lit "required", JArr [JStr (lit "formType"); JStr (lit "email")])].

(** A tag of 101 characters. *)
Definition long_tag : jsstring := repeat 97%N 101.

(** An upstream whose ticket endpoint answers 500 with a body of its
    own. *)
Definition upstream_detail : jsstring :=
  lit "500 from acme.gorgias.com: relation tickets_2024 is locked".

Definition mock_down (w : unit) (r : HttpRequest) : Result HttpResponse * unit :=
  (Ok {| resp_status := 500;
         resp_text := Ok upstream_detail;
         resp_json := Err (lit "Unexpected token") |}, w).

(** The sample submission without files, and the same sent from a
    foreign origin. *)
Definition plain_submission : Request :=
  {| method := lit "POST";
     origin := Some (lit "https://shop.example");
     forwardedFor := None;
     remoteAddress := Some (lit "203.0.113.7");
     multipart :=
       Parsed [(lit "formType", Multi [lit "contact-form"]);
               (lit "email", Multi [lit "test@test.com"])] [] |}.

Definition foreign_submission : Request :=
  {| method := lit "POST";
     origin := Some (lit "https://evil.example");
     forwardedFor := None;
     remoteAddress := Some (lit "203.0.113.7");
     multipart :=
       Parsed [(lit "formType", Multi [lit "contact-form"]);
               (lit "email", Multi [lit "test@test.com"])] [] |}.

Definition no_email : Request :=
  {| method := lit "POST";
     origin := Some (lit "https://shop.example");
     forwardedFor := None;
     remoteAddress := Some (lit "203.0.113.7");
     multipart := Parsed [(lit "formType", Multi [lit "contact-form"])] [] |}.

(** A process state in which the client has used up its window. *)
Definition exhausted : State unit :=
  {| rateLimitMap := {[ lit "203.0.113.7" := {| start := 0; count := 5 |} ]};
     net := {| world := tt; sent := [] |};
     disk := ∅ |}.

(** Every string of a JSON value, keys included. *)
Fixpoint json_strings (j : json) : list jsstring :=
  match j with
  | JStr s => [s]
  | JArr items => flat_map json_strings items
  | JObj props => flat_map (fun kv => kv.1 :: json_strings kv.2) props
  | _ => []
  end.

(** Whether [text] occurs in some string of the value. *)
Definition mentions (text : jsstring) (j : json) : bool :=
  existsb (is_infix text) (json_strings j).

(** [JSON.parse] on the inputs of the examples: the empty array parses,
    the other texts are not JSON. *)
Definition parse_sample (s : jsstring) : Result json :=
  if str_eqb s (lit "[]") then Ok (JArr []) else Err (lit "Unexpected token").

(** A [tags] field holding a JSON array. *)
Definition tags_array : jsstring := lit "[" ++ q "vip" ++ lit ",7]".

(** ** Further definitions: labels, parsing options, clients *)

(** No letter [a]-[z] is directly followed by a letter [A]-[Z]. *)
Fixpoint noCamel (s : jsstring) : bool :=
  match s with
  | [] => true
  | a :: rest =>
      match rest with
      | b :: _ => negb (is_lower a && is_upper b) && noCamel rest
      | [] => true
      end
  end.

(** Neither underscore nor hyphen occurs. *)
Definition noSeparator (s : jsstring) : bool :=
  forallb (fun c => negb ((c =? 95) || (c =? 45))%N) s.

(** No word starts with a letter [a]-[z]; [prev] tells whether the
    character before [s] is a word character, one of [A-Za-z0-9_]. *)
Fixpoint wordsCapitalized (prev : bool) (s : jsstring) : bool :=
  match s with
  | [] => true
  | c :: t =>
      negb (is_word c && negb prev && is_lower c) && wordsCapitalized (is_word c) t
  end.

(** Whether the hardened handler gets as far as the rate limiter. *)
Definition reachesRateLimit (env : Env) (req : Request) : bool :=
  str_eqb (method req) (lit "POST") && truthy (origin req) && inAllowList env req.

(** The requests the hardened handler may send for a deployment: the
    verification call, without credentials, and the two ticketing calls,
    with the configured credentials. *)
Definition expectedRequest (env : Env) (r : HttpRequest) : Prop :=
  (url r = turnstileUrl /\ basic_auth r = None) \/
  (basic_auth r = Some (usernameOf env, apiKeyOf env) /\
   (url r = uploadUrl (subdomainOf env) \/
    url r = ticketsUrl (lit "https://" ++ subdomainOf env ++ lit ".gorgias.com/api"))).

(** A submission naming a form type that is not served. *)
Definition unknown_form : Request :=
  {| method := lit "POST";
     origin := Some (lit "https://shop.example");
     forwardedFor := None;
     remoteAddress := Some (lit "203.0.113.7");
     multipart :=
       Parsed [(lit "formType", Multi [lit "not-a-real-type"]);
               (lit "email", Multi [lit "test@test.com"])] [] |}.

Section Traffic.

Context {World : Type}.
Variable fetch : World -> HttpRequest -> Result HttpResponse * World.
Variable JSON_parse : jsstring -> Result json.
Variable parseInt : jsstring -> option Z.
Variable deletable : jsstring -> bool.

(** The hardened handler serving a sequence of requests, each with its
    arrival time, one after the other in the same process. *)
Definition serveAll (env : Env) (traffic : list (Z * Request)) (st : State World)
  : State World :=
  fold_left
    (fun st tr =>
       (Hardened.handler fetch JSON_parse parseInt deletable env tr.1 tr.2 st).2)
    traffic st.

End Traffic.

(** The client keys of the requests that get as far as the rate limiter. *)
Definition limitedClients (env : Env) (traffic : list (Z * Request)) : list jsstring :=
  omap (fun tr => if reachesRateLimit env tr.2 then Some (clientIp tr.2) else None)
    traffic.

(** The value of [Access-Control-Allow-Origin] each handler sets, if any. *)
Definition hardenedAllowOrigin (env : Env) (req : Request) : option jsstring :=
  if truthy (origin req) && inAllowList env req then origin req else None.

Definition genericAllowOrigin (env : Env) (req : Request) : option jsstring :=
  match origin req with
  | Some o => if includes (Generic.allowedOrigins env) o then Some o else None
  | None => None
  end.

(** The same deployment with bot verification switched off. *)
Definition withoutVerification (env : Env) : Env :=
  {| ALLOWED_ORIGIN := ALLOWED_ORIGIN env;
     GORGIAS_SUBDOMAIN := GORGIAS_SUBDOMAIN env;
     GORGIAS_USERNAME := GORGIAS_USERNAME env;
     GORGIAS_API_KEY := GORGIAS_API_KEY env;
     GORGIAS_SUPPORT_EMAIL := GORGIAS_SUPPORT_EMAIL env;
     TURNSTILE_SECRET_KEY := None;
     GORGIAS_INTEGRATION_B2B := GORGIAS_INTEGRATION_B2B env;
     GORGIAS_INTEGRATION_CONTACT := GORGIAS_INTEGRATION_CONTACT env;
     GORGIAS_INTEGRATION_DESIGN := GORGIAS_INTEGRATION_DESIGN env |}.

(** Whether the parsed submission carries a verification token. *)
Definition hasToken (req : Request) : bool :=
  match multipart req with
  | Parsed raw _ => truthy (get (flattenFields raw) (lit "turnstileToken"))
  | ParseError _ _ => false
  end.

(** A deployment with bot verification configured. *)
Definition guarded_env : Env :=
  {| ALLOWED_ORIGIN := Some (lit "https://shop.example");
     GORGIAS_SUBDOMAIN := Some (lit "acme");
     GORGIAS_USERNAME := Some (lit "api@shop.example");
     GORGIAS_API_KEY := Some (lit "k3y");
     GORGIAS_SUPPORT_EMAIL := None;
     TURNSTILE_SECRET_KEY := Some (lit "s3cret");
     GORGIAS_INTEGRATION_B2B := None;
     GORGIAS_INTEGRATION_CONTACT := None;
     GORGIAS_INTEGRATION_DESIGN := None |}.

(** The subject a submission asks for, and the subject of the ticket
    when it asks for none. *)
Definition givenSubject (fields : Fields) : jsstring :=
  orS (get fields (lit "subject")) [].

Definition fallbackSubject (fields : Fields) (formType : jsstring) (c : Customer)
  : jsstring :=
  orS (get fields (lit "customSubject"))
    (formatFieldName formType ++ lit " - " ++ fullName c).

(** The name a submission gives:
    [fields.name || fields.fullName || fields.firstName || '']. *)
Definition givenName (fields : Fields) : jsstring :=
  orS (get fields (lit "name"))
    (orS (get fields (lit "fullName")) (orS (get fields (lit "firstName")) [])).

(** A submission that gives a full name only. *)
Definition named_fields : Fields :=
  [(lit "formType", Some (lit "contact-form"));
   (lit "email", Some (lit "jane@shop.example"));
   (lit "name", Some (lit "Jane van Doe"))].

(** ** The file filter of [parseMultipart] *)

Definition defaultFileTypes : list jsstring :=
  [lit "image/jpeg"; lit "image/jpg"; lit "image/png"; lit "image/gif";
   lit "image/webp"; lit "application/pdf"; lit "application/msword";
   lit "application/vnd.openxmlformats-officedocument.wordprocessingml.document";
   lit "application/vnd.ms-excel";
   lit "application/vnd.openxmlformats-officedocument.spreadsheetml.sheet";
   lit "text/plain"; lit "text/csv"].

(** [process.env.ALLOWED_FILE_TYPES?.split(',') || [...]], for the value
    [setting] of the variable ([None] when unset): an array is truthy, so
    the default list is taken only when the variable is unset. *)
Definition allowedFileTypes (setting : option jsstring) : list jsstring :=
  match setting with
  | Some s => split_on c_comma s
  | None => defaultFileTypes
  end.

(** The [filter] option handed to the parser, read as the boolean the
    parser takes it for; [mimetype] is [None] when the part declares no
    type. *)
Definition fileFilter (setting : option jsstring) (mimetype : option jsstring) : bool :=
  if (length (allowedFileTypes setting) =? 0)%nat then true
  else match mimetype with
       | Some m => truthy_str m && includes (allowedFileTypes setting) m
       | None => false
       end.

(** ** Occurrences of a character *)

Definition occurrences (c : N) (s : jsstring) : nat := count_occ N.eq_dec s c.

(** How often a markup character occurs in the markup around one
    rendered field, and in the body around all of them. *)
Definition perField (c : N) : nat := if (c =? c_sq)%N then 0 else 6.
Definition perBody (c : N) (rendered : nat) : nat :=
  if (c =? c_sq)%N then 2
  else if (rendered =? 0)%nat then 4 else 2 + 6 * rendered.

Section Responses.

Context {World : Type}.
Variable fetch : World -> HttpRequest -> Result HttpResponse * World.
Variable JSON_parse : jsstring -> Result json.
Variable parseInt : jsstring -> option Z.
Variable deletable : jsstring -> bool.

(** The responses the hardened handler gives to a sequence of requests
    served one after the other. *)
Fixpoint responses (env : Env) (traffic : list (Z * Request)) (st : State World)
  : list Response :=
  match traffic with
  | [] => []
  | tr :: rest =>
      let (res, st') :=
        Hardened.handler fetch JSON_parse parseInt deletable env tr.1 tr.2 st in
      res :: responses env rest st'
  end.

End Responses.

(** A submission declaring [ip] as the first forwarded address. *)
Definition forwarded (ip : string) : Request :=
  {| method := lit "POST";
     origin := Some (lit "https://shop.example");
     forwardedFor := Some (lit ip ++ lit ", 10.0.0.1");
     remoteAddress := Some (lit "203.0.113.7");
     multipart :=
       Parsed [(lit "formType", Multi [lit "contact-form"]);
               (lit "email", Multi [lit "test@test.com"])] [] |}.

(** Seven submissions at the same instant over one connection, each
    declaring another forwarded address. *)
Definition rotating : list (Z * Request) :=
  map (fun ip => (0%Z, forwarded ip))
    ["198.51.100.1"; "198.51.100.2"; "198.51.100.3"; "198.51.100.4";
     "198.51.100.5"; "198.51.100.6"; "198.51.100.7"]%string.

(** Whether the answer of the upload service holds a descriptor to read:
    the value itself, or the first element of an array, must be neither
    [null] nor missing. *)
Definition usable (data : json) : bool :=
  match data with
  | JNull => false
  | JArr [] => false
  | JArr (JNull :: _) => false
  | _ => true
  end.

(** A submission no check of the hardened handler would let through:
    foreign origin, unknown form type, no address in the [email] field. *)
Definition unchecked_submission : Request :=
  {| method := lit "POST";
     origin := Some (lit "https://evil.example");
     forwardedFor := None;
     remoteAddress := Some (lit "203.0.113.7");
     multipart :=
       Parsed [(lit "formType", Multi [lit "anything"]);
               (lit "email", Multi [lit "not an address"])] [] |}.

Section UploadRun.

Context {World : Type}.
Variable fetch : World -> HttpRequest -> Result HttpResponse * World.

(** The files whose upload fails when the loop of the hardened handler
    runs over [l] from the state [n]: each file is tried in the state its
    predecessors have left. *)
Fixpoint failingFiles (subdomain username apiKey : jsstring) (l : list File)
    (n : Net World) : list File :=
  match l with
  | [] => []
  | file :: rest =>
      let (r, n') :=
        Hardened.uploadAttachmentToGorgias fetch subdomain username apiKey file n in
      (if is_Ok r then [] else [file])
        ++ failingFiles subdomain username apiKey rest n'
  end.

End UploadRun.

(** An upstream that counts the uploads it receives and refuses the
    second one, whatever the file. *)
Definition mock_second (w : nat) (r : HttpRequest) : Result HttpResponse * nat :=
  match payload r with
  | FileBody path name contentType =>
      (if (w =? 1)%nat
       then Ok {| resp_status := 500;
                  resp_text := Ok (lit "Internal Server Error");
                  resp_json := Err (lit "Unexpected token I in JSON at position 0") |}
       else Ok {| resp_status := 200;
                  resp_text := Ok [];
                  resp_json :=
                    Ok (JObj [(lit "url", JStr (lit "https://cdn.example/" ++ name));
                              (lit "name", JStr name);
                              (lit "size", JNum 1);
                              (lit "content_type", JStr contentType)]) |},
       S w)
  | JsonBody _ =>
      (Ok {| resp_status := 201;
             resp_text := Ok [];
             resp_json := Ok (JObj [(lit "id", JNum 42)]) |}, w)
  end.

Definition idle_counting : State nat :=
  {| rateLimitMap := ∅; net := {| world := 0%nat; sent := [] |}; disk := ∅ |}.


(** The pieces of a comma-separated list that make a tag: trimmed, and
    left out when blank. *)
Definition tagOf (piece : jsstring) : option jsstring :=
  if truthy_str (trim piece) then Some (trim piece) else None.


(** The name and the value of a field that holds a string. *)
Definition entry (kv : jsstring * option jsstring) : jsstring * jsstring :=
  (kv.1, orS kv.2 []).

(** * The geocoding proxy of [api/geocode.js] *)

Module Geocode.

Definition RATE_LIMIT : Z := 20.
Definition RATE_WINDOW : Z := 60000.
Definition MAX_POSTAL_CODE_LENGTH : nat := 20.

(** [checkRateLimit(ip)] of the proxy, on its own map. *)
Definition checkRateLimit (now : Z) (ip : jsstring)
    (rateLimitMap : gmap jsstring RateRecord)
  : bool * gmap jsstring RateRecord :=
  match rateLimitMap !! ip with
  | Some record =>
      if (now - start record >? RATE_WINDOW)%Z
      then (true, <[ip := {| start := now; count := 1 |}]> rateLimitMap)
      else
        let record' := {| start := start record; count := (count record + 1)%Z |} in
        ((count record' <=? RATE_LIMIT)%Z, <[ip := record']> rateLimitMap)
  | None => (true, <[ip := {| start := now; count := 1 |}]> rateLimitMap)
  end.

(** [POSTAL_CODE_REGEX.test(s)] for [/^[a-zA-Z0-9\s\-]{2,20}$/]. *)
Definition postal_char (c : N) : bool :=
  is_lower c || is_upper c || is_digit c || is_ws c || (c =? 45)%N.

Definition POSTAL_CODE_REGEX_test (s : jsstring) : bool :=
  (2 <=? length s)%nat && (length s <=? 20)%nat && forallb postal_char s.

(** ** [encodeURIComponent] *)

Definition hex_digit (n : N) : N := if (n <? 10)%N then (48 + n)%N else (55 + n)%N.

(** One octet as [%XX]. *)
Definition percent (octet : N) : jsstring :=
  [37%N; hex_digit (octet / 16); hex_digit (octet mod 16)].

(** The UTF-8 octets of a code point. *)
Definition utf8 (cp : N) : list N :=
  (if cp <? 128 then [cp]
   else if cp <? 2048 then [192 + cp / 64; 128 + cp mod 64]
   else if cp <? 65536
   then [224 + cp / 4096; 128 + (cp / 64) mod 64; 128 + cp mod 64]
   else [240 + cp / 262144; 128 + (cp / 4096) mod 64;
         128 + (cp / 64) mod 64; 128 + cp mod 64])%N.

(** The characters [encodeURIComponent] leaves as they are: letters,
    digits and [- _ . ! ~ * ' ( )]. *)
Definition is_unreserved (c : N) : bool :=
  is_lower c || is_upper c || is_digit c
  || existsb (N.eqb c) [45; 95; 46; 33; 126; 42; 39; 40; 41]%N.

Definition is_high_surrogate (c : N) : bool := ((55296 <=? c) && (c <=? 56319))%N.
Definition is_low_surrogate (c : N) : bool := ((56320 <=? c) && (c <=? 57343))%N.

Definition uriError : jsstring := lit "URI malformed".

(** [encodeURIComponent(s)]: throws on a surrogate that is not part of a
    pair. *)
Fixpoint encodeURIComponent (s : jsstring) : Result jsstring :=
  match s with
  | [] => Ok []
  | c :: t =>
      if is_unreserved c then
        (r <- encodeURIComponent t ;; Ok (c :: r))
      else if is_low_surrogate c then Err uriError
      else if is_high_surrogate c then
        match t with
        | d :: t' =>
            if is_low_surrogate d then
              (r <- encodeURIComponent t' ;;
               Ok (flat_map percent
                     (utf8 (65536 + (c - 55296) * 1024 + (d - 56320))%N) ++ r))
            else Err uriError
        | [] => Err uriError
        end
      else
        (r <- encodeURIComponent t ;; Ok (flat_map percent (utf8 c) ++ r))
  end.

Definition geocodeBase : jsstring :=
  lit "https://maps.googleapis.com/maps/api/geocode/json?address=".

(** The template literal that builds the upstream address. *)
Definition geocodeUrl (apiKey trimmed : jsstring) : Result jsstring :=
  address <- encodeURIComponent trimmed ;;
  Ok (geocodeBase ++ address ++ lit "&key=" ++ apiKey).

(** ** Reading the upstream answer *)

(** [v.length === 0] on a truthy value. *)
Definition length_is_zero (v : json) : bool :=
  match v with
  | JArr items => (length items =? 0)%nat
  | JStr s => (length s =? 0)%nat
  | JObj props =>
      match lookup_prop props (lit "length") with
      | Some (JNum n) => (n =? 0)%Z
      | _ => false
      end
  | _ => false
  end.

(** [v[0]] on a truthy value. *)
Definition first_item (v : json) : option json :=
  match v with
  | JArr items => head items
  | JStr (c :: _) => Some (JStr [c])
  | JObj props => lookup_prop props (lit "0")
  | _ => None
  end.

(** The callback of [map]: the three properties kept of a component. *)
Definition component (c : json) : Result json :=
  long_name <- get_prop (Some c) "long_name" ;;
  short_name <- get_prop (Some c) "short_name" ;;
  types <- get_prop (Some c) "types" ;;
  Ok (obj [(lit "long_name", long_name);
           (lit "short_name", short_name);
           (lit "types", types)]).

Fixpoint mapM {A B} (f : A -> Result B) (l : list A) : Result (list B) :=
  match l with
  | [] => Ok []
  | x :: t => y <- f x ;; ys <- mapM f t ;; Ok (y :: ys)
  end.

(** [(result.address_components || []).map(...)]: only an array has a
    [map] to call. *)
Definition components (result : option json) : Result (list json) :=
  address_components <- get_prop result "address_components" ;;
  match address_components with
  | Some v =>
      if truthy_json v then
        match v with
        | JArr items => mapM component items
        | _ => Err (lit "(result.address_components || []).map is not a function")
        end
      else Ok []
  | None => Ok []
  end.

Definition is_OK (v : option json) : bool :=
  match v with
  | Some (JStr s) => str_eqb s (lit "OK")
  | _ => false
  end.

Definition truthy_value (v : option json) : bool :=
  match v with
  | Some j => truthy_json j
  | None => false
  end.

Definition sendCORS (env : Env) (req : Request) (res : Response) : Response :=
  let res :=
    match origin req with
    | Some o =>
        if truthy_str o && includes (Hardened.allowedOrigins env) o
        then setHeader (setHeader res (lit "Access-Control-Allow-Origin") o)
               (lit "Vary") (lit "Origin")
        else res
    | None => res
    end in
  setHeader
    (setHeader res (lit "Access-Control-Allow-Methods") (lit "GET,OPTIONS"))
    (lit "Access-Control-Allow-Headers") (lit "Content-Type").

Definition cacheControl : jsstring := lit "public, max-age=86400, s-maxage=86400".

(** The state of the proxy across requests: its rate-limit map, the
    outside world and the addresses fetched so far. *)
Record State (World : Type) := {
  rateLimitMap : gmap jsstring RateRecord;
  world : World;
  requested : list jsstring
}.
Arguments rateLimitMap {World} _.
Arguments world {World} _.
Arguments requested {World} _.

Section Run.

Context {World : Type}.
(** [fetch(url)]: a GET. *)
Variable fetch : World -> jsstring -> Result HttpResponse * World.

(** The [try] block: the response sent, or the error thrown. *)
Definition proxy (apiKey trimmed : jsstring) (res : Response)
    (w : World) (requested : list jsstring)
  : Result Response * World * list jsstring :=
  match geocodeUrl apiKey trimmed with
  | Err m => (Err m, w, requested)
  | Ok geocodeUrl =>
      let (response, w) := fetch w geocodeUrl in
      ((response <- response ;;
        data <- resp_json response ;;
        status_ <- get_prop (Some data) "status" ;;
        if negb (is_OK status_) then
          Ok (send res 200 (obj [(lit "status", status_);
                                 (lit "results", Some (JArr []))]))
        else
          results <- get_prop (Some data) "results" ;;
          if negb (truthy_value results)
             || match results with Some v => length_is_zero v | None => false end
          then
            Ok (send res 200 (obj [(lit "status", status_);
                                   (lit "results", Some (JArr []))]))
          else
            comps <- components
                       match results with Some v => first_item v | None => None end ;;
            Ok (send (setHeader res (lit "Cache-Control") cacheControl) 200
                  (JObj [(lit "status", JStr (lit "OK"));
                         (lit "results",
                            JArr [JObj [(lit "address_components", JArr comps)]])]))),
       w, requested ++ [geocodeUrl])
  end.

(** [handler(req, res)] at time [now]; [GOOGLE_API_KEY] is the value of
    the environment variable and [postalCode] is [req.query.postalCode]:
    a string, an array when the parameter is repeated, or undefined. *)
Definition handler (env : Env) (GOOGLE_API_KEY : option jsstring) (now : Z)
    (req : Request) (postalCode : option RawField) (st : State World)
  : Response * State World :=
  let res := sendCORS env req newResponse in
  if str_eqb (method req) (lit "OPTIONS") then (send_empty res 204, st)
  else if negb (str_eqb (method req) (lit "GET"))
  then (send res 405 (error_body "Method not allowed"), st)
  else if negb (truthy (origin req)
                && match origin req with
                   | Some o => includes (Hardened.allowedOrigins env) o
                   | None => false
                   end)
  then (send res 403 (error_body "Forbidden"), st)
  else
    let (allowed, rateLimitMap') :=
      checkRateLimit now (clientIp req) (rateLimitMap st) in
    let st := {| rateLimitMap := rateLimitMap'; world := world st;
                 requested := requested st |} in
    if negb allowed
    then (send res 429 (error_body "Too many requests. Please wait a moment."), st)
    else if negb (truthy GOOGLE_API_KEY)
    then (send res 500 (error_body "Service temporarily unavailable"), st)
    else
      match postalCode with
      | Some (Single postalCode) =>
          if negb (truthy_str postalCode)
          then (send res 400 (error_body "Missing postalCode parameter"), st)
          else
            let trimmed := trim postalCode in
            if (MAX_POSTAL_CODE_LENGTH <? length trimmed)%nat
               || negb (POSTAL_CODE_REGEX_test trimmed)
            then (send res 400 (error_body "Invalid postal code format"), st)
            else
              let '(outcome, w, requested') :=
                proxy (orS GOOGLE_API_KEY []) trimmed res (world st) (requested st) in
              (match outcome with
               | Ok sent_ => sent_
               | Err _ =>
                   send res 502 (error_body "Geocoding service temporarily unavailable")
               end,
               {| rateLimitMap := rateLimitMap'; world := w; requested := requested' |})
      | _ => (send res 400 (error_body "Missing postalCode parameter"), st)
      end.

End Run.

End Geocode.

(** ** Statements about the proxy *)

(** Characters that cannot end or start a query parameter. *)
Definition url_safe (c : N) : bool :=
  is_lower c || is_upper c || is_digit c || (c =? 45)%N || (c =? 37)%N.

(** The error answers of the proxy. *)
Definition geocodeErrors : list (Z * json) :=
  [(405%Z, error_body "Method not allowed");
   (403%Z, error_body "Forbidden");
   (429%Z, error_body "Too many requests. Please wait a moment.");
   (500%Z, error_body "Service temporarily unavailable");
   (400%Z, error_body "Missing postalCode parameter");
   (400%Z, error_body "Invalid postal code format");
   (502%Z, error_body "Geocoding service temporarily unavailable")].

(** An object with no property besides the three kept of a component. *)
Definition stripped (c : json) : bool :=
  match c with
  | JObj props =>
      forallb (fun kv => includes [lit "long_name"; lit "short_name"; lit "types"] kv.1)
        props
  | _ => false
  end.

(** The two bodies of a 200. *)
Definition noResults (status_ : option json) : json :=
  obj [(lit "status", status_); (lit "results", Some (JArr []))].

Definition oneResult (comps : list json) : json :=
  JObj [(lit "status", JStr (lit "OK"));
        (lit "results", JArr [JObj [(lit "address_components", JArr comps)]])].

(** An upstream that knows one place. *)
Definition atlas (w : unit) (url_ : jsstring) : Result HttpResponse * unit :=
  (Ok {| resp_status := 200;
         resp_text := Ok [];
         resp_json :=
           Ok (JObj [(lit "status", JStr (lit "OK"));
                     (lit "results",
                        JArr [JObj [(lit "formatted_address", JStr (lit "Springfield"));
                                    (lit "address_components",
                                       JArr [JObj [(lit "long_name", JStr (lit "Springfield"));
                                                   (lit "short_name", JStr (lit "SPR"));
                                                   (lit "types", JArr [JStr (lit "locality")]);
                                                   (lit "internal", JNum 7)]])]])]) |},
   w).

Definition lookup_request : Request :=
  {| method := lit "GET";
     origin := Some (lit "https://shop.example");
     forwardedFor := None;
     remoteAddress := Some (lit "203.0.113.7");
     multipart := ParseError [] [] |}.

Definition geo_idle : Geocode.State unit :=
  {| Geocode.rateLimitMap := ∅; Geocode.world := tt; Geocode.requested := [] |}.

(** Whether the proxy gets as far as its rate limiter. *)
Definition geoReaches (env : Env) (req : Request) : bool :=
  str_eqb (method req) (lit "GET") && truthy (origin req) && inAllowList env req.
(** * Properties *)

(** ** The helpers on sample inputs *)

Example formatFieldName_camel :
  formatFieldName (lit "firstName") = lit "First Name".
Proof. reflexivity. Qed.

Example formatFieldName_snake :
  formatFieldName (lit "company_name") = lit "Company Name".
Proof. reflexivity. Qed.

Example formatFieldName_acronym :
  formatFieldName (lit "taxID") = lit "Tax ID".
Proof. reflexivity. Qed.

Example escapeHtml_sample :
  escapeHtml (lit "<b>Tom & 'Jerry'</b>")
  = lit "&lt;b&gt;Tom &amp; &#39;Jerry&#39;&lt;/b&gt;".
Proof. reflexivity. Qed.

Example email_accepted : EMAIL_REGEX_test (lit "test@test.com") = true.
Proof. reflexivity. Qed.

Example email_short_tld : EMAIL_REGEX_test (lit "test@test.c") = false.
Proof. reflexivity. Qed.

Example email_two_ats : EMAIL_REGEX_test (lit "a@b@test.com") = false.
Proof. reflexivity. Qed.

Example email_with_space : EMAIL_REGEX_test (lit "te st@test.com") = false.
Proof. reflexivity. Qed.

Example clientIp_forwarded :
  clientIp {| method := lit "POST"; origin := None;
              forwardedFor := Some (lit " 203.0.113.7 , 10.0.0.1");
              remoteAddress := Some (lit "10.0.0.9");
              multipart := ParseError [] [] |}
  = lit "203.0.113.7".
Proof. reflexivity. Qed.

Example clientIp_unknown :
  clientIp {| method := lit "POST"; origin := None; forwardedFor := None;
              remoteAddress := None; multipart := ParseError [] [] |}
  = lit "unknown".
Proof. reflexivity. Qed.

Example commaTags_sample :
  commaTags (lit " vip, ,urgent,") = [lit "vip"; lit "urgent"].
Proof. reflexivity. Qed.

(** ** Escaping *)

Lemma replaceAll_app c r a b :
  replaceAll c r (a ++ b) = replaceAll c r a ++ replaceAll c r b.
Proof. unfold replaceAll. apply flat_map_app. Qed.


Lemma escapePasses_app a b :
  escapePasses (a ++ b) = escapePasses a ++ escapePasses b.
Proof. unfold escapePasses. now rewrite !replaceAll_app. Qed.

Lemma escapePasses_char x : escapePasses [x] = escapeChar x.
Proof.
  unfold escapePasses, escapeChar.
  destruct (N.eqb_spec x c_amp) as [->|Hamp]; [reflexivity|].
  destruct (N.eqb_spec x c_lt) as [->|Hlt]; [reflexivity|].
  destruct (N.eqb_spec x c_gt) as [->|Hgt]; [reflexivity|].
  destruct (N.eqb_spec x c_dq) as [->|Hdq]; [reflexivity|].
  destruct (N.eqb_spec x c_sq) as [->|Hsq]; [reflexivity|].
  unfold replaceAll; cbn.
  apply N.eqb_neq in Hamp, Hlt, Hgt, Hdq, Hsq.
  rewrite Hamp; cbn. rewrite Hlt; cbn. rewrite Hgt; cbn.
  rewrite Hdq; cbn. now rewrite Hsq.
Qed.

(** The sequential passes amount to a character-wise substitution: the
    ampersands introduced by the later passes are never rescanned. *)
Lemma escapeHtml_flat_map s : escapeHtml s = flat_map escapeChar s.
Proof.
  unfold escapeHtml. destruct s as [|x t]; [reflexivity|].
  cbn [truthy_str negb].
  generalize (x :: t) as l. clear x t.
  induction l as [|x t IH]; [reflexivity|].
  change (x :: t) with ([x] ++ t).
  rewrite escapePasses_app, escapePasses_char, IH. reflexivity.
Qed.

Lemma escapeChar_no_markup x c : In c (escapeChar x) -> is_markup c = false.
Proof.
  unfold escapeChar.
  destruct (N.eqb_spec x c_amp); [cbn; intuition (subst; reflexivity)|].
  destruct (N.eqb_spec x c_lt) as [|Hlt]; [cbn; intuition (subst; reflexivity)|].
  destruct (N.eqb_spec x c_gt) as [|Hgt]; [cbn; intuition (subst; reflexivity)|].
  destruct (N.eqb_spec x c_dq) as [|Hdq]; [cbn; intuition (subst; reflexivity)|].
  destruct (N.eqb_spec x c_sq) as [|Hsq]; [cbn; intuition (subst; reflexivity)|].
  intros [<-|[]]. unfold is_markup.
  apply N.eqb_neq in Hlt, Hgt, Hdq, Hsq. now rewrite Hlt, Hgt, Hdq, Hsq.
Qed.

(** No character that opens markup or closes an attribute survives. *)
Lemma escapeHtml_no_markup s c : In c (escapeHtml s) -> is_markup c = false.
Proof.
  rewrite escapeHtml_flat_map, in_flat_map.
  intros (x & _ & Hc). eapply escapeChar_no_markup; eauto.
Qed.

Lemma escapeChar_plain x : is_special x = false -> escapeChar x = [x].
Proof.
  unfold is_special, escapeChar. intros H.
  repeat (apply orb_false_iff in H; destruct H as [H ?]).
  now repeat match goal with E : (_ =? _)%N = false |- _ => rewrite E; clear E end.
Qed.

Lemma escapeChar_length x :
  (if is_special x then 4 <= length (escapeChar x) else length (escapeChar x) = 1)%nat.
Proof.
  unfold is_special, escapeChar.
  destruct (N.eqb_spec x c_amp); [cbn; lia|].
  destruct (N.eqb_spec x c_lt); [cbn; lia|].
  destruct (N.eqb_spec x c_gt); [cbn; lia|].
  destruct (N.eqb_spec x c_dq); [cbn; lia|].
  destruct (N.eqb_spec x c_sq); [cbn; lia|].
  reflexivity.
Qed.

Lemma escapeHtml_plain s :
  forallb (fun c => negb (is_special c)) s = true -> escapeHtml s = s.
Proof.
  rewrite escapeHtml_flat_map.
  induction s as [|x t IH]; [reflexivity|]. cbn [forallb flat_map].
  intros [Hx Ht]%andb_true_iff. apply negb_true_iff in Hx.
  now rewrite escapeChar_plain, IH.
Qed.

Lemma escapeHtml_length s : (length s <= length (escapeHtml s))%nat.
Proof.
  rewrite escapeHtml_flat_map.
  induction s as [|x t IH]; [reflexivity|]. cbn [flat_map].
  rewrite length_app. cbn [length].
  pose proof (escapeChar_length x). destruct (is_special x); lia.
Qed.

Lemma escapeHtml_grows s :
  forallb (fun c => negb (is_special c)) s = false ->
  (length s < length (escapeHtml s))%nat.
Proof.
  rewrite escapeHtml_flat_map.
  induction s as [|x t IH]; [discriminate|]. cbn [forallb flat_map].
  rewrite length_app. cbn [length].
  pose proof (escapeChar_length x) as Hx.
  rewrite <- escapeHtml_flat_map in *.
  pose proof (escapeHtml_length t).
  destruct (is_special x); cbn [negb andb]; [lia|].
  intros Ht. specialize (IH Ht). lia.
Qed.

(** Every special character yields an entity, and every entity starts
    with an ampersand. *)
Lemma escapeHtml_keeps_special s :
  forallb (fun c => negb (is_special c)) s = false ->
  forallb (fun c => negb (is_special c)) (escapeHtml s) = false.
Proof.
  rewrite escapeHtml_flat_map.
  induction s as [|x t IH]; [discriminate|]. cbn [forallb flat_map].
  rewrite forallb_app.
  destruct (is_special x) eqn:Hx; cbn [negb andb].
  - intros _. apply andb_false_iff. left.
    unfold is_special, escapeChar in *.
    destruct (N.eqb_spec x c_amp); [reflexivity|].
    destruct (N.eqb_spec x c_lt); [reflexivity|].
    destruct (N.eqb_spec x c_gt); [reflexivity|].
    destruct (N.eqb_spec x c_dq); [reflexivity|].
    destruct (N.eqb_spec x c_sq); [reflexivity|discriminate].
  - intros Ht. apply andb_false_iff. right. auto.
Qed.

(** On a string without markup characters, escaping rewrites the
    ampersands only. *)
Lemma escapeHtml_amp_only s :
  (forall c, In c s -> is_markup c = false) ->
  escapeHtml s = replaceAll c_amp (lit "&amp;") s.
Proof.
  rewrite escapeHtml_flat_map. unfold replaceAll.
  induction s as [|x t IH]; [reflexivity|]. intros H. cbn [flat_map].
  rewrite IH by (intros; apply H; now right). f_equal.
  specialize (H x (or_introl eq_refl)). unfold is_markup in H.
  repeat (apply orb_false_iff in H; destruct H as [H ?]).
  unfold escapeChar.
  now repeat match goal with E : (_ =? _)%N = false |- _ => rewrite E; clear E end.
Qed.


Lemma is_prefix_entity p c rest :
  c <> c_amp -> hd_error p = Some c_amp -> is_prefix p (c :: rest) = false.
Proof.
  intros Hc Hp. destruct p as [|a p']; [discriminate|].
  injection Hp as ->. cbn [is_prefix].
  destruct (N.eqb_spec c_amp c) as [<-|_]; [now destruct Hc|reflexivity].
Qed.

Lemma decode_escapeChar c rest :
  decodeFrom 0 (escapeChar c ++ rest) = c :: decodeFrom 0 rest.
Proof.
  unfold escapeChar.
  destruct (N.eqb_spec c c_amp) as [->|Hamp]; [reflexivity|].
  destruct (N.eqb_spec c c_lt) as [->|Hlt]; [reflexivity|].
  destruct (N.eqb_spec c c_gt) as [->|Hgt]; [reflexivity|].
  destruct (N.eqb_spec c c_dq) as [->|Hdq]; [reflexivity|].
  destruct (N.eqb_spec c c_sq) as [->|Hsq]; [reflexivity|].
  cbn [app decodeFrom].
  now rewrite !is_prefix_entity by (assumption || reflexivity).
Qed.

(** Decoding the entities once gives back what was escaped. *)
Lemma decode_escapeHtml s : decodeEntities (escapeHtml s) = s.
Proof.
  unfold decodeEntities. rewrite escapeHtml_flat_map.
  induction s as [|c t IH]; [reflexivity|]. cbn [flat_map].
  now rewrite decode_escapeChar, IH.
Qed.

(** C8, as stated, fails: escaping the escaped probe string escapes the
    ampersand of every entity once more, and a reader that decodes the
    result sees the entities, not the five characters. *)
Lemma escapeHtml_probe_double_escaped :
  escapeHtml probe = lit "&lt;&gt;&amp;&quot;&#39;" /\
  escapeHtml (escapeHtml probe)
    = lit "&amp;lt;&amp;gt;&amp;amp;&amp;quot;&amp;#39;" /\
  escapeHtml (escapeHtml probe) <> escapeHtml probe /\
  decodeEntities (escapeHtml probe) = probe /\
  decodeEntities (escapeHtml (escapeHtml probe)) <> probe.
Proof. repeat split; try reflexivity; discriminate. Qed.

(** C8, amended: [escapeHtml] is not idempotent.  A second application
    rewrites exactly the ampersands of the first output, so every entity
    [&x;] becomes [&amp;x;]; the second pass changes nothing exactly when
    the input holds none of the five special characters.  What holds for
    every input is the round trip: decoding the entities of the output
    gives back the input, so a text escaped twice has to be decoded
    twice; and no output holds a raw angle bracket or quote. *)
Theorem escapeHtml_twice (s : jsstring) :
  escapeHtml (escapeHtml s) = replaceAll c_amp (lit "&amp;") (escapeHtml s) /\
  (escapeHtml (escapeHtml s) = escapeHtml s <->
   forallb (fun c => negb (is_special c)) s = true) /\
  decodeEntities (escapeHtml s) = s /\
  decodeEntities (escapeHtml (escapeHtml s)) = escapeHtml s /\
  (forall c, In c (escapeHtml (escapeHtml s)) -> is_markup c = false).
Proof.
  split; [|split; [|split; [|split]]].
  - apply escapeHtml_amp_only, escapeHtml_no_markup.
  - split.
    + intros Heq.
      destruct (forallb (fun c => negb (is_special c)) s) eqn:Hs; [reflexivity|].
      apply escapeHtml_keeps_special, escapeHtml_grows in Hs.
      rewrite Heq in Hs. lia.
    + intros Hs. now rewrite !(escapeHtml_plain s Hs).
  - apply decode_escapeHtml.
  - apply decode_escapeHtml.
  - apply escapeHtml_no_markup.
Qed.

(** ** Ticket body rendering *)

Lemma fold_left_append {A} (f : A -> jsstring) (l : list A) (init : jsstring) :
  fold_left (fun html x => html ++ f x) l init = init ++ concat (map f l).
Proof.
  revert init. induction l as [|x t IH]; intros init; cbn.
  - now rewrite app_nil_r.
  - now rewrite IH, app_assoc.
Qed.

Lemma in_dataFields reserved (fields : Fields) key value :
  In (key, Some value) fields ->
  includes reserved key = false ->
  trim value <> [] ->
  In (key, value) (dataFields reserved fields).
Proof.
  intros Hin Hres Htrim. unfold dataFields.
  apply list_elem_of_In, list_elem_of_omap.
  exists (key, Some value). split; [now apply list_elem_of_In|].
  cbn. rewrite Hres. destruct value as [|c v]; [now destruct Htrim|].
  cbn [truthy_str negb andb]. unfold str_eqb.
  rewrite bool_decide_eq_false_2 by assumption. reflexivity.
Qed.

Lemma renderField_shape kv :
  exists a b c,
    Hardened.renderField kv
    = a ++ escapeHtml (formatFieldName kv.1) ++ b ++ escapeHtml (trim kv.2) ++ c.
Proof.
  unfold Hardened.renderField.
  destruct (_ || _); unfold longBlock, shortRow;
    eexists _, _, _; reflexivity.
Qed.

(** In the hardened renderer every rendered field contributes its label
    and its trimmed value in escaped form, each special character
    replaced by its entity, and the interpolated text holds no raw angle
    bracket or quote. *)
Theorem hardened_body_escaped (formType : jsstring) (fields : Fields)
    (key value : jsstring) :
  In (key, Some value) fields ->
  includes Hardened.RESERVED_FIELDS key = false ->
  trim value <> [] ->
  exists pre mid post,
    Hardened.generateGenericTicketBody formType fields
    = pre ++ escapeHtml (formatFieldName key) ++ mid
          ++ escapeHtml (trim value) ++ post
    /\ escapeHtml (trim value) = flat_map escapeChar (trim value)
    /\ (forall c, In c (escapeHtml (formatFieldName key)) -> is_markup c = false)
    /\ (forall c, In c (escapeHtml (trim value)) -> is_markup c = false).
Proof.
  intros Hin Hres Htrim.
  pose proof (in_dataFields _ _ _ _ Hin Hres Htrim) as Hd.
  unfold Hardened.generateGenericTicketBody.
  destruct (dataFields Hardened.RESERVED_FIELDS fields) as [|d ds] eqn:Hdata;
    [destruct Hd|].
  cbn [length Nat.eqb]. rewrite <- Hdata in *. clear Hdata d ds.
  rewrite fold_left_append.
  apply in_split in Hd as (l1 & l2 & ->).
  rewrite map_app, concat_app. cbn [map concat].
  destruct (renderField_shape (key, value)) as (a & b & c & ->). cbn [fst snd].
  exists (html_open ++ concat (map Hardened.renderField l1) ++ a), b,
    (c ++ concat (map Hardened.renderField l2) ++ html_close).
  split; [now rewrite <- !app_assoc|].
  split; [apply escapeHtml_flat_map|].
  split; apply escapeHtml_no_markup.
Qed.

Lemma hardened_body_escaped_witness :
  exists pre mid post,
    Hardened.generateGenericTicketBody (lit "contact-form")
      [(lit "message", Some (lit "<b>Tom & Jerry</b>"))]
    = pre ++ escapeHtml (formatFieldName (lit "message")) ++ mid
          ++ escapeHtml (trim (lit "<b>Tom & Jerry</b>")) ++ post.
Proof.
  destruct (hardened_body_escaped (lit "contact-form")
              [(lit "message", Some (lit "<b>Tom & Jerry</b>"))]
              (lit "message") (lit "<b>Tom & Jerry</b>"))
    as (pre & mid & post & H & _).
  - left; reflexivity.
  - reflexivity.
  - vm_compute; discriminate.
  - exists pre, mid, post. exact H.
Defined.


Lemma generic_renderField_shape kv :
  exists a b c,
    Generic.renderField kv = a ++ formatFieldName kv.1 ++ b ++ trim kv.2 ++ c.
Proof.
  unfold Generic.renderField.
  destruct (_ || _); unfold longBlock, shortRow;
    eexists _, _, _; reflexivity.
Qed.

(** In the form-agnostic renderer every rendered field contributes its
    label and its trimmed value as they are, whatever characters they
    hold. *)
Lemma generic_body_raw (formType : jsstring) (fields : Fields)
    (key value : jsstring) :
  In (key, Some value) fields ->
  includes Generic.RESERVED_FIELDS key = false ->
  trim value <> [] ->
  exists pre mid post,
    Generic.generateGenericTicketBody formType fields
    = pre ++ formatFieldName key ++ mid ++ trim value ++ post.
Proof.
  intros Hin Hres Htrim.
  pose proof (in_dataFields _ _ _ _ Hin Hres Htrim) as Hd.
  unfold Generic.generateGenericTicketBody.
  destruct (dataFields Generic.RESERVED_FIELDS fields) as [|d ds] eqn:Hdata;
    [destruct Hd|].
  cbn [length Nat.eqb]. rewrite <- Hdata in *. clear Hdata d ds.
  rewrite fold_left_append.
  apply in_split in Hd as (l1 & l2 & ->).
  rewrite map_app, concat_app. cbn [map concat].
  destruct (generic_renderField_shape (key, value)) as (a & b & c & ->). cbn [fst snd].
  exists (html_open ++ concat (map Generic.renderField l1) ++ a), b,
    (c ++ concat (map Generic.renderField l2) ++ html_close).
  now rewrite <- !app_assoc.
Qed.

(** C1 on the form-agnostic renderer: the submitted markup reaches the
    ticket body as it was typed, and its escaped form does not occur. *)
Theorem generic_body_unescaped :
  is_infix (lit "<script>alert('x')</script>")
    (Generic.generateGenericTicketBody (lit "contact-form") xss_fields) = true /\
  is_infix (lit "&lt;script&gt;")
    (Generic.generateGenericTicketBody (lit "contact-form") xss_fields) = false /\
  is_infix (lit "&lt;script&gt;alert(&#39;x&#39;)&lt;/script&gt;")
    (Hardened.generateGenericTicketBody (lit "contact-form") xss_fields) = true /\
  is_infix (lit "<script>")
    (Hardened.generateGenericTicketBody (lit "contact-form") xss_fields) = false.
Proof. vm_compute. repeat split. Qed.

(** ** Rate limiting *)

Lemma checkRateLimit_open (now : Z) (ip : jsstring) (m : gmap jsstring RateRecord) :
  (m !! ip = None \/
   exists r, m !! ip = Some r /\ (RATE_WINDOW < now - start r)%Z) ->
  checkRateLimit now ip m = (true, <[ip := {| start := now; count := 1 |}]> m).
Proof.
  unfold checkRateLimit. intros [->|(r & -> & Hr)]; [reflexivity|].
  destruct (Z.gtb_spec (now - start r) RATE_WINDOW); [reflexivity|lia].
Qed.

Lemma checkRateLimit_within (now : Z) (ip : jsstring) (m : gmap jsstring RateRecord) r :
  m !! ip = Some r -> (now - start r <= RATE_WINDOW)%Z ->
  checkRateLimit now ip m
  = ((count r + 1 <=? RATE_LIMIT)%Z,
     <[ip := {| start := start r; count := (count r + 1)%Z |}]> m).
Proof.
  unfold checkRateLimit. intros -> Hr.
  destruct (Z.gtb_spec (now - start r) RATE_WINDOW); [lia|reflexivity].
Qed.

Lemma checkRateLimit_other (now : Z) (ip ip' : jsstring) (m : gmap jsstring RateRecord) :
  ip' <> ip -> (checkRateLimit now ip m).2 !! ip' = m !! ip'.
Proof.
  intros Hne. unfold checkRateLimit.
  destruct (m !! ip) as [r|]; [destruct (_ >? _)%Z|]; cbn;
    now rewrite lookup_insert_ne.
Qed.

(** Inside a window every request counts, and the verdict is whether the
    counter is still within the limit. *)
Lemma serve_within (ip : jsstring) (later : list Z) :
  forall (m : gmap jsstring RateRecord) r,
    m !! ip = Some r ->
    Forall (fun t => (t - start r <= RATE_WINDOW)%Z) later ->
    (serve ip later m).1
    = map (fun i => (count r + 1 + Z.of_nat i <=? RATE_LIMIT)%Z)
        (seq 0 (length later)) /\
    (serve ip later m).2 !! ip
    = Some {| start := start r; count := (count r + Z.of_nat (length later))%Z |}.
Proof.
  induction later as [|now rest IH]; intros m r Hm Hin.
  - cbn. rewrite Hm, Z.add_0_r. now destruct r.
  - apply Forall_cons in Hin as [Hnow Hrest].
    cbn [serve]. rewrite (checkRateLimit_within _ _ _ _ Hm Hnow).
    set (r' := {| start := start r; count := (count r + 1)%Z |}).
    specialize (IH (<[ip := r']> m) r' (lookup_insert_eq _ _ _) Hrest).
    destruct (serve ip rest (<[ip := r']> m)) as [verdicts m'].
    cbn [fst snd] in *. destruct IH as [-> ->]. split.
    + cbn [length seq map]. f_equal; [f_equal; lia|].
      rewrite <- seq_shift, map_map. apply map_ext. intros i. cbn. f_equal. lia.
    + cbn [length]. f_equal. subst r'. cbn. f_equal. lia.
Qed.

(** C2, as stated, fails: seven requests of one client, all accepted; the
    last one is the sixth to arrive within the 60 seconds before it. *)
Lemma rolling_window_passes_sixth :
  (serve (lit "203.0.113.7") [0; 59000; 59001; 59002; 59003; 60001; 60002]%Z ∅).1
  = [true; true; true; true; true; true; true] /\
  recent 60002 [59000; 59001; 59002; 59003; 60001]%Z = 5%nat.
Proof. split; vm_compute; reflexivity. Qed.

(** ** The hardened handler: checks before the body is parsed *)

Section HardenedChecks.

Context {World : Type}.
Variable fetch : World -> HttpRequest -> Result HttpResponse * World.
Variable JSON_parse : jsstring -> Result json.
Variable parseInt : jsstring -> option Z.
Variable deletable : jsstring -> bool.

Local Abbreviation handler := (Hardened.handler fetch JSON_parse parseInt deletable).

(** Whatever the exit, the headers are those set by [sendCORS]. *)
Lemma handler_headers env now req (st : State World) :
  headers (handler env now req st).1
  = headers (Hardened.sendCORS env req newResponse).
Proof.
  unfold handler, Hardened.handler, parseMultipart.
  repeat match goal with
         | |- context [if ?b then _ else _] => destruct b
         | |- context [let (_, _) := ?p in _] => destruct p
         | |- context [match ?p with ParseError _ _ => _ | _ => _ end] => destruct p
         | |- context [match ?p with Ok _ => _ | Err _ => _ end] => destruct p
         end; try reflexivity.
Qed.

Lemma sendCORS_foreign env req :
  inAllowList env req = false ->
  headers (Hardened.sendCORS env req newResponse)
    !! lit "Access-Control-Allow-Origin" = None.
Proof.
  unfold inAllowList, Hardened.sendCORS. intros H.
  destruct (origin req) as [o|]; [rewrite H, andb_false_r|]; cbn [setHeader headers];
    rewrite !lookup_insert_ne by (vm_compute; discriminate);
    apply lookup_empty.
Qed.

(** C3, amended: a request whose origin is not in the allow-list never
    gets an [Access-Control-Allow-Origin] header; a POST is answered 403
    and leaves the state untouched, while a preflight is answered 204 and
    any other method 405, since the method is examined first. *)
Theorem foreign_origin_rejected env now req (st : State World) :
  inAllowList env req = false ->
  headers (handler env now req st).1 !! lit "Access-Control-Allow-Origin" = None /\
  (method req = lit "POST" ->
   status (handler env now req st).1 = Some 403%Z /\
   body (handler env now req st).1 = Some (error_body "Forbidden") /\
   (handler env now req st).2 = st) /\
  (method req = lit "OPTIONS" ->
   status (handler env now req st).1 = Some 204%Z) /\
  (method req <> lit "OPTIONS" -> method req <> lit "POST" ->
   status (handler env now req st).1 = Some 405%Z).
Proof.
  intros Hforeign. split; [|split; [|split]].
  - rewrite handler_headers. now apply sendCORS_foreign.
  - intros Hm. unfold handler, Hardened.handler, parseMultipart. rewrite Hm.
    change (str_eqb (lit "POST") (lit "OPTIONS")) with false.
    change (str_eqb (lit "POST") (lit "POST")) with true.
    unfold inAllowList in Hforeign. cbn [negb].
    destruct (origin req); rewrite ?Hforeign, ?andb_false_r; cbn; auto.
  - intros Hm. unfold handler, Hardened.handler, parseMultipart. rewrite Hm. reflexivity.
  - intros Hopt Hpost. unfold handler, Hardened.handler, str_eqb.
    rewrite !bool_decide_eq_false_2 by assumption. reflexivity.
Qed.

End HardenedChecks.

Lemma foreign_origin_rejected_witness :
  status (Hardened.handler offline (fun _ => Err []) (fun _ => None) (fun _ => true)
            demo_env 0
            {| method := lit "POST"; origin := Some (lit "https://evil.example");
               forwardedFor := None; remoteAddress := None;
               multipart := ParseError [] [] |} idle).1 = Some 403%Z.
Proof.
  refine (proj1 (proj1 (proj2 (foreign_origin_rejected offline (fun _ => Err [])
                          (fun _ => None) (fun _ => true) demo_env 0 _ idle _)) _)).
  - vm_compute; reflexivity.
  - reflexivity.
Defined.

(** C3, as stated, fails on a preflight: the foreign origin is answered
    204, not 403. *)
Lemma preflight_foreign_not_forbidden :
  inAllowList demo_env preflight_foreign = false /\
  status (Hardened.handler offline (fun _ => Err []) (fun _ => None) (fun _ => true)
            demo_env 0 preflight_foreign idle).1 = Some 204%Z.
Proof. split; vm_compute; reflexivity. Qed.

(** ** The hardened handler: the body of the [try] block *)

Section HardenedBody.

Context {World : Type}.
Variable fetch : World -> HttpRequest -> Result HttpResponse * World.
Variable JSON_parse : jsstring -> Result json.
Variable parseInt : jsstring -> option Z.

Local Abbreviation process := (Hardened.process fetch JSON_parse parseInt).
Local Abbreviation createTicket := (Hardened.createTicket fetch JSON_parse parseInt).
Local Abbreviation uploadFiles := (Hardened.uploadFiles fetch).
Local Abbreviation uploadStep := (Hardened.uploadStep fetch).
Local Abbreviation captcha := (Hardened.captcha fetch).

(** The verification step sends at most one request, to the
    verification service, and either lets the submission through or
    answers 403. *)
Lemma captcha_inv env fields (n : Net World) :
  exists r n',
    captcha env fields n = (r, n') /\
    ((r = None /\
      (sent n' = sent n \/
       exists req, url req = turnstileUrl /\ sent n' = sent n ++ [req])) \/
     (r = Some (403%Z, error_body "Verification failed. Please try again.") /\
      exists req, url req = turnstileUrl /\ sent n' = sent n ++ [req])).
Proof.
  unfold Hardened.captcha, post.
  destruct (TURNSTILE_SECRET_KEY env) as [secret|]; [|eauto 7].
  destruct (get fields (lit "turnstileToken")) as [token|]; [|eauto 7].
  destruct (truthy_str secret && truthy_str token); [|eauto 7].
  match goal with |- context [fetch ?w ?r] => destruct (fetch w r) as [[resp|m] w'] end;
    [|do 2 eexists; split; [reflexivity|]; left; split; [reflexivity|];
      right; eexists; split; [|cbn [sent]; reflexivity]; reflexivity].
  destruct (resp_json resp) as [v|m]; cbn [bind];
    [|do 2 eexists; split; [reflexivity|]; left; split; [reflexivity|];
      right; eexists; split; [|cbn [sent]; reflexivity]; reflexivity].
  destruct (get_prop (Some v) "success") as [[s|]|m];
    [destruct (truthy_json s)|..];
    do 2 eexists; (split; [reflexivity|]);
    first [ left; split; [reflexivity|];
            right; eexists; split; [|cbn [sent]; reflexivity]; reflexivity
          | right; split; [reflexivity|];
            eexists; split; [|cbn [sent]; reflexivity]; reflexivity ].
Qed.

(** How the [try] block ends: an early answer without any ticketing
    request, or the upload loop followed by the ticket call. *)
Lemma process_inv env fields files (n : Net World) :
  (exists code b,
      process env fields files n = (Ok (code, b), n) /\
      (code = 500 \/ code = 400)%Z) \/
  (exists b n',
      process env fields files n = (Ok (403%Z, b), n') /\
      exists req, url req = turnstileUrl /\ sent n' = sent n ++ [req]) \/
  (exists subdomain username apiKey formType email n1,
      configured env = true /\
      GORGIAS_SUBDOMAIN env = Some subdomain /\
      GORGIAS_USERNAME env = Some username /\
      GORGIAS_API_KEY env = Some apiKey /\
      get fields (lit "formType") = Some formType /\
      get fields (lit "email") = Some email /\
      missingRequired fields = false /\
      captcha env (sanitizeSubject fields) n = (None, n1) /\
      process env fields files n
      = let '(uploadedFiles, rejectedFiles, n2) :=
          uploadFiles subdomain username apiKey files n1 in
        createTicket env subdomain username apiKey (sanitizeSubject fields)
          formType email uploadedFiles rejectedFiles n2).
Proof.
  unfold Hardened.process, configured, missingRequired.
  destruct (GORGIAS_SUBDOMAIN env) as [subdomain|]; [|left; eauto].
  destruct (GORGIAS_USERNAME env) as [username|]; [|left; eauto].
  destruct (GORGIAS_API_KEY env) as [apiKey|]; [|left; eauto].
  cbn [truthy].
  destruct (truthy_str subdomain && truthy_str username && truthy_str apiKey);
    cbn [negb]; [|left; eauto].
  destruct (get fields (lit "formType")) as [formType|]; [|left; eauto].
  destruct (get fields (lit "email")) as [email|]; [|left; eauto].
  cbn [truthy].
  destruct (truthy_str formType), (truthy_str email); cbn [negb andb orb];
    try (left; eauto; fail).
  destruct (includes Hardened.ALLOWED_FORM_TYPES formType); cbn [negb]; [|left; eauto].
  destruct (EMAIL_REGEX_test email); cbn [negb]; [|left; eauto].
  destruct (tooLong fields); [left; eauto|].
  destruct (captcha_inv env (sanitizeSubject fields) n)
    as (r & n' & Hc & [[-> Hs]|[-> Hs]]); rewrite Hc.
  - right; right. exists subdomain, username, apiKey, formType, email, n'.
    repeat split; reflexivity.
  - right; left. eauto.
Qed.

Lemma fold_left_nested {A B C} (f : A -> C -> A) (g : B -> list C) (l : list B) :
  forall a,
    fold_left (fun acc e => fold_left f (g e) acc) l a
    = fold_left f (flat_map g l) a.
Proof.
  induction l as [|e l IH]; intros a; cbn; [reflexivity|].
  now rewrite fold_left_app, IH.
Qed.

(** The nested loops visit every parsed file once, in order. *)
Lemma uploadFiles_flat subdomain username apiKey files (n : Net World) :
  uploadFiles subdomain username apiKey files n
  = fold_left (uploadStep subdomain username apiKey) (allFiles files) ([], [], n).
Proof. unfold Hardened.uploadFiles, allFiles. apply fold_left_nested. Qed.

Lemma uploadAttachment_sent failure subdomain username apiKey file (n : Net World) :
  sent (uploadAttachment fetch failure subdomain username apiKey file n).2
  = sent n ++ [uploadRequest subdomain username apiKey file].
Proof.
  unfold uploadAttachment, post.
  destruct (fetch _ _) as [[res|m] w]; [|reflexivity].
  destruct (negb (resp_ok res)); [destruct (resp_text res)|destruct (resp_json res)];
    reflexivity.
Qed.

(** One file, one entry: the step extends exactly one of the two lists,
    and sends exactly one request. *)
Lemma uploadStep_inv subdomain username apiKey up rej (n : Net World) file :
  exists up' rej' n',
    uploadStep subdomain username apiKey (up, rej, n) file = (up', rej', n') /\
    sent n' = sent n ++ [uploadRequest subdomain username apiKey file] /\
    ((exists a, up' = up ++ [a] /\ rej' = rej /\
        is_Ok (Hardened.uploadAttachmentToGorgias fetch subdomain username apiKey file n).1
        = true) \/
     (up' = up /\
      rej' = rej ++ [{| filename := originalFilename file; reason := lit "Upload failed" |}] /\
      is_Ok (Hardened.uploadAttachmentToGorgias fetch subdomain username apiKey file n).1
      = false)).
Proof.
  unfold Hardened.uploadStep.
  pose proof (uploadAttachment_sent
                (fun status _ => lit "Upload failed: " ++ Z_to_str status)
                subdomain username apiKey file n) as Hs.
  fold (Hardened.uploadAttachmentToGorgias fetch) in Hs.
  destruct (Hardened.uploadAttachmentToGorgias fetch subdomain username apiKey file n)
    as [[a|m] n']; cbn [fst snd is_Ok] in *; eauto 10.
Qed.

(** The file accounting of the loop: whatever the upstream does, the two
    lists grow by one entry per file and every file is attempted. *)
Lemma upload_loop_accounting subdomain username apiKey (l : list File) :
  forall up rej (n : Net World),
  exists up' rej' n',
    fold_left (uploadStep subdomain username apiKey) l (up, rej, n) = (up', rej', n') /\
    (length up' + length rej' = length up + length rej + length l)%nat /\
    sent n' = sent n ++ map (uploadRequest subdomain username apiKey) l.
Proof.
  induction l as [|file l IH]; intros up rej n; cbn [fold_left].
  - exists up, rej, n. cbn [length map]. rewrite app_nil_r.
    split; [reflexivity|]. split; [lia|reflexivity].
  - destruct (uploadStep_inv subdomain username apiKey up rej n file)
      as (up1 & rej1 & n1 & -> & Hs & Hcase).
    destruct (IH up1 rej1 n1) as (up' & rej' & n' & -> & Hlen & Hs').
    exists up', rej', n'. split; [reflexivity|]. split.
    + destruct Hcase as [(a & -> & -> & _)|(-> & -> & _)];
        rewrite ?length_app in Hlen; cbn [length] in *; lia.
    + rewrite Hs', Hs, <- app_assoc. reflexivity.
Qed.

(** The loop when the failing files are known: the rejected list names
    them in order, and the uploaded list holds one descriptor for each of
    the others. *)
Lemma upload_loop_partial subdomain username apiKey (fails : File -> bool) :
  (forall file (n : Net World),
      is_Ok (Hardened.uploadAttachmentToGorgias fetch subdomain username apiKey file n).1
      = negb (fails file)) ->
  forall (l : list File) up rej (n : Net World),
  exists up' rej' n',
    fold_left (uploadStep subdomain username apiKey) l (up, rej, n) = (up', rej', n') /\
    length up' = (length up + length (List.filter (fun f => negb (fails f)) l))%nat /\
    rej' = rej ++ map (fun f => {| filename := originalFilename f;
                                   reason := lit "Upload failed" |})
                    (List.filter fails l).
Proof.
  intros Hfails l.
  induction l as [|file l IH]; intros up rej n; cbn [fold_left List.filter].
  - exists up, rej, n. cbn [length map]. rewrite app_nil_r.
    split; [reflexivity|]. split; [lia|reflexivity].
  - destruct (uploadStep_inv subdomain username apiKey up rej n file)
      as (up1 & rej1 & n1 & -> & _ & Hcase).
    destruct (IH up1 rej1 n1) as (up' & rej' & n' & -> & Hlen & Hrej).
    exists up', rej', n'. split; [reflexivity|]. subst rej'.
    rewrite Hfails in Hcase.
    destruct Hcase as [(a & -> & -> & Hf)|(-> & -> & Hf)];
      destruct (fails file); try discriminate; cbn [negb length map] in *.
    + split; [rewrite length_app in Hlen; cbn in Hlen; lia|reflexivity].
    + split; [lia|now rewrite <- app_assoc].
Qed.

(** How the ticket call ends.  The request goes out whatever the upload
    loop produced; a non-success status gives the fixed 502 body, a
    success gives the counts and the ticket id and nothing else. *)
Lemma createTicket_inv env subdomain username apiKey fields formType email
    up rej (n : Net World) :
  exists r n' req,
    createTicket env subdomain username apiKey fields formType email up rej n = (r, n') /\
    url req = ticketsUrl (lit "https://" ++ subdomain ++ lit ".gorgias.com/api") /\
    sent n' = sent n ++ [req] /\
    match fetch (world n) req with
    | (Err m, _) => r = Err m
    | (Ok resp, _) =>
        if resp_ok resp then
          r = (ticketData <- resp_json resp ;;
               id <- get_prop (Some ticketData) "id" ;;
               Ok (200%Z,
                   obj [(lit "success", Some (JBool true));
                        (lit "ticketId", id);
                        (lit "filesUploaded", Some (JNum (Z.of_nat (length up))));
                        (lit "filesRejected", Some (JNum (Z.of_nat (length rej))))]))
        else
          match resp_text resp with
          | Ok _ => r = Ok (502%Z, badGateway)
          | Err m => r = Err m
          end
    end.
Proof.
  unfold Hardened.createTicket, post.
  match goal with |- context [fetch (world n) ?q] => set (req := q) end.
  destruct (fetch (world n) req) as [[resp|m] w] eqn:Hf.
  - destruct (resp_ok resp) eqn:Hok; cbn [negb];
      [|destruct (resp_text resp) eqn:Ht];
      (eexists _, _, req; split; [reflexivity|]; split; [reflexivity|];
       split; [reflexivity|]; rewrite Hf, ?Hok, ?Ht; reflexivity).
  - eexists _, _, req. split; [reflexivity|]. split; [reflexivity|].
    split; [reflexivity|]. rewrite Hf. reflexivity.
Qed.

End HardenedBody.

(** ** Temporary files *)

Section DiskFacts.

Variable deletable : jsstring -> bool.

Lemma cleanup_flat (files : Files) (d : gset jsstring) :
  cleanupTempFiles deletable (Some files) d
  = fold_left (tryUnlink deletable) (allFiles files) d.
Proof. unfold cleanupTempFiles, allFiles. apply fold_left_nested. Qed.

Lemma tryUnlink_elem (d : gset jsstring) (f : File) (p : jsstring) :
  p ∈ tryUnlink deletable d f
  <-> p ∈ d /\ ~ (p = filepath f /\ deletable p = true).
Proof.
  unfold tryUnlink, unlinkSync.
  destruct (bool_decide (filepath f ∈ d)) eqn:Hin;
    destruct (deletable (filepath f)) eqn:Hdel; cbn [andb].
  - rewrite elem_of_difference, elem_of_singleton. split.
    + intros [Hp Hne]. split; [exact Hp|]. intros [-> _]. now apply Hne.
    + intros [Hp Hno]. split; [exact Hp|]. intros ->. apply Hno. auto.
  - split; [|tauto]. intros Hp. split; [exact Hp|]. intros [-> Hd]. congruence.
  - apply bool_decide_eq_false in Hin. split; [|tauto].
    intros Hp. split; [exact Hp|]. intros [-> _]. now apply Hin.
  - split; [|tauto]. intros Hp. split; [exact Hp|]. intros [-> Hd]. congruence.
Qed.

(** After the cleanup loop a path is on disk exactly when it was there
    before and is not a deletable path of one of the files. *)
Lemma cleanup_elem (l : list File) :
  forall (d : gset jsstring) (p : jsstring),
    p ∈ fold_left (tryUnlink deletable) l d
    <-> p ∈ d /\ ~ (deletable p = true /\ In p (map filepath l)).
Proof.
  induction l as [|f l IH]; intros d p; cbn [fold_left map In].
  - tauto.
  - rewrite IH, tryUnlink_elem. split.
    + intros [[Hp Hf] Hl]. split; [exact Hp|].
      intros [Hd [Heq|Hin]]; [apply Hf; split; [now symmetry|exact Hd]|apply Hl; auto].
    + intros [Hp Hno]. split; [split; [exact Hp|]|].
      * intros [Heq Hd]. apply Hno. split; [exact Hd|left; now symmetry].
      * intros [Hd Hin]. apply Hno. auto.
Qed.

Lemma tempPaths_elem (files : Files) (p : jsstring) :
  p ∈ tempPaths files <-> In p (map filepath (allFiles files)).
Proof. unfold tempPaths. now rewrite elem_of_list_to_set, list_elem_of_In. Qed.

End DiskFacts.

(** ** The hardened handler: whole requests *)

Section HardenedHandler.

Context {World : Type}.
Variable fetch : World -> HttpRequest -> Result HttpResponse * World.
Variable JSON_parse : jsstring -> Result json.
Variable parseInt : jsstring -> option Z.
Variable deletable : jsstring -> bool.

Local Abbreviation handler := (Hardened.handler fetch JSON_parse parseInt deletable).
Local Abbreviation process := (Hardened.process fetch JSON_parse parseInt).
Local Abbreviation uploadFiles := (Hardened.uploadFiles fetch).

Lemma str_eqb_eq (a b : jsstring) : str_eqb a b = true <-> a = b.
Proof. unfold str_eqb. apply bool_decide_eq_true. Qed.

(** A request stopped before the body is parsed: one of the four early
    statuses, and neither the network nor the disk is touched. *)
Lemma handler_early env now req (st : State World) :
  reachesParse env now req (rateLimitMap st) = false ->
  (status (handler env now req st).1 = Some 204%Z \/
   status (handler env now req st).1 = Some 405%Z \/
   status (handler env now req st).1 = Some 403%Z \/
   status (handler env now req st).1 = Some 429%Z) /\
  net (handler env now req st).2 = net st /\
  disk (handler env now req st).2 = disk st.
Proof.
  unfold reachesParse, inAllowList, Hardened.handler, parseMultipart.
  destruct (str_eqb (method req) (lit "OPTIONS")); [intros _; cbn; auto|].
  destruct (str_eqb (method req) (lit "POST")); cbn [negb andb]; [|intros _; cbn; auto].
  destruct (origin req) as [o|]; cbn [truthy andb negb]; [|intros _; cbn; auto 6].
  destruct (truthy_str o && includes (Hardened.allowedOrigins env) o);
    cbn [negb]; [|intros _; cbn; auto 6].
  destruct (checkRateLimit now (clientIp req) (rateLimitMap st)) as [[|] m];
    cbn [fst negb]; [discriminate|intros _; cbn; auto 6].
Qed.

(** A request that gets as far as parsing: the response and the state in
    terms of the [try] block. *)
Lemma handler_reached env now req (st : State World) :
  reachesParse env now req (rateLimitMap st) = true ->
  handler env now req st
  = match multipart req with
    | ParseError _ written =>
        (send (Hardened.sendCORS env req newResponse) 500 Hardened.generic_error,
         {| rateLimitMap := (checkRateLimit now (clientIp req) (rateLimitMap st)).2;
            net := net st; disk := disk st ∪ tempPaths written |})
    | Parsed raw files =>
        (match (process env (flattenFields raw) files (net st)).1 with
         | Ok (code, b) => send (Hardened.sendCORS env req newResponse) code b
         | Err _ => send (Hardened.sendCORS env req newResponse) 500 Hardened.generic_error
         end,
         {| rateLimitMap := (checkRateLimit now (clientIp req) (rateLimitMap st)).2;
            net := (process env (flattenFields raw) files (net st)).2;
            disk := cleanupTempFiles deletable (Some files) (disk st ∪ tempPaths files) |})
    end.
Proof.
  unfold reachesParse, inAllowList, Hardened.handler, parseMultipart.
  intros H.
  apply andb_true_iff in H as [H Hrate].
  apply andb_true_iff in H as [H Hallow].
  apply andb_true_iff in H as [Hpost Htruthy].
  apply str_eqb_eq in Hpost. rewrite Hpost.
  change (str_eqb (lit "POST") (lit "OPTIONS")) with false.
  change (str_eqb (lit "POST") (lit "POST")) with true. cbn [negb].
  destruct (origin req) as [o|]; [|discriminate].
  cbn [truthy] in *. rewrite Htruthy, Hallow.
  cbn [andb negb].
  destruct (checkRateLimit now (clientIp req) (rateLimitMap st)) as [[|] m];
    [|discriminate].
  cbn [negb fst snd].
  destruct (multipart req) as [m'|raw files]; [reflexivity|].
  destruct (process env (flattenFields raw) files (net st)) as [[[code b]|m'] n'];
    reflexivity.
Qed.

(** The statuses the [try] block can answer with. *)
Lemma process_codes env fields files (n n' : Net World) code b :
  process env fields files n = (Ok (code, b), n') ->
  (code = 200 \/ code = 400 \/ code = 403 \/ code = 500 \/ code = 502)%Z.
Proof.
  destruct (process_inv fetch JSON_parse parseInt env fields files n)
    as [(c & b0 & -> & Hc)|[(b0 & n0 & -> & _)|
        (sd & us & ak & ft & em & n1 & _ & _ & _ & _ & _ & _ & _ & _ & ->)]].
  - intros [= <- _ _]. intuition.
  - intros [= <- _ _]. intuition.
  - destruct (uploadFiles sd us ak files n1) as [[up rej] n2].
    destruct (createTicket_inv fetch JSON_parse parseInt env sd us ak
                (sanitizeSubject fields) ft em up rej n2)
      as (r & n3 & q & -> & _ & _ & Hr).
    destruct (fetch (world n2) q) as [[resp|m] w]; [|now subst r].
    destruct (resp_ok resp).
    + subst r. destruct (resp_json resp) as [v|]; cbn [bind]; [|discriminate].
      destruct (get_prop (Some v) "id"); cbn [bind]; [|discriminate].
      intros [= <- _ _]. auto.
    + destruct (resp_text resp); subst r; [|discriminate].
      intros [= <- _ _]. auto 6.
Qed.

(** A submission without [formType] or [email] ends the [try] block at
    once, with no request sent. *)
Lemma process_missing env fields files (n : Net World) :
  missingRequired fields = true ->
  exists code b,
    process env fields files n = (Ok (code, b), n) /\
    (configured env = true ->
     code = 400%Z /\ b = error_body "Missing required fields").
Proof.
  unfold missingRequired, configured, Hardened.process. intros Hmiss.
  destruct (GORGIAS_SUBDOMAIN env) as [sd|]; [|do 2 eexists; split; [reflexivity|discriminate]].
  destruct (GORGIAS_USERNAME env) as [us|];
    [|do 2 eexists; split; [reflexivity|cbn; rewrite andb_false_r; discriminate]].
  destruct (GORGIAS_API_KEY env) as [ak|];
    [|do 2 eexists; split; [reflexivity|cbn; rewrite andb_false_r; discriminate]].
  cbn [truthy].
  destruct (truthy_str sd && truthy_str us && truthy_str ak); cbn [negb];
    [|do 2 eexists; split; [reflexivity|discriminate]].
  destruct (get fields (lit "formType")) as [ft|]; [|eauto].
  destruct (get fields (lit "email")) as [em|]; [|eauto].
  cbn [truthy] in Hmiss.
  destruct (truthy_str ft), (truthy_str em); try discriminate; cbn; eauto.
Qed.

(** The handler answers 429 exactly when the rate limiter refuses a POST
    from an allowed origin. *)
Lemma handler_429 env now req (st : State World) :
  status (handler env now req st).1 = Some 429%Z
  <-> rateLimited env now req (rateLimitMap st) = true.
Proof.
  destruct (reachesParse env now req (rateLimitMap st)) eqn:Hreach.
  - rewrite (handler_reached _ _ _ _ Hreach).
    assert (rateLimited env now req (rateLimitMap st) = false) as ->.
    { unfold reachesParse in Hreach. unfold rateLimited.
      apply andb_true_iff in Hreach as [-> ->]. reflexivity. }
    split; [|discriminate].
    destruct (multipart req) as [m|raw files]; [discriminate|]. cbn [fst].
    destruct (process env (flattenFields raw) files (net st)) as [[[code b]|m] n'] eqn:Hp;
      cbn [fst send status]; [|discriminate].
    apply process_codes in Hp. intros [= ->]. lia.
  - revert Hreach. unfold reachesParse, rateLimited, inAllowList, Hardened.handler, parseMultipart.
    destruct (str_eqb (method req) (lit "OPTIONS")) eqn:Hopt.
    + apply str_eqb_eq in Hopt. rewrite Hopt. intros _. cbn. split; discriminate.
    + destruct (str_eqb (method req) (lit "POST")); cbn [negb andb];
        [|intros _; cbn; split; discriminate].
      destruct (origin req) as [o|]; cbn [truthy andb negb];
        [|intros _; cbn; split; discriminate].
      destruct (truthy_str o); cbn [andb negb]; [|intros _; cbn; split; discriminate].
      destruct (includes (Hardened.allowedOrigins env) o); cbn [andb negb];
        [|intros _; cbn; split; discriminate].
      destruct (checkRateLimit now (clientIp req) (rateLimitMap st)) as [[|] m];
        cbn [fst negb]; [discriminate|]. intros _. cbn. split; reflexivity.
Qed.

(** C2, amended: the limiter counts in fixed windows.  A request of a
    client with no record, or arriving more than 60000 ms after the start
    of its window, passes, sets the counter to 1 and starts a window at
    its own arrival time, and the handler does not answer it 429.  Of the
    requests that follow within 60000 ms of that start the first four
    pass and every later one is refused; inside a window every request
    increments the counter, and a POST from an allowed origin that finds
    the counter at 5 or more is answered 429.  The records of other
    clients are left alone. *)
Theorem fixed_window_rate_limit env (now : Z) req (st : State World) :
  ((rateLimitMap st !! clientIp req = None \/
    exists r, rateLimitMap st !! clientIp req = Some r /\
              (RATE_WINDOW < now - start r)%Z) ->
   checkRateLimit now (clientIp req) (rateLimitMap st)
   = (true, <[clientIp req := {| start := now; count := 1 |}]> (rateLimitMap st)) /\
   status (handler env now req st).1 <> Some 429%Z) /\
  (forall later : list Z,
      Forall (fun t => (t - now <= RATE_WINDOW)%Z) later ->
      (serve (clientIp req) later
         (<[clientIp req := {| start := now; count := 1 |}]> (rateLimitMap st))).1
      = map (fun i => (i <? 4)%nat) (seq 0 (length later))) /\
  (forall r,
      rateLimitMap st !! clientIp req = Some r ->
      (now - start r <= RATE_WINDOW)%Z ->
      checkRateLimit now (clientIp req) (rateLimitMap st)
      = ((count r + 1 <=? RATE_LIMIT)%Z,
         <[clientIp req := {| start := start r; count := (count r + 1)%Z |}]>
           (rateLimitMap st)) /\
      ((RATE_LIMIT <= count r)%Z ->
       method req = lit "POST" -> truthy (origin req) = true ->
       inAllowList env req = true ->
       status (handler env now req st).1 = Some 429%Z /\
       body (handler env now req st).1
       = Some (error_body "Too many requests. Please wait a moment."))) /\
  (forall ip' : jsstring,
      ip' <> clientIp req ->
      (checkRateLimit now (clientIp req) (rateLimitMap st)).2 !! ip'
      = rateLimitMap st !! ip').
Proof.
  split; [|split; [|split]].
  - intros Hopen. pose proof (checkRateLimit_open _ _ _ Hopen) as Hc.
    split; [exact Hc|]. rewrite handler_429. unfold rateLimited.
    rewrite Hc. cbn [fst negb]. rewrite andb_false_r. discriminate.
  - intros later Hlater.
    destruct (serve_within (clientIp req) later
                (<[clientIp req := {| start := now; count := 1 |}]> (rateLimitMap st))
                {| start := now; count := 1 |}) as [-> _].
    + apply lookup_insert_eq.
    + exact Hlater.
    + apply map_ext. intros i. cbn [count]. unfold RATE_LIMIT.
      destruct (Nat.ltb_spec i 4), (Z.leb_spec (1 + 1 + Z.of_nat i) 5); lia || reflexivity.
  - intros r Hr Hin. pose proof (checkRateLimit_within _ _ _ _ Hr Hin) as Hc.
    split; [exact Hc|]. intros Hfull Hpost Htruthy Hallow.
    assert (rateLimited env now req (rateLimitMap st) = true) as Hlim.
    { unfold rateLimited. rewrite Hpost, Htruthy, Hallow, Hc. cbn [fst].
      destruct (Z.leb_spec (count r + 1) RATE_LIMIT); [lia|reflexivity]. }
    split; [now apply handler_429|].
    revert Hlim. unfold rateLimited, inAllowList, Hardened.handler, parseMultipart.
    rewrite Hpost.
    change (str_eqb (lit "POST") (lit "OPTIONS")) with false.
    change (str_eqb (lit "POST") (lit "POST")) with true.
    destruct (origin req) as [o|]; [|discriminate]. cbn [truthy andb negb].
    destruct (truthy_str o); [|discriminate].
    destruct (includes (Hardened.allowedOrigins env) o); [|discriminate].
    destruct (checkRateLimit now (clientIp req) (rateLimitMap st)) as [[|] m];
      [discriminate|reflexivity].
  - intros ip' Hne. now apply checkRateLimit_other.
Qed.

Lemma truthy_orS (v : option jsstring) :
  truthy v = true -> v = Some (orS v []) /\ truthy_str (orS v []) = true.
Proof.
  destruct v as [s|]; [|discriminate]. cbn. intros H. rewrite H. auto.
Qed.

(** An accepted submission goes through the verification step and then,
    unless refused there, through the upload loop and the ticket call. *)
Lemma process_accepted env fields files (n : Net World) :
  accepted env fields = true ->
  process env fields files n
  = match Hardened.captcha fetch env (sanitizeSubject fields) n with
    | (Some denied, n1) => (Ok denied, n1)
    | (None, n1) =>
        let '(up, rej, n2) :=
          uploadFiles (subdomainOf env) (usernameOf env) (apiKeyOf env) files n1 in
        Hardened.createTicket fetch JSON_parse parseInt env
          (subdomainOf env) (usernameOf env) (apiKeyOf env)
          (sanitizeSubject fields) (formTypeOf fields) (emailOf fields) up rej n2
    end.
Proof.
  unfold accepted, configured, missingRequired. intros H.
  apply andb_true_iff in H as [H Hlong].
  apply andb_true_iff in H as [H Hemail].
  apply andb_true_iff in H as [H Hform].
  apply andb_true_iff in H as [Hconf Hmiss].
  apply andb_true_iff in Hconf as [Hconf Hak].
  apply andb_true_iff in Hconf as [Hsd Hus].
  apply negb_true_iff, orb_false_iff in Hmiss as [Hft Hem].
  apply negb_false_iff in Hft, Hem. apply negb_true_iff in Hlong.
  apply truthy_orS in Hsd as [Hsd Hsd'], Hus as [Hus Hus'], Hak as [Hak Hak'].
  apply truthy_orS in Hft as [Hft Hft'], Hem as [Hem Hem'].
  unfold Hardened.process, subdomainOf, usernameOf, apiKeyOf, formTypeOf, emailOf in *.
  rewrite Hsd, Hus, Hak, Hsd', Hus', Hak'. cbn [andb negb].
  rewrite Hft, Hem, Hft', Hem'. cbn [andb negb].
  rewrite <- Hft, <- Hem, <- Hsd, <- Hus, <- Hak.
  rewrite Hform, Hemail, Hlong. cbn [negb].
  destruct (Hardened.captcha fetch env (sanitizeSubject fields) n) as [[d|] n1];
    reflexivity.
Qed.

(** A 200 comes from the ticket call alone, and its body holds the
    lengths of the two lists of the upload loop. *)
Lemma process_success env fields files (n n' : Net World) b :
  process env fields files n = (Ok (200%Z, b), n') ->
  exists subdomain username apiKey n1 up rej n2 id,
    uploadFiles subdomain username apiKey files n1 = (up, rej, n2) /\
    b = successBody id (length up) (length rej).
Proof.
  destruct (process_inv fetch JSON_parse parseInt env fields files n)
    as [(c & b0 & -> & Hc)|[(b0 & n0 & -> & _)|
        (sd & us & ak & ft & em & n1 & _ & _ & _ & _ & _ & _ & _ & _ & ->)]].
  - intros [= -> _ _]. lia.
  - discriminate.
  - destruct (uploadFiles sd us ak files n1) as [[up rej] n2] eqn:Hup.
    destruct (createTicket_inv fetch JSON_parse parseInt env sd us ak
                (sanitizeSubject fields) ft em up rej n2)
      as (r & n3 & q & -> & _ & _ & Hr).
    destruct (fetch (world n2) q) as [[resp|m] w]; [|now subst r].
    destruct (resp_ok resp).
    + subst r. destruct (resp_json resp) as [v|]; cbn [bind]; [|discriminate].
      destruct (get_prop (Some v) "id") as [id|]; cbn [bind]; [|discriminate].
      intros [= <- _]. exists sd, us, ak, n1, up, rej, n2, id. auto.
    + destruct (resp_text resp); subst r; discriminate.
Qed.

(** C10: each parsed file adds one entry to the uploaded list or to the
    rejected list, so the two counts of every success response add up to
    the number of parsed files. *)
Theorem file_accounting env now req (st : State World) raw files :
  multipart req = Parsed raw files ->
  status (handler env now req st).1 = Some 200%Z ->
  (forall subdomain username apiKey up rej (n : Net World) file,
      let acc := Hardened.uploadStep fetch subdomain username apiKey (up, rej, n) file in
      (length acc.1.1 = S (length up) /\ acc.1.2 = rej) \/
      (acc.1.1 = up /\ length acc.1.2 = S (length rej))) /\
  (forall subdomain username apiKey (n : Net World),
      (length (uploadFiles subdomain username apiKey files n).1.1
       + length (uploadFiles subdomain username apiKey files n).1.2
       = length (allFiles files))%nat) /\
  exists id uploaded rejected,
    body (handler env now req st).1 = Some (successBody id uploaded rejected) /\
    (uploaded + rejected = length (allFiles files))%nat.
Proof.
  intros Hparsed Hstatus.
  assert (forall subdomain username apiKey (n : Net World),
             (length (uploadFiles subdomain username apiKey files n).1.1
              + length (uploadFiles subdomain username apiKey files n).1.2
              = length (allFiles files))%nat) as Hloop.
  { intros sd us ak n. rewrite uploadFiles_flat.
    destruct (upload_loop_accounting fetch sd us ak (allFiles files) [] [] n)
      as (up & rej & n' & -> & Hlen & _). exact Hlen. }
  split.
  { intros sd us ak up rej n file. cbv zeta.
    destruct (uploadStep_inv fetch sd us ak up rej n file)
      as (up' & rej' & n' & -> & _ & [(a & -> & -> & _)|(-> & -> & _)]);
      cbn [fst snd]; rewrite length_app; cbn [length].
    - left. split; [lia|reflexivity].
    - right. split; [reflexivity|lia]. }
  split; [exact Hloop|].
  destruct (reachesParse env now req (rateLimitMap st)) eqn:Hreach.
  - revert Hstatus. rewrite (handler_reached _ _ _ _ Hreach), Hparsed. cbn [fst].
    destruct (process env (flattenFields raw) files (net st))
      as [[[code b]|m] n'] eqn:Hp; cbn [fst send status body]; [|discriminate].
    intros [= ->].
    apply process_success in Hp
      as (sd & us & ak & n1 & up & rej & n2 & id & Hup & ->).
    exists id, (length up), (length rej). split; [reflexivity|].
    specialize (Hloop sd us ak n1). now rewrite Hup in Hloop.
  - apply handler_early in Hreach as [Hearly _].
    rewrite Hstatus in Hearly. intuition discriminate.
Qed.

(** The loop in terms of the files that fail in the course of the run:
    the rejected list names them in order, and the uploaded list holds one
    descriptor for each of the others. *)
Lemma upload_loop_failing subdomain username apiKey (l : list File) :
  forall up rej (n : Net World),
  exists up' rej' n',
    fold_left (Hardened.uploadStep fetch subdomain username apiKey) l (up, rej, n)
    = (up', rej', n') /\
    (length up' + length (failingFiles fetch subdomain username apiKey l n)
     = length up + length l)%nat /\
    rej' = rej ++ map rejection (failingFiles fetch subdomain username apiKey l n).
Proof.
  induction l as [|file l IH]; intros up rej n; cbn [fold_left failingFiles].
  - exists up, rej, n. cbn [length map]. rewrite app_nil_r.
    split; [reflexivity|]. split; [lia|reflexivity].
  - unfold Hardened.uploadStep at 2.
    destruct (Hardened.uploadAttachmentToGorgias fetch subdomain username apiKey file n)
      as [[a|m] n1]; cbn [is_Ok].
    + destruct (IH (up ++ [a]) rej n1) as (up' & rej' & n' & -> & Hlen & ->).
      exists up', (rej ++ map rejection (failingFiles fetch subdomain username apiKey l n1)), n'.
      split; [reflexivity|]. rewrite length_app in Hlen. cbn [length app] in *.
      split; [lia|reflexivity].
    + destruct (IH up (rej ++ [{| filename := originalFilename file;
                                  reason := lit "Upload failed" |}]) n1)
        as (up' & rej' & n' & -> & Hlen & ->).
      eexists up', _, n'. split; [reflexivity|].
      rewrite length_app. cbn [length app map]. split; [lia|].
      now rewrite <- app_assoc.
Qed.

(** C5, amended: for an accepted submission that passes the
    verification step, whatever the upload service does, every file is
    attempted once and in order, the ticket request is sent after them,
    the handler's rejected list names the files whose upload failed, in
    order and each with the reason ["Upload failed"], and the uploaded
    list holds one descriptor for each of the others.  When the ticket
    call is answered with a success status and a JSON body other than
    [null], the response is 200 with the ticket id and the two counts,
    and every 200 has that body.  The rejected list itself is not part of
    the response. *)
Theorem partial_upload_failure env now req (st : State World) raw files
    (n1 : Net World) :
  multipart req = Parsed raw files ->
  reachesParse env now req (rateLimitMap st) = true ->
  accepted env (flattenFields raw) = true ->
  Hardened.captcha fetch env (sanitizeSubject (flattenFields raw)) (net st) = (None, n1) ->
  exists up rej n2 ticket,
    uploadFiles (subdomainOf env) (usernameOf env) (apiKeyOf env) files n1
    = (up, rej, n2) /\
    (length up
     + length (failingFiles fetch (subdomainOf env) (usernameOf env) (apiKeyOf env)
                 (allFiles files) n1)
     = length (allFiles files))%nat /\
    rej = map rejection
            (failingFiles fetch (subdomainOf env) (usernameOf env) (apiKeyOf env)
               (allFiles files) n1) /\
    url ticket
    = ticketsUrl (lit "https://" ++ subdomainOf env ++ lit ".gorgias.com/api") /\
    sent (net (handler env now req st).2)
    = sent n1
      ++ map (uploadRequest (subdomainOf env) (usernameOf env) (apiKeyOf env))
           (allFiles files)
      ++ [ticket] /\
    (forall resp w ticketData id,
        fetch (world n2) ticket = (Ok resp, w) ->
        resp_ok resp = true ->
        resp_json resp = Ok ticketData ->
        get_prop (Some ticketData) "id" = Ok id ->
        status (handler env now req st).1 = Some 200%Z /\
        body (handler env now req st).1
        = Some (successBody id (length up) (length rej))) /\
    (status (handler env now req st).1 = Some 200%Z ->
     exists id,
       body (handler env now req st).1 = Some (successBody id (length up) (length rej)) /\
       get_prop (body (handler env now req st).1) "rejectedFiles" = Ok None).
Proof.
  intros Hparsed Hreach Hadm Hcaptcha.
  set (sd := subdomainOf env) in *. set (us := usernameOf env) in *.
  set (ak := apiKeyOf env) in *.
  destruct (upload_loop_failing sd us ak (allFiles files) [] [] n1)
    as (up & rej & n2 & Hfold & Hup & Hrej).
  destruct (upload_loop_accounting fetch sd us ak (allFiles files) [] [] n1)
    as (up0 & rej0 & n0 & Hfold0 & Hlen & Hsent).
  rewrite Hfold in Hfold0. injection Hfold0 as <- <- <-.
  cbn [length app] in Hup, Hrej, Hlen.
  destruct (createTicket_inv fetch JSON_parse parseInt env sd us ak
              (sanitizeSubject (flattenFields raw))
              (formTypeOf (flattenFields raw)) (emailOf (flattenFields raw))
              up rej n2) as (r & n3 & ticket & Hct & Hurl & Hsent3 & Hr).
  exists up, rej, n2, ticket.
  split; [now rewrite uploadFiles_flat|].
  split; [exact Hup|]. split; [exact Hrej|]. split; [exact Hurl|].
  rewrite (handler_reached _ _ _ _ Hreach), Hparsed. cbn [fst snd net].
  rewrite (process_accepted _ _ _ _ Hadm), Hcaptcha.
  fold sd us ak. rewrite uploadFiles_flat, Hfold, Hct. cbn [fst snd].
  split; [now rewrite Hsent3, Hsent, <- app_assoc|]. split.
  - intros resp w ticketData id Hfetch Hok Hjson Hid.
    rewrite Hfetch, Hok, Hjson in Hr. cbn [bind] in Hr. rewrite Hid in Hr.
    cbn [bind] in Hr. subst r. split; reflexivity.
  - destruct r as [[code b]|m]; cbn [send status body]; [|discriminate].
    intros [= ->].
    destruct (fetch (world n2) ticket) as [[resp|m] w]; [|discriminate].
    destruct (resp_ok resp); [|destruct (resp_text resp); discriminate].
    destruct (resp_json resp) as [v|]; cbn [bind] in Hr; [|discriminate].
    destruct (get_prop (Some v) "id") as [id|]; cbn [bind] in Hr; [|discriminate].
    injection Hr as ->. exists id.
    split; [reflexivity|]. destruct id; reflexivity.
Qed.

(** Whatever the [try] block answers besides a success is one of the
    fixed error bodies. *)
Lemma process_error_body env fields files (n n' : Net World) code b :
  process env fields files n = (Ok (code, b), n') ->
  (code = 200%Z \/ In b hardenedErrors) /\
  (code = 502%Z -> b = badGateway).
Proof.
  unfold Hardened.process.
  destruct (GORGIAS_SUBDOMAIN env) as [sd|];
    [|intros [= <- <- _]; split; [cbn; auto 10|discriminate]].
  destruct (GORGIAS_USERNAME env) as [us|];
    [|intros [= <- <- _]; split; [cbn; auto 10|discriminate]].
  destruct (GORGIAS_API_KEY env) as [ak|];
    [|intros [= <- <- _]; split; [cbn; auto 10|discriminate]].
  destruct (negb _); [intros [= <- <- _]; split; [cbn; auto 10|discriminate]|].
  destruct (get fields (lit "formType")) as [ft|];
    [|intros [= <- <- _]; split; [cbn; auto 10|discriminate]].
  destruct (get fields (lit "email")) as [em|];
    [|intros [= <- <- _]; split; [cbn; auto 10|discriminate]].
  destruct (negb _); [intros [= <- <- _]; split; [cbn; auto 10|discriminate]|].
  destruct (negb _); [intros [= <- <- _]; split; [cbn; auto 10|discriminate]|].
  destruct (negb _); [intros [= <- <- _]; split; [cbn; auto 10|discriminate]|].
  destruct (tooLong fields); [intros [= <- <- _]; split; [cbn; auto 10|discriminate]|].
  destruct (captcha_inv fetch env (sanitizeSubject fields) n)
    as (r & n1 & -> & [[-> _]|[-> _]]);
    [|intros [= <- <- _]; split; [cbn; auto 12|discriminate]].
  destruct (uploadFiles sd us ak files n1) as [[up rej] n2].
  destruct (createTicket_inv fetch JSON_parse parseInt env sd us ak
              (sanitizeSubject fields) ft em up rej n2)
    as (r & n3 & q & -> & _ & _ & Hr).
  destruct (fetch (world n2) q) as [[resp|m] w]; [|now subst r].
  destruct (resp_ok resp).
  - subst r. destruct (resp_json resp) as [v|]; cbn [bind]; [|discriminate].
    destruct (get_prop (Some v) "id"); cbn [bind]; [|discriminate].
    intros [= <- _ _]. split; [auto|discriminate].
  - destruct (resp_text resp); subst r; [|discriminate].
    intros [= <- <- _]. split; [cbn; auto 12|reflexivity].
Qed.

(** The hardened handler on an upstream failure: a ticket call answered
    with a non-success status whose body can be read yields 502, and every
    502, like every other failure, carries a fixed text: nothing of the
    upstream response, of the error or of the configuration. *)
Theorem hardened_failures_opaque env now req (st : State World) :
  (forall subdomain username apiKey fields formType email up rej (n : Net World),
    exists r n' ticket,
      Hardened.createTicket fetch JSON_parse parseInt env subdomain username apiKey
        fields formType email up rej n = (r, n') /\
      forall resp w text,
        fetch (world n) ticket = (Ok resp, w) ->
        resp_ok resp = false -> resp_text resp = Ok text ->
        r = Ok (502%Z, badGateway)) /\
  (status (handler env now req st).1 = Some 502%Z ->
   body (handler env now req st).1 = Some badGateway) /\
  (status (handler env now req st).1 = Some 200%Z \/
   status (handler env now req st).1 = Some 204%Z \/
   exists b, body (handler env now req st).1 = Some b /\ In b hardenedErrors).
Proof.
  split; [|split].
  - intros sd us ak fields ft em up rej n.
    destruct (createTicket_inv fetch JSON_parse parseInt env sd us ak
                fields ft em up rej n) as (r & n' & q & Hct & _ & _ & Hr).
    exists r, n', q. split; [exact Hct|].
    intros resp w text Hf Hok Ht. now rewrite Hf, Hok, Ht in Hr.
  - destruct (reachesParse env now req (rateLimitMap st)) eqn:Hreach.
    + rewrite (handler_reached _ _ _ _ Hreach).
      destruct (multipart req) as [m|raw files]; [discriminate|]. cbn [fst].
      destruct (process env (flattenFields raw) files (net st))
        as [[[code b]|m] n'] eqn:Hp; cbn [fst send status body]; [|discriminate].
      intros [= ->]. apply process_error_body in Hp as [_ ->]; reflexivity.
    + intros H502. apply handler_early in Hreach as [Hearly _].
      rewrite H502 in Hearly. intuition discriminate.
  - destruct (reachesParse env now req (rateLimitMap st)) eqn:Hreach.
    + rewrite (handler_reached _ _ _ _ Hreach).
      destruct (multipart req) as [m|raw files];
        [right; right; eexists; split; [reflexivity|cbn; auto 10]|]. cbn [fst].
      destruct (process env (flattenFields raw) files (net st))
        as [[[code b]|m] n'] eqn:Hp; cbn [fst send status body];
        [|right; right; eexists; split; [reflexivity|cbn; auto 10]].
      apply process_error_body in Hp as [[->|Hb] _]; [now left|].
      right; right. eauto.
    + revert Hreach. unfold reachesParse, inAllowList, Hardened.handler, parseMultipart.
      destruct (str_eqb (method req) (lit "OPTIONS")); [intros _; cbn; auto|].
      destruct (str_eqb (method req) (lit "POST")); cbn [negb andb];
        [|intros _; right; right; eexists; split; [reflexivity|cbn; auto 10]].
      destruct (origin req) as [o|]; cbn [truthy andb negb];
        [|intros _; right; right; eexists; split; [reflexivity|cbn; auto 10]].
      destruct (truthy_str o && includes (Hardened.allowedOrigins env) o);
        cbn [negb]; [|intros _; right; right; eexists; split; [reflexivity|cbn; auto 10]].
      destruct (checkRateLimit now (clientIp req) (rateLimitMap st)) as [[|] m];
        cbn [fst negb]; [discriminate|].
      intros _; right; right; eexists; split; [reflexivity|cbn; auto 10].
Qed.

(** Every exit of the handler after the body has been parsed leaves none
    of the parsed temporary files on disk, except those whose deletion
    fails; the failures are swallowed, since the response is the same
    whichever deletions fail; files that are not temporary files of the
    request are kept.  A request stopped before parsing leaves the disk
    as it was. *)
Theorem temp_files_cleaned env now req (st : State World) :
  (forall raw files,
      multipart req = Parsed raw files ->
      reachesParse env now req (rateLimitMap st) = true ->
      (forall file, In file (allFiles files) ->
                    deletable (filepath file) = true ->
                    filepath file ∉ disk (handler env now req st).2) /\
      (forall p : jsstring,
          p ∈ disk (handler env now req st).2 ->
          p ∈ disk st \/ (p ∈ tempPaths files /\ deletable p = false)) /\
      (forall p : jsstring,
          p ∈ disk st -> p ∉ tempPaths files ->
          p ∈ disk (handler env now req st).2)) /\
  (reachesParse env now req (rateLimitMap st) = false ->
   disk (handler env now req st).2 = disk st) /\
  (forall deletable' : jsstring -> bool,
      (Hardened.handler fetch JSON_parse parseInt deletable' env now req st).1
      = (handler env now req st).1).
Proof.
  split; [|split].
  - intros raw files Hparsed Hreach.
    rewrite (handler_reached _ _ _ _ Hreach), Hparsed. cbn [snd disk].
    rewrite cleanup_flat.
    split; [|split].
    + intros file Hin Hdel. rewrite cleanup_elem. intros [_ Hno]. apply Hno.
      split; [exact Hdel|]. now apply in_map.
    + intros p. rewrite cleanup_elem, elem_of_union, tempPaths_elem.
      intros [[Hp|Hp] Hno]; [now left|right]. split; [exact Hp|].
      destruct (deletable p); [exfalso; auto|reflexivity].
    + intros p Hp Hno. rewrite cleanup_elem, elem_of_union. split; [now left|].
      intros [_ Hin]. apply Hno. now apply tempPaths_elem.
  - intros Hreach. now apply handler_early in Hreach as (_ & _ & ?).
  - intros deletable'. unfold Hardened.handler, parseMultipart.
    repeat match goal with
           | |- context [if ?b then _ else _] => destruct b
           | |- context [let (_, _) := ?p in _] => destruct p
           | |- context [match ?p with ParseError _ _ => _ | _ => _ end] => destruct p
           | |- context [match ?p with Ok _ => _ | Err _ => _ end] => destruct p
           end; reflexivity.
Qed.


End HardenedHandler.

(** ** Required fields *)

Section RequiredFields.

Context {World : Type}.
Variable fetch : World -> HttpRequest -> Result HttpResponse * World.
Variable JSON_parse : jsstring -> Result json.
Variable parseInt : jsstring -> option Z.
Variable deletable : jsstring -> bool.

Lemma generic_process_missing env fields files (n : Net World) :
  missingRequired fields = true ->
  (Generic.process fetch JSON_parse env fields files n).2 = n /\
  (configured env = true ->
   (Generic.process fetch JSON_parse env fields files n).1
   = Ok (400%Z, missingFieldsBody)).
Proof.
  unfold missingRequired, configured, Generic.process. intros Hmiss.
  destruct (GORGIAS_SUBDOMAIN env) as [sd|]; [|split; [reflexivity|discriminate]].
  destruct (GORGIAS_USERNAME env) as [us|];
    [|split; [reflexivity|cbn; rewrite andb_false_r; discriminate]].
  destruct (GORGIAS_API_KEY env) as [ak|];
    [|split; [reflexivity|cbn; rewrite andb_false_r; discriminate]].
  cbn [truthy].
  destruct (truthy_str sd && truthy_str us && truthy_str ak); cbn [negb];
    [|split; [reflexivity|discriminate]].
  destruct (get fields (lit "formType")) as [ft|]; [|split; reflexivity].
  destruct (get fields (lit "email")) as [em|]; [|split; reflexivity].
  cbn [truthy] in Hmiss.
  destruct (truthy_str ft), (truthy_str em); try discriminate; split; reflexivity.
Qed.

(** C6: a submission whose [formType] or [email] is absent or empty
    causes no outbound request at all, in either handler; once it reaches
    the field validation of a configured deployment it is answered 400
    with the message "Missing required fields". *)
Theorem missing_required_fields env now req (st : State World) raw files :
  multipart req = Parsed raw files ->
  missingRequired (flattenFields raw) = true ->
  net (Hardened.handler fetch JSON_parse parseInt deletable env now req st).2 = net st /\
  (reachesParse env now req (rateLimitMap st) = true -> configured env = true ->
   status (Hardened.handler fetch JSON_parse parseInt deletable env now req st).1
   = Some 400%Z /\
   body (Hardened.handler fetch JSON_parse parseInt deletable env now req st).1
   = Some (error_body "Missing required fields")) /\
  net (Generic.handler fetch JSON_parse env req st).2 = net st /\
  (method req = lit "POST" -> configured env = true ->
   status (Generic.handler fetch JSON_parse env req st).1 = Some 400%Z /\
   body (Generic.handler fetch JSON_parse env req st).1 = Some missingFieldsBody).
Proof.
  intros Hparsed Hmiss.
  destruct (process_missing fetch JSON_parse parseInt env (flattenFields raw)
              files (net st) Hmiss) as (code & b & Hp & Hconf).
  destruct (generic_process_missing env (flattenFields raw) files (net st) Hmiss)
    as [Hgn Hgr].
  split; [|split; [|split]].
  - destruct (reachesParse env now req (rateLimitMap st)) eqn:Hreach.
    + rewrite (handler_reached _ _ _ _ _ _ _ _ Hreach), Hparsed, Hp. reflexivity.
    + now apply (handler_early fetch JSON_parse parseInt deletable) in Hreach
        as (_ & ? & _).
  - intros Hreach Hc. destruct (Hconf Hc) as [-> ->].
    rewrite (handler_reached _ _ _ _ _ _ _ _ Hreach), Hparsed, Hp. split; reflexivity.
  - unfold Generic.handler, parseMultipart.
    destruct (str_eqb (method req) (lit "OPTIONS")); [reflexivity|].
    destruct (negb _); [reflexivity|]. rewrite Hparsed.
    destruct (Generic.process fetch JSON_parse env (flattenFields raw) files (net st))
      as [[[c b0]|m] n']; cbn [snd] in Hgn; subst n'; reflexivity.
  - intros Hpost Hc. specialize (Hgr Hc). unfold Generic.handler, parseMultipart.
    rewrite Hpost, Hparsed.
    change (str_eqb (lit "POST") (lit "OPTIONS")) with false.
    change (str_eqb (lit "POST") (lit "POST")) with true. cbn [negb].
    destruct (Generic.process fetch JSON_parse env (flattenFields raw) files (net st))
      as [r n']. cbn [fst] in Hgr. subst r. split; reflexivity.
Qed.

End RequiredFields.

(** ** Tag resolution *)

Section Tags.

Variable JSON_parse : jsstring -> Result json.

Lemma commaTags_spec (tags t : jsstring) :
  In t (commaTags tags) ->
  t <> [] /\ exists piece, In piece (split_on c_comma tags) /\ t = trim piece.
Proof.
  unfold commaTags. rewrite <- list_elem_of_In, list_elem_of_filter, list_elem_of_In.
  intros [Ht Hin]. apply in_map_iff in Hin as (piece & <- & Hin).
  split; [|eauto]. intros Hnil. now rewrite Hnil in Ht.
Qed.

(** The hardened tag block: the elements of a JSON array, stringified;
    else, when parsing fails, the trimmed non-empty pieces between commas;
    else the form type; and no tag longer than 100 characters. *)
Theorem hardened_tag_resolution (formType : jsstring) (fields : Fields) :
  (forall tags items,
      get fields (lit "tags") = Some tags -> truthy_str tags = true ->
      JSON_parse tags = Ok (JArr items) ->
      Hardened.resolveTags JSON_parse formType fields
      = map (fun tag => substring0 100 (String_ tag)) items) /\
  (forall tags m,
      get fields (lit "tags") = Some tags -> truthy_str tags = true ->
      JSON_parse tags = Err m -> commaTags tags <> [] ->
      Hardened.resolveTags JSON_parse formType fields
      = map (substring0 100) (commaTags tags)) /\
  (truthy (get fields (lit "tags")) = false \/
   (exists tags,
       get fields (lit "tags") = Some tags /\
       ((exists v, JSON_parse tags = Ok v /\ forall items, v <> JArr items) \/
        (exists m, JSON_parse tags = Err m /\ commaTags tags = []))) ->
   Hardened.resolveTags JSON_parse formType fields = [formType]) /\
  ((length formType <= 100)%nat ->
   forall t, In t (Hardened.resolveTags JSON_parse formType fields) ->
             (length t <= 100)%nat).
Proof.
  unfold Hardened.resolveTags. split; [|split; [|split]].
  - intros tags items -> -> ->. reflexivity.
  - intros tags m -> -> -> Hne.
    destruct (commaTags tags); [congruence|reflexivity].
  - intros [Hfalsy|(tags & -> & Hcase)].
    + destruct (get fields (lit "tags")) as [tags|]; [|reflexivity].
      cbn in Hfalsy. now rewrite Hfalsy.
    + destruct (truthy_str tags); [|reflexivity].
      destruct Hcase as [(v & -> & Hv)|(m & -> & ->)]; [|reflexivity].
      destruct v; try reflexivity. now destruct (Hv items).
  - intros Hft t.
    assert (forall l : list jsstring, In t (map (substring0 100) l) ->
                                      (length t <= 100)%nat) as Hcut.
    { intros l (x & <- & _)%in_map_iff. unfold substring0.
      rewrite length_take. lia. }
    assert (In t [formType] -> (length t <= 100)%nat) as Hdef
        by (intros [<-|[]]; exact Hft).
    destruct (get fields (lit "tags")) as [tags|]; [|exact Hdef].
    destruct (truthy_str tags); [|exact Hdef].
    destruct (JSON_parse tags) as [[]|]; try exact Hdef.
    + rewrite <- (map_map String_ (substring0 100)). apply Hcut.
    + destruct (0 <? length (commaTags tags))%nat; [apply Hcut|exact Hdef].
Qed.

(** C9 on the handlers as they stand: for a [tags] field that is not
    JSON and holds a single tag of 101 characters, the form-agnostic
    handler keeps the tag whole, where the hardened one cuts it to 100;
    and a [tags] field holding the empty JSON array leaves the hardened
    handler with no tag at all. *)
Theorem tag_resolution_gaps :
  is_Ok (JSON_parse long_tag) = false ->
  JSON_parse (lit "[]") = Ok (JArr []) ->
  Generic.resolveTags JSON_parse (lit "contact-form") [(lit "tags", Some long_tag)]
  = [JStr long_tag] /\
  length long_tag = 101%nat /\
  Hardened.resolveTags JSON_parse (lit "contact-form") [(lit "tags", Some long_tag)]
  = [repeat 97%N 100] /\
  Hardened.resolveTags JSON_parse (lit "contact-form") [(lit "tags", Some (lit "[]"))]
  = [].
Proof.
  intros Hlong Hempty.
  unfold Generic.resolveTags, Hardened.resolveTags.
  change (get [(lit "tags", Some long_tag)] (lit "tags")) with (Some long_tag).
  change (get [(lit "tags", Some (lit "[]"))] (lit "tags")) with (Some (lit "[]")).
  change (truthy_str long_tag) with true.
  change (truthy_str (lit "[]")) with true.
  cbv beta iota. rewrite Hempty.
  destruct (JSON_parse long_tag) as [v|m]; [discriminate|]. repeat split.
Qed.

End Tags.

Lemma hardened_tag_resolution_witness :
  Hardened.resolveTags (fun _ => Ok (JArr [JStr (lit "vip"); JNum 7]))
    (lit "contact-form") [(lit "tags", Some tags_array)]
  = [lit "vip"; lit "7"].
Proof.
  exact (proj1 (hardened_tag_resolution (fun _ => Ok (JArr [JStr (lit "vip"); JNum 7]))
                  (lit "contact-form") [(lit "tags", Some tags_array)])
           tags_array [JStr (lit "vip"); JNum 7]
           eq_refl eq_refl eq_refl).
Defined.

Lemma tag_resolution_gaps_witness :
  Generic.resolveTags parse_sample (lit "contact-form") [(lit "tags", Some long_tag)]
  = [JStr long_tag].
Proof.
  exact (proj1 (tag_resolution_gaps parse_sample eq_refl eq_refl)).
Defined.

(** ** The handlers on concrete requests *)

(** The form-agnostic ticket call relays whatever a failing upstream
    says: its status and its response text. *)
Lemma generic_createTicket_relays {World : Type}
    (fetch : World -> HttpRequest -> Result HttpResponse * World)
    (JSON_parse : jsstring -> Result json)
    env subdomain username apiKey fields formType email up rej (n : Net World) :
  exists ticket,
    forall resp w text,
      fetch (world n) ticket = (Ok resp, w) ->
      resp_ok resp = false -> resp_text resp = Ok text ->
      (Generic.createTicket fetch JSON_parse env subdomain username apiKey
         fields formType email up rej n).1
      = Ok (502%Z,
            JObj [(lit "error", JStr (lit "Failed to create ticket"));
                  (lit "status", JNum (resp_status resp));
                  (lit "details", JStr text)]).
Proof.
  unfold Generic.createTicket, post.
  match goal with |- context [fetch (world n) ?q] => exists q end.
  intros resp w text Hf Hok Ht. now rewrite Hf, Hok, Ht.
Qed.

(** C4 on the form-agnostic handler: a ticket call answered 500 is
    relayed as a 502 whose body carries the upstream status and the
    upstream response text; the hardened handler answers the same request
    with its fixed text. *)
Theorem generic_bad_gateway_leaks :
  status (Generic.handler mock_down no_json demo_env plain_submission idle).1
  = Some 502%Z /\
  body (Generic.handler mock_down no_json demo_env plain_submission idle).1
  = Some (JObj [(lit "error", JStr (lit "Failed to create ticket"));
                (lit "status", JNum 500);
                (lit "details", JStr upstream_detail)]) /\
  status (Hardened.handler mock_down no_json no_int all_deletable demo_env 0
            plain_submission idle).1 = Some 502%Z /\
  body (Hardened.handler mock_down no_json no_int all_deletable demo_env 0
          plain_submission idle).1 = Some badGateway.
Proof. vm_compute. repeat split. Qed.

(** The form-agnostic handler does not check the origin: the submission from a
    foreign origin creates a ticket, where the hardened handler answers
    403. *)
Lemma generic_serves_foreign_origin :
  inAllowList demo_env foreign_submission = false /\
  status (Generic.handler mock no_json demo_env foreign_submission idle).1
  = Some 200%Z /\
  status (Hardened.handler mock no_json no_int all_deletable demo_env 0
            foreign_submission idle).1 = Some 403%Z.
Proof. vm_compute. repeat split. Qed.

(** C5, as stated, fails on its last clause: with three files of which
    the second is refused, the handler's own rejected list names
    [b.pdf], but the response holds the two counts only and mentions the
    name nowhere. *)
Lemma rejected_names_not_returned :
  (Hardened.uploadFiles mock (lit "acme") (lit "api@shop.example") (lit "k3y")
     [(lit "attachments", ManyFiles [file_a; file_b; file_c])]
     {| world := tt; sent := [] |}).1.2
  = [rejection file_b] /\
  body (Hardened.handler mock no_json no_int all_deletable demo_env 0 submission idle).1
  = Some (successBody (Some (JNum 42)) 2 1) /\
  mentions (lit "b.pdf") (successBody (Some (JNum 42)) 2 1) = false /\
  get_prop (Some (successBody (Some (JNum 42)) 2 1)) "rejectedFiles" = Ok None.
Proof. vm_compute. repeat split. Qed.

(** Three files sent to an upstream that refuses the second upload it
    receives: the second file is the one rejected, the other two are
    uploaded, and the ticket is created. *)
Lemma partial_upload_failure_witness :
  failingFiles mock_second (subdomainOf demo_env) (usernameOf demo_env)
    (apiKeyOf demo_env) [file_a; file_b; file_c] (net idle_counting) = [file_b] /\
  status (Hardened.handler mock_second no_json no_int all_deletable demo_env 0
            submission idle_counting).1 = Some 200%Z /\
  body (Hardened.handler mock_second no_json no_int all_deletable demo_env 0
          submission idle_counting).1
  = Some (successBody (Some (JNum 42)) 2 1).
Proof.
  split; [vm_compute; reflexivity|].
  destruct (partial_upload_failure mock_second no_json no_int all_deletable demo_env 0
              submission idle_counting _ _ (net idle_counting) eq_refl)
    as (up & rej & n2 & ticket & Hup & _ & _ & _ & Hsent & Hok & _).
  - vm_compute; reflexivity.
  - vm_compute; reflexivity.
  - reflexivity.
  - vm_compute in Hup. injection Hup as <- <- <-.
    apply (f_equal (fun l => nth 3 l ticket)) in Hsent. vm_compute in Hsent.
    subst ticket.
    destruct (Hok {| resp_status := 201; resp_text := Ok [];
                     resp_json := Ok (JObj [(lit "id", JNum 42)]) |}
                3%nat (JObj [(lit "id", JNum 42)]) (Some (JNum 42)))
      as [Hstatus Hbody]; try reflexivity.
    split; [exact Hstatus|exact Hbody].
Defined.

Lemma file_accounting_witness :
  exists id uploaded rejected,
    body (Hardened.handler mock no_json no_int all_deletable demo_env 0 submission idle).1
    = Some (successBody id uploaded rejected) /\
    (uploaded + rejected = 3)%nat.
Proof.
  refine (proj2 (proj2 (file_accounting mock no_json no_int all_deletable demo_env 0
                          submission idle _ _ eq_refl _))).
  vm_compute; reflexivity.
Defined.

Lemma missing_required_fields_witness :
  status (Hardened.handler mock no_json no_int all_deletable demo_env 0 no_email idle).1
  = Some 400%Z /\
  sent (net (Hardened.handler mock no_json no_int all_deletable demo_env 0 no_email idle).2)
  = [].
Proof.
  destruct (missing_required_fields mock no_json no_int all_deletable demo_env 0
              no_email idle _ _ eq_refl) as (Hnet & Hstatus & _).
  - vm_compute; reflexivity.
  - split.
    + apply Hstatus; vm_compute; reflexivity.
    + rewrite Hnet. reflexivity.
Defined.

Lemma fixed_window_rate_limit_witness :
  status (Hardened.handler mock no_json no_int all_deletable demo_env 59999
            plain_submission exhausted).1 = Some 429%Z.
Proof.
  refine (proj1 (proj2 (proj1 (proj2 (proj2
            (fixed_window_rate_limit mock no_json no_int all_deletable demo_env 59999
               plain_submission exhausted)))
            {| start := 0; count := 5 |} _ _) _ _ _ _)).
  - vm_compute; reflexivity.
  - vm_compute; discriminate.
  - vm_compute; discriminate.
  - reflexivity.
  - reflexivity.
  - vm_compute; reflexivity.
Defined.

Lemma temp_files_cleaned_witness :
  filepath file_b ∉
    disk (Hardened.handler mock no_json no_int all_deletable demo_env 0 submission idle).2.
Proof.
  refine (proj1 (proj1 (temp_files_cleaned mock no_json no_int all_deletable demo_env 0
                          submission idle) _ _ eq_refl _) file_b _ eq_refl).
  - vm_compute; reflexivity.
  - right; left; reflexivity.
Defined.


(** The sample submission end to end: one ticket, the message rendered as
    an expanded block with its line break kept. *)
Example submission_rendered :
  is_infix
    (longBlock (lit "Message") (lit "Hello" ++ nl ++ lit "World"))
    (Hardened.generateGenericTicketBody (lit "contact-form")
       [(lit "formType", Some (lit "contact-form"));
        (lit "email", Some (lit "test@test.com"));
        (lit "name", Some (lit "Jane Doe"));
        (lit "message", Some (lit "Hello" ++ nl ++ lit "World"))]) = true.
Proof. vm_compute; reflexivity. Qed.

(** The form-agnostic handler never deletes what the parser wrote: after
    the same submission the three temporary files are still on disk. *)
Lemma generic_keeps_temp_files :
  elements (disk (Generic.handler mock no_json demo_env submission idle).2)
  ≡ₚ [filepath file_a; filepath file_b; filepath file_c] /\
  disk (Hardened.handler mock no_json no_int all_deletable demo_env 0 submission idle).2
  = ∅.
Proof.
  split; [|vm_compute; reflexivity].
  apply NoDup_Permutation; [apply NoDup_elements| |].
  - vm_compute. repeat constructor; rewrite ?list_elem_of_In; cbn; intuition discriminate.
  - intros p. rewrite elem_of_elements.
    change (disk (Generic.handler mock no_json demo_env submission idle).2)
      with (∅ ∪ tempPaths [(lit "attachments", ManyFiles [file_a; file_b; file_c])]
            : gset jsstring).
    rewrite elem_of_union, tempPaths_elem, list_elem_of_In. cbn.
    rewrite elem_of_empty. tauto.
Qed.

(** * Further properties of the code *)

(** ** Trimming *)

Lemma dropWhile_app_all {A} (p : A -> bool) (a b : list A) :
  forallb p a = true -> dropWhile p (a ++ b) = dropWhile p b.
Proof.
  induction a as [|x a IH]; [reflexivity|]. cbn [forallb app dropWhile].
  intros [-> Ha]%andb_true_iff. auto.
Qed.

Lemma dropWhile_decomp {A} (p : A -> bool) (l : list A) :
  exists pre, l = pre ++ dropWhile p l /\ forallb p pre = true.
Proof.
  induction l as [|x l (pre & Hl & Hpre)]; [exists []; auto|]. cbn [dropWhile].
  destruct (p x) eqn:Hx; [|exists []; auto].
  exists (x :: pre). cbn [app forallb]. rewrite Hx, Hpre. split; [now f_equal|reflexivity].
Qed.

Lemma dropWhile_head {A} (p : A -> bool) (l : list A) x t :
  dropWhile p l = x :: t -> p x = false.
Proof.
  induction l as [|y l IH]; [discriminate|]. cbn [dropWhile].
  destruct (p y) eqn:Hy; [exact IH|]. now intros [= <- _].
Qed.

Lemma dropWhile_fixed {A} (p : A -> bool) (l : list A) :
  match l with [] => True | x :: _ => p x = false end -> dropWhile p l = l.
Proof. destruct l as [|x l]; [reflexivity|]. cbn. now intros ->. Qed.

(** What [trim] keeps is a middle part of the string, between two runs
    of whitespace. *)
Lemma trim_decomp s :
  exists pre post,
    s = pre ++ trim s ++ post /\
    forallb is_ws pre = true /\ forallb is_ws post = true.
Proof.
  unfold trim, trimEnd, trimStart.
  destruct (dropWhile_decomp is_ws s) as (pre & Hs & Hpre).
  destruct (dropWhile_decomp is_ws (rev (dropWhile is_ws s))) as (post & Hr & Hpost).
  exists pre, (rev post). split; [|split; [exact Hpre|]].
  - rewrite Hs at 1. f_equal.
    rewrite <- (rev_involutive (dropWhile is_ws s)) at 1.
    rewrite Hr at 1. now rewrite rev_app_distr.
  - rewrite forallb_forall in *. intros x Hx. apply Hpost. now apply in_rev.
Qed.

Lemma trim_first s c t : trim s = c :: t -> is_ws c = false.
Proof.
  unfold trim, trimEnd, trimStart. intros H.
  destruct (dropWhile_decomp is_ws (rev (dropWhile is_ws s))) as (post & Hr & _).
  assert (dropWhile is_ws s = (c :: t) ++ rev post) as Hd.
  { rewrite <- (rev_involutive (dropWhile is_ws s)), Hr, rev_app_distr. now rewrite H. }
  eapply dropWhile_head. exact Hd.
Qed.

Lemma trim_last s t c : trim s = t ++ [c] -> is_ws c = false.
Proof.
  unfold trim, trimEnd. intros H.
  apply (f_equal (@rev N)) in H. rewrite rev_involutive, rev_app_distr in H.
  eapply dropWhile_head. exact H.
Qed.

Lemma trim_fixed s :
  match s with [] => True | c :: _ => is_ws c = false end ->
  match rev s with [] => True | c :: _ => is_ws c = false end ->
  trim s = s.
Proof.
  intros Hfirst Hlast. unfold trim, trimEnd, trimStart.
  rewrite (dropWhile_fixed _ s Hfirst), (dropWhile_fixed _ (rev s) Hlast).
  apply rev_involutive.
Qed.

Lemma trim_idempotent s : trim (trim s) = trim s.
Proof.
  apply trim_fixed.
  - destruct (trim s) as [|c t] eqn:H; [exact I|]. eapply trim_first; eauto.
  - destruct (rev (trim s)) as [|c t] eqn:H; [exact I|].
    apply (f_equal (@rev N)) in H. rewrite rev_involutive in H. cbn in H.
    eapply trim_last; eauto.
Qed.

(** ** Field labels *)

Ltac bool_props :=
  rewrite ?orb_true_iff, ?andb_true_iff, ?negb_true_iff, ?orb_false_iff,
    ?andb_false_iff, ?negb_false_iff, ?N.leb_le, ?N.eqb_eq, ?N.leb_gt, ?N.eqb_neq in *.

Ltac char_facts :=
  unfold is_ws, is_word, is_lower, is_upper, is_digit, c_space in *;
  first [ apply eq_true_iff_eq | idtac ];
  intros; bool_props; lia.

Lemma ws_not_word c : is_ws c = true -> is_word c = false.
Proof. char_facts. Qed.

Lemma upper_not_lower c : is_upper c = true -> is_lower c = false.
Proof. char_facts. Qed.

Lemma lower_is_word c : is_lower c = true -> is_word c = true.
Proof. char_facts. Qed.

Lemma toUpperCase_not_lower c : is_lower (toUpperCase_char c) = false.
Proof.
  unfold toUpperCase_char. destruct (is_lower c) eqn:H; [|exact H].
  revert H. char_facts.
Qed.

Lemma toUpperCase_word c : is_word (toUpperCase_char c) = is_word c.
Proof.
  unfold toUpperCase_char. destruct (is_lower c) eqn:H; [|reflexivity].
  revert H. unfold is_word, is_lower, is_upper, is_digit. intros H.
  apply eq_true_iff_eq. bool_props. lia.
Qed.

Lemma toUpperCase_no_separator c :
  ((toUpperCase_char c =? 95) || (toUpperCase_char c =? 45))%N
  = ((c =? 95) || (c =? 45))%N.
Proof.
  unfold toUpperCase_char. destruct (is_lower c) eqn:H; [|reflexivity].
  revert H. unfold is_lower. intros H.
  apply eq_true_iff_eq. bool_props. lia.
Qed.

Lemma separator_case c :
  is_lower (if ((c =? 95) || (c =? 45))%N then c_space else c) = is_lower c /\
  is_upper (if ((c =? 95) || (c =? 45))%N then c_space else c) = is_upper c.
Proof.
  destruct ((c =? 95) || (c =? 45))%N eqn:H; [|auto].
  unfold is_lower, is_upper, c_space.
  split; apply eq_true_iff_eq; bool_props; lia.
Qed.

Lemma splitCamel_step a b t :
  splitCamel (a :: b :: t)
  = if is_lower a && is_upper b then a :: c_space :: b :: splitCamel t
    else a :: splitCamel (b :: t).
Proof. reflexivity. Qed.

Lemma splitCamel_head s : head (splitCamel s) = head s.
Proof.
  destruct s as [|a [|b t]]; try reflexivity. rewrite splitCamel_step.
  now destruct (is_lower a && is_upper b).
Qed.

Lemma noCamel_cons a s :
  noCamel (a :: s)
  = match head s with
    | Some b => negb (is_lower a && is_upper b) && noCamel s
    | None => true
    end.
Proof. destruct s; reflexivity. Qed.

(** [splitCamel] leaves no lowercase letter directly before an uppercase
    one. *)
Lemma splitCamel_noCamel s : noCamel (splitCamel s) = true.
Proof.
  remember (length s) as n eqn:Hn. revert s Hn.
  induction n as [n IH] using lt_wf_ind. intros s ->.
  destruct s as [|a [|b t]]; try reflexivity. rewrite splitCamel_step.
  destruct (is_lower a && is_upper b) eqn:Hab.
  - apply andb_true_iff in Hab as [Ha Hb].
    rewrite noCamel_cons. cbn [head].
    change (is_upper c_space) with false. rewrite andb_false_r. cbn [negb andb].
    rewrite noCamel_cons. cbn [head].
    change (is_lower c_space) with false. cbn [negb andb].
    rewrite noCamel_cons, splitCamel_head.
    rewrite (upper_not_lower b Hb). cbn [andb negb].
    destruct (head t); [|reflexivity].
    apply (IH (length t)); [cbn; lia|reflexivity].
  - rewrite noCamel_cons, splitCamel_head. cbn [head]. rewrite Hab. cbn [negb andb].
    apply (IH (length (b :: t))); [cbn; lia|reflexivity].
Qed.

Lemma splitCamel_fixed s : noCamel s = true -> splitCamel s = s.
Proof.
  induction s as [|a s IH]; [reflexivity|]. rewrite noCamel_cons.
  destruct s as [|b t]; [reflexivity|]. cbn [head]. rewrite splitCamel_step.
  intros [Hab Hs]%andb_true_iff. apply negb_true_iff in Hab. rewrite Hab.
  now rewrite IH.
Qed.

Lemma spaceSeparators_noCamel s :
  noCamel (spaceSeparators s) = noCamel s.
Proof.
  unfold spaceSeparators.
  induction s as [|a s IH]; [reflexivity|]. cbn [map].
  rewrite !noCamel_cons, IH. destruct s as [|b t]; [reflexivity|]. cbn [map head].
  destruct (separator_case a) as [-> _]. destruct (separator_case b) as [_ ->].
  reflexivity.
Qed.

Lemma spaceSeparators_clean s : noSeparator (spaceSeparators s) = true.
Proof.
  unfold noSeparator, spaceSeparators.
  induction s as [|c s IH]; [reflexivity|]. cbn [map forallb]. rewrite IH, andb_true_r.
  destruct ((c =? 95) || (c =? 45))%N eqn:H; [reflexivity|]. now rewrite H.
Qed.

Lemma spaceSeparators_fixed s : noSeparator s = true -> spaceSeparators s = s.
Proof.
  unfold noSeparator, spaceSeparators.
  induction s as [|c s IH]; [reflexivity|]. cbn [forallb map].
  intros [Hc Hs]%andb_true_iff. apply negb_true_iff in Hc. rewrite Hc. now rewrite IH.
Qed.

Lemma capitalizeWords_head prev s :
  head (capitalizeWords prev s)
  = match head s with
    | Some c => Some (if is_word c && negb prev then toUpperCase_char c else c)
    | None => None
    end.
Proof. destruct s; reflexivity. Qed.

Lemma capitalizeWords_noCamel s :
  forall prev, noCamel s = true -> noCamel (capitalizeWords prev s) = true.
Proof.
  induction s as [|a s IH]; [reflexivity|]. intros prev.
  rewrite noCamel_cons. cbn [capitalizeWords]. rewrite noCamel_cons, capitalizeWords_head.
  destruct s as [|b t]; [reflexivity|]. cbn [head].
  intros [Hab Hs]%andb_true_iff. rewrite (IH _ Hs), andb_true_r.
  apply negb_true_iff. apply negb_true_iff in Hab.
  destruct (is_word a && negb prev) eqn:Ha.
  - now rewrite toUpperCase_not_lower.
  - destruct (is_lower a) eqn:Hla; [|reflexivity]. cbn [andb] in *.
    rewrite (lower_is_word a Hla). cbn [negb andb]. rewrite andb_false_r. exact Hab.
Qed.

Lemma capitalizeWords_clean s :
  forall prev, noSeparator s = true -> noSeparator (capitalizeWords prev s) = true.
Proof.
  unfold noSeparator. induction s as [|c s IH]; [reflexivity|]. intros prev.
  cbn [capitalizeWords forallb]. intros [Hc Hs]%andb_true_iff.
  rewrite (IH _ Hs), andb_true_r.
  destruct (is_word c && negb prev); [|exact Hc].
  now rewrite toUpperCase_no_separator.
Qed.

Lemma capitalizeWords_capitalized s :
  forall prev, wordsCapitalized prev (capitalizeWords prev s) = true.
Proof.
  induction s as [|c s IH]; [reflexivity|]. intros prev.
  cbn [capitalizeWords wordsCapitalized].
  destruct (is_word c && negb prev) eqn:Hc.
  - rewrite toUpperCase_not_lower, toUpperCase_word, andb_false_r. cbn [negb andb].
    apply IH.
  - rewrite Hc. cbn [negb andb]. apply IH.
Qed.

Lemma capitalizeWords_fixed s :
  forall prev, wordsCapitalized prev s = true -> capitalizeWords prev s = s.
Proof.
  induction s as [|c s IH]; [reflexivity|]. intros prev.
  cbn [capitalizeWords wordsCapitalized]. intros [Hc Hs]%andb_true_iff.
  rewrite (IH _ Hs). f_equal.
  destruct (is_word c && negb prev); [|reflexivity].
  cbn [andb] in Hc. apply negb_true_iff in Hc.
  unfold toUpperCase_char. now rewrite Hc.
Qed.

(** The three shapes pass to a middle part cut out between runs of
    whitespace. *)
Lemma noCamel_app a b : noCamel (a ++ b) = true -> noCamel a = true /\ noCamel b = true.
Proof.
  induction a as [|x a IH]; [auto|]. cbn [app]. rewrite !noCamel_cons.
  destruct a as [|y a].
  - cbn [app head]. destruct b as [|z b]; [auto|]. cbn [head].
    intros [_ Hb]%andb_true_iff. auto.
  - cbn [app head] in *. intros [Hxy H]%andb_true_iff.
    destruct (IH H) as [Ha Hb]. rewrite Hxy, Ha. auto.
Qed.

Lemma wordsCapitalized_after_ws pre s :
  forallb is_ws pre = true ->
  wordsCapitalized false (pre ++ s) = true -> wordsCapitalized false s = true.
Proof.
  induction pre as [|c pre IH]; [auto|]. cbn [forallb app wordsCapitalized].
  intros [Hc Hpre]%andb_true_iff [_ H]%andb_true_iff.
  rewrite (ws_not_word c Hc) in H. auto.
Qed.

Lemma wordsCapitalized_prefix s post :
  forall prev, wordsCapitalized prev (s ++ post) = true -> wordsCapitalized prev s = true.
Proof.
  induction s as [|c s IH]; [reflexivity|]. intros prev. cbn [app wordsCapitalized].
  intros [-> H]%andb_true_iff. eauto.
Qed.

(** X1: the label formatter is idempotent: formatting a label that is
    already formatted changes nothing. *)
Theorem formatFieldName_idempotent (fieldName : jsstring) :
  formatFieldName (formatFieldName fieldName) = formatFieldName fieldName.
Proof.
  unfold formatFieldName at 2 3.
  set (t := capitalizeWords false (spaceSeparators (splitCamel fieldName))).
  destruct (trim_decomp t) as (pre & post & Ht & Hpre & Hpost).
  assert (noCamel t = true) as Hcamel
      by (apply capitalizeWords_noCamel; rewrite spaceSeparators_noCamel;
          apply splitCamel_noCamel).
  assert (noSeparator t = true) as Hsep
      by (apply capitalizeWords_clean, spaceSeparators_clean).
  assert (wordsCapitalized false t = true) as Hcap
      by apply capitalizeWords_capitalized.
  rewrite Ht in Hcamel, Hsep, Hcap.
  apply noCamel_app in Hcamel as [_ Hcamel]. apply noCamel_app in Hcamel as [Hcamel _].
  unfold noSeparator in Hsep. rewrite !forallb_app in Hsep.
  apply andb_true_iff in Hsep as [_ Hsep]. apply andb_true_iff in Hsep as [Hsep _].
  apply (wordsCapitalized_after_ws pre _ Hpre) in Hcap.
  apply wordsCapitalized_prefix in Hcap.
  unfold formatFieldName.
  rewrite (splitCamel_fixed _ Hcamel), (spaceSeparators_fixed _ Hsep),
    (capitalizeWords_fixed _ _ Hcap).
  apply trim_idempotent.
Qed.

(** X2: in the classes the three patterns of [formatFieldName] use, which
    are ASCII: a formatted label has no underscore and no hyphen, no
    letter [a]-[z] directly before a letter [A]-[Z], no letter [a]-[z] at
    the start of a word (a character of [A-Za-z0-9_] that follows none of
    them), and no white space at either end.  Letters outside ASCII are
    no letters to the patterns and are left as they are. *)
Theorem formatFieldName_shape (fieldName : jsstring) :
  noSeparator (formatFieldName fieldName) = true /\
  noCamel (formatFieldName fieldName) = true /\
  wordsCapitalized false (formatFieldName fieldName) = true /\
  trim (formatFieldName fieldName) = formatFieldName fieldName.
Proof.
  unfold formatFieldName.
  set (t := capitalizeWords false (spaceSeparators (splitCamel fieldName))).
  destruct (trim_decomp t) as (pre & post & Ht & Hpre & Hpost).
  assert (noCamel t = true) as Hcamel
      by (apply capitalizeWords_noCamel; rewrite spaceSeparators_noCamel;
          apply splitCamel_noCamel).
  assert (noSeparator t = true) as Hsep
      by (apply capitalizeWords_clean, spaceSeparators_clean).
  assert (wordsCapitalized false t = true) as Hcap
      by apply capitalizeWords_capitalized.
  rewrite Ht in Hcamel, Hsep, Hcap.
  apply noCamel_app in Hcamel as [_ Hcamel]. apply noCamel_app in Hcamel as [Hcamel _].
  unfold noSeparator in Hsep. rewrite !forallb_app in Hsep.
  apply andb_true_iff in Hsep as [_ Hsep]. apply andb_true_iff in Hsep as [Hsep _].
  apply (wordsCapitalized_after_ws pre _ Hpre) in Hcap.
  apply wordsCapitalized_prefix in Hcap.
  repeat split; try assumption. apply trim_idempotent.
Qed.

(** ** The e-mail pattern *)

Lemma takeWhile_dropWhile {A} (p : A -> bool) (l : list A) :
  l = takeWhile p l ++ dropWhile p l /\ forallb p (takeWhile p l) = true.
Proof.
  induction l as [|x l [IH1 IH2]]; [auto|]. cbn [takeWhile dropWhile].
  destruct (p x) eqn:Hx; [|auto].
  cbn [app forallb]. rewrite Hx, IH2. split; [now f_equal|reflexivity].
Qed.

Lemma takeWhile_stop {A} (p : A -> bool) (a : list A) x r :
  forallb p a = true -> p x = false ->
  takeWhile p (a ++ x :: r) = a /\ dropWhile p (a ++ x :: r) = x :: r.
Proof.
  intros Ha Hx. induction a as [|y a IH]; cbn [app takeWhile dropWhile forallb] in *.
  - now rewrite Hx.
  - apply andb_true_iff in Ha as [-> Ha]. destruct (IH Ha) as [-> ->]. auto.
Qed.

Lemma has_tld_spec (domain : jsstring) :
  forall seen,
    has_tld seen domain = true
    <-> exists b c, domain = b ++ [c_dot] ++ c /\
                    (1 <= seen + length b)%nat /\ (2 <= length c)%nat.
Proof.
  induction domain as [|x d IH]; intros seen; cbn [has_tld].
  - split; [discriminate|]. intros (b & c & H & _). now destruct b.
  - rewrite orb_true_iff, IH, !andb_true_iff, N.eqb_eq, !Nat.leb_le. split.
    + intros [[[-> Hseen] Hd]|(b & c & -> & Hb & Hc)].
      * exists [], d. cbn. repeat split; [lia|exact Hd].
      * exists (x :: b), c. cbn [app length]. repeat split; [lia|exact Hc].
    + intros (b & c & H & Hb & Hc). destruct b as [|y b]; cbn [app length] in H, Hb.
      * injection H as -> ->. left. repeat split; [lia|exact Hc].
      * injection H as -> ->. right. exists b, c. repeat split; [lia|exact Hc].
Qed.

Lemma email_char_not_at c : email_char c = true -> negb (c =? c_at)%N = true.
Proof. unfold email_char. now intros [_ H]%andb_true_iff. Qed.

(** X3: the executable e-mail test accepts exactly the strings the
    pattern describes: a non-empty local part, one at-sign, a non-empty
    domain label, a dot and at least two more characters, none of them
    whitespace or an at-sign. *)
Theorem email_pattern_spec (s : jsstring) :
  EMAIL_REGEX_test s = true
  <-> exists a b c,
        s = a ++ [c_at] ++ b ++ [c_dot] ++ c /\
        a <> [] /\ b <> [] /\ (2 <= length c)%nat /\
        forallb email_char a = true /\ forallb email_char b = true /\
        forallb email_char c = true.
Proof.
  unfold EMAIL_REGEX_test. split.
  - destruct (takeWhile_dropWhile (fun c => negb (c =? c_at)%N) s) as [Hs _].
    destruct (dropWhile (fun c => negb (c =? c_at)%N) s) as [|x domain] eqn:Hd;
      [discriminate|].
    apply dropWhile_head in Hd. apply negb_false_iff, N.eqb_eq in Hd. subst x.
    rewrite !andb_true_iff, Nat.leb_le, has_tld_spec.
    intros [[[Hlen Hlocal] Hdomain] (b & c & -> & Hb & Hc)].
    rewrite !forallb_app in Hdomain.
    apply andb_true_iff in Hdomain as [Hfb Hfc]. apply andb_true_iff in Hfc as [_ Hfc].
    exists (takeWhile (fun c => negb (c =? c_at)%N) s), b, c.
    repeat split; try assumption.
    + destruct (takeWhile _ s); [cbn in Hlen; lia|discriminate].
    + destruct b; [cbn in Hb; lia|discriminate].
  - intros (a & b & c & -> & Ha & Hb & Hc & Hfa & Hfb & Hfc).
    assert (forallb (fun c => negb (c =? c_at)%N) a = true) as Hnoat.
    { rewrite forallb_forall in *. intros x Hx. apply email_char_not_at; auto. }
    cbn [app].
    destruct (takeWhile_stop (fun c => negb (c =? c_at)%N) a c_at
                (b ++ c_dot :: c) Hnoat eq_refl) as [-> ->].
    rewrite !andb_true_iff, Nat.leb_le, has_tld_spec, forallb_app. cbn [forallb].
    rewrite Hfa, Hfb, Hfc. repeat split.
    + destruct a; [now destruct Ha|cbn; lia].
    + exists b, c. repeat split; [|exact Hc]. destruct b; [now destruct Hb|cbn; lia].
Qed.

(** ** Validation in the hardened handler *)

Section Validation.

Context {World : Type}.
Variable fetch : World -> HttpRequest -> Result HttpResponse * World.
Variable JSON_parse : jsstring -> Result json.
Variable parseInt : jsstring -> option Z.
Variable deletable : jsstring -> bool.

Local Abbreviation handler := (Hardened.handler fetch JSON_parse parseInt deletable).
Local Abbreviation process := (Hardened.process fetch JSON_parse parseInt).

(** The checks between the required fields and the verification step,
    in the order the handler makes them. *)
Lemma process_validation env fields files (n : Net World) :
  configured env = true -> missingRequired fields = false ->
  process env fields files n
  = if negb (includes Hardened.ALLOWED_FORM_TYPES (formTypeOf fields))
    then (Ok (400%Z, error_body "Invalid form type"), n)
    else if negb (EMAIL_REGEX_test (emailOf fields))
    then (Ok (400%Z, error_body "Invalid email format"), n)
    else if tooLong fields
    then (Ok (400%Z, error_body "Input too long"), n)
    else process env fields files n.
Proof.
  unfold configured, missingRequired. intros Hconf Hmiss.
  apply andb_true_iff in Hconf as [Hconf Hak].
  apply andb_true_iff in Hconf as [Hsd Hus].
  apply orb_false_iff in Hmiss as [Hft Hem].
  apply negb_false_iff in Hft, Hem.
  apply truthy_orS in Hsd as [Hsd Hsd'], Hus as [Hus Hus'], Hak as [Hak Hak'].
  apply truthy_orS in Hft as [Hft Hft'], Hem as [Hem Hem'].
  destruct (negb (includes Hardened.ALLOWED_FORM_TYPES (formTypeOf fields))) eqn:Hform;
    [|destruct (negb (EMAIL_REGEX_test (emailOf fields))) eqn:Hemail;
      [|destruct (tooLong fields) eqn:Hlong; [|reflexivity]]];
    unfold Hardened.process, formTypeOf, emailOf in *;
    rewrite Hsd, Hus, Hak, Hsd', Hus', Hak'; cbn [andb negb];
    rewrite Hft, Hem, Hft', Hem'; cbn [andb negb];
    rewrite ?Hform, ?Hemail, ?Hlong; reflexivity.
Qed.

(** A submission that is not accepted ends the [try] block without any
    outbound request. *)
Lemma process_not_accepted env fields files (n : Net World) :
  accepted env fields = false ->
  exists code b,
    process env fields files n = (Ok (code, b), n) /\ (code = 400 \/ code = 500)%Z.
Proof.
  intros Hacc.
  destruct (configured env) eqn:Hconf.
  - destruct (missingRequired fields) eqn:Hmiss.
    + destruct (process_missing fetch JSON_parse parseInt env fields files n Hmiss)
        as (code & b & Hp & Hc). destruct (Hc Hconf) as [-> ->]. eauto.
    + rewrite (process_validation _ _ _ _ Hconf Hmiss).
      unfold accepted in Hacc. rewrite Hconf, Hmiss in Hacc. cbn [negb andb] in Hacc.
      destruct (includes Hardened.ALLOWED_FORM_TYPES (formTypeOf fields));
        cbn [negb andb] in *; [|eauto].
      destruct (EMAIL_REGEX_test (emailOf fields)); cbn [negb andb] in *; [|eauto].
      destruct (tooLong fields); [eauto|discriminate].
  - unfold configured in Hconf. unfold Hardened.process.
    destruct (GORGIAS_SUBDOMAIN env) as [sd|]; [|eauto].
    destruct (GORGIAS_USERNAME env) as [us|]; [|eauto].
    destruct (GORGIAS_API_KEY env) as [ak|]; [|eauto].
    cbn [truthy] in Hconf. rewrite Hconf. cbn [negb]. eauto.
Qed.

(** X4: in a configured deployment a submission that holds both required
    fields is checked in a fixed order: a form type outside the allow-list
    is answered 400 "Invalid form type"; else an address that does not
    match the pattern 400 "Invalid email format"; else a field value longer
    than 10000 characters 400 "Input too long".  None of these answers is
    preceded by an outbound request. *)
Theorem validation_rejections env now req (st : State World) raw files :
  multipart req = Parsed raw files ->
  reachesParse env now req (rateLimitMap st) = true ->
  configured env = true ->
  missingRequired (flattenFields raw) = false ->
  (includes Hardened.ALLOWED_FORM_TYPES (formTypeOf (flattenFields raw)) = false ->
   status (handler env now req st).1 = Some 400%Z /\
   body (handler env now req st).1 = Some (error_body "Invalid form type") /\
   net (handler env now req st).2 = net st) /\
  (includes Hardened.ALLOWED_FORM_TYPES (formTypeOf (flattenFields raw)) = true ->
   EMAIL_REGEX_test (emailOf (flattenFields raw)) = false ->
   status (handler env now req st).1 = Some 400%Z /\
   body (handler env now req st).1 = Some (error_body "Invalid email format") /\
   net (handler env now req st).2 = net st) /\
  (includes Hardened.ALLOWED_FORM_TYPES (formTypeOf (flattenFields raw)) = true ->
   EMAIL_REGEX_test (emailOf (flattenFields raw)) = true ->
   tooLong (flattenFields raw) = true ->
   status (handler env now req st).1 = Some 400%Z /\
   body (handler env now req st).1 = Some (error_body "Input too long") /\
   net (handler env now req st).2 = net st).
Proof.
  intros Hparsed Hreach Hconf Hmiss.
  rewrite (handler_reached fetch JSON_parse parseInt deletable _ _ _ _ Hreach), Hparsed.
  cbn [fst snd net]. rewrite (process_validation _ _ _ _ Hconf Hmiss).
  split; [|split].
  - intros ->. cbn. auto.
  - intros -> ->. cbn. auto.
  - intros -> -> ->. cbn. auto.
Qed.

(** X5: the hardened handler touches the network only for a submission
    that got as far as parsing and passed every validation: whenever the
    state of the network differs after the handler, the body was parsed
    and the submission is an accepted one.  In particular no ticket is
    created, and no file uploaded, for anything else. *)
Theorem network_only_for_accepted env now req (st : State World) :
  net (handler env now req st).2 <> net st ->
  reachesParse env now req (rateLimitMap st) = true /\
  exists raw files,
    multipart req = Parsed raw files /\ accepted env (flattenFields raw) = true.
Proof.
  intros Hnet.
  destruct (reachesParse env now req (rateLimitMap st)) eqn:Hreach.
  - split; [reflexivity|].
    rewrite (handler_reached fetch JSON_parse parseInt deletable _ _ _ _ Hreach) in Hnet.
    destruct (multipart req) as [m|raw files]; [now destruct Hnet|].
    exists raw, files. split; [reflexivity|].
    destruct (accepted env (flattenFields raw)) eqn:Hacc; [reflexivity|].
    destruct (process_not_accepted env (flattenFields raw) files (net st) Hacc)
      as (code & b & Hp & _).
    cbn [snd net] in Hnet. rewrite Hp in Hnet. now destruct Hnet.
  - apply (handler_early fetch JSON_parse parseInt deletable) in Hreach as (_ & Hn & _).
    now destruct Hnet.
Qed.

End Validation.

Lemma validation_rejections_witness :
  status (Hardened.handler mock no_json no_int all_deletable demo_env 0 unknown_form idle).1
  = Some 400%Z /\
  body (Hardened.handler mock no_json no_int all_deletable demo_env 0 unknown_form idle).1
  = Some (error_body "Invalid form type") /\
  net (Hardened.handler mock no_json no_int all_deletable demo_env 0 unknown_form idle).2
  = net idle.
Proof.
  refine (proj1 (validation_rejections mock no_json no_int all_deletable demo_env 0
                   unknown_form idle _ _ eq_refl _ _ _) _);
    vm_compute; reflexivity.
Defined.

Lemma network_only_for_accepted_witness :
  reachesParse demo_env 0 submission (rateLimitMap idle) = true /\
  exists raw files,
    multipart submission = Parsed raw files /\
    accepted demo_env (flattenFields raw) = true.
Proof.
  apply (network_only_for_accepted mock no_json no_int all_deletable demo_env 0
           submission idle).
  vm_compute. discriminate.
Defined.

(** ** Status codes, quota, headers and outbound requests *)

Ltac header_lookup :=
  cbn [setHeader headers newResponse];
  repeat first
    [ rewrite lookup_insert_eq
    | rewrite lookup_insert_ne by (vm_compute; discriminate)
    | rewrite lookup_empty ];
  try reflexivity.

Section HandlerFacts.

Context {World : Type}.
Variable fetch : World -> HttpRequest -> Result HttpResponse * World.
Variable JSON_parse : jsstring -> Result json.
Variable parseInt : jsstring -> option Z.
Variable deletable : jsstring -> bool.

Local Abbreviation handler := (Hardened.handler fetch JSON_parse parseInt deletable).
Local Abbreviation process := (Hardened.process fetch JSON_parse parseInt).

(** X6: the hardened handler always sends a response, and its status is
    one of 200, 204, 400, 403, 405, 429, 500 and 502. *)
Theorem hardened_status_codes env now req (st : State World) :
  exists code,
    status (handler env now req st).1 = Some code /\
    In code [200; 204; 400; 403; 405; 429; 500; 502]%Z.
Proof.
  destruct (reachesParse env now req (rateLimitMap st)) eqn:Hreach.
  - rewrite (handler_reached fetch JSON_parse parseInt deletable _ _ _ _ Hreach).
    destruct (multipart req) as [m|raw files].
    + exists 500%Z. cbn. tauto.
    + cbn [fst].
      destruct (process env (flattenFields raw) files (net st)) as [[[code b]|m] n'] eqn:Hp;
        cbn [fst send status].
      * exists code. split; [reflexivity|].
        apply process_codes in Hp. cbn. lia.
      * exists 500%Z. cbn. tauto.
  - apply (handler_early fetch JSON_parse parseInt deletable) in Hreach
      as ([H|[H|[H|H]]] & _); eexists; (split; [exact H|cbn; tauto]).
Qed.

(** The rate-limit map after a request. *)
Lemma handler_rateLimitMap env now req (st : State World) :
  rateLimitMap (handler env now req st).2
  = if reachesRateLimit env req
    then (checkRateLimit now (clientIp req) (rateLimitMap st)).2
    else rateLimitMap st.
Proof.
  unfold reachesRateLimit, inAllowList, Hardened.handler, parseMultipart.
  destruct (str_eqb (method req) (lit "OPTIONS")) eqn:Hopt.
  { apply str_eqb_eq in Hopt. rewrite Hopt. reflexivity. }
  destruct (str_eqb (method req) (lit "POST")); cbn [negb andb]; [|reflexivity].
  destruct (origin req) as [o|]; cbn [truthy andb negb]; [|reflexivity].
  destruct (truthy_str o); cbn [andb negb]; [|reflexivity].
  destruct (includes (Hardened.allowedOrigins env) o); cbn [andb negb]; [|reflexivity].
  destruct (checkRateLimit now (clientIp req) (rateLimitMap st)) as [[|] m];
    cbn [fst snd negb]; [|reflexivity].
  destruct (multipart req) as [e|raw files]; [reflexivity|].
  destruct (Hardened.process _ _ _ _ _ _ _) as [[[code b]|e] n']; reflexivity.
Qed.

(** X8: the rate-limit map changes exactly when the request is a POST
    from an allowed origin, and then by the limiter's update for the
    client key: refused and invalid submissions count against the quota,
    preflights, other methods and foreign origins do not. *)
Theorem quota_consumed env now req (st : State World) :
  rateLimitMap (handler env now req st).2
  = if reachesRateLimit env req
    then (checkRateLimit now (clientIp req) (rateLimitMap st)).2
    else rateLimitMap st.
Proof. apply handler_rateLimitMap. Qed.

Lemma checkRateLimit_dom (now : Z) (ip : jsstring) (m : gmap jsstring RateRecord) :
  dom (checkRateLimit now ip m).2 = {[ip]} ∪ dom m.
Proof.
  unfold checkRateLimit.
  destruct (m !! ip) as [r|]; [destruct (_ >? _)%Z|]; cbn [snd];
    apply dom_insert_L.
Qed.

(** X9: records of the rate-limit map are never removed.  After any
    sequence of requests the map holds a record for every client it held
    before and for the client key of every POST from an allowed origin,
    and for no other key. *)
Theorem rate_records_accumulate env (traffic : list (Z * Request)) :
  forall st : State World,
    dom (rateLimitMap (serveAll fetch JSON_parse parseInt deletable env traffic st))
    = dom (rateLimitMap st) ∪ list_to_set (limitedClients env traffic).
Proof.
  induction traffic as [|[now req] traffic IH]; intros st.
  - cbn. now rewrite union_empty_r_L.
  - change (serveAll fetch JSON_parse parseInt deletable env ((now, req) :: traffic) st)
      with (serveAll fetch JSON_parse parseInt deletable env traffic
              (handler env now req st).2).
    rewrite IH, handler_rateLimitMap.
    unfold limitedClients. cbn [omap list_omap snd].
    fold (limitedClients env traffic).
    destruct (reachesRateLimit env req).
    + rewrite checkRateLimit_dom, list_to_set_cons.
      rewrite (union_comm_L {[clientIp req]} (dom (rateLimitMap st))).
      now rewrite union_assoc_L.
    + reflexivity.
Qed.

(** X10: every response of the hardened handler, whatever its status,
    carries the three fixed CORS headers; it carries
    [Access-Control-Allow-Origin] exactly when the request has a non-empty
    origin of the allow-list, the value being that origin (never a
    wildcard), together with [Vary: Origin]. *)
Theorem hardened_cors_headers env now req (st : State World) :
  headers (handler env now req st).1 !! lit "Access-Control-Allow-Origin"
  = hardenedAllowOrigin env req /\
  headers (handler env now req st).1 !! lit "Vary"
  = match hardenedAllowOrigin env req with
    | Some _ => Some (lit "Origin")
    | None => None
    end /\
  headers (handler env now req st).1 !! lit "Access-Control-Allow-Methods"
  = Some (lit "POST,OPTIONS") /\
  headers (handler env now req st).1 !! lit "Access-Control-Allow-Headers"
  = Some (lit "Content-Type") /\
  headers (handler env now req st).1 !! lit "Access-Control-Allow-Credentials"
  = Some (lit "true").
Proof.
  rewrite (handler_headers fetch JSON_parse parseInt deletable).
  unfold hardenedAllowOrigin, inAllowList, Hardened.sendCORS.
  destruct (origin req) as [o|]; cbn [truthy andb].
  - destruct (truthy_str o && includes (Hardened.allowedOrigins env) o);
      repeat split; header_lookup.
  - repeat split; header_lookup.
Qed.

End HandlerFacts.

Section GenericFacts.

Context {World : Type}.
Variable fetch : World -> HttpRequest -> Result HttpResponse * World.
Variable JSON_parse : jsstring -> Result json.

Lemma generic_process_codes env fields files (n n' : Net World) code b :
  Generic.process fetch JSON_parse env fields files n = (Ok (code, b), n') ->
  (code = 200 \/ code = 400 \/ code = 502)%Z.
Proof.
  unfold Generic.process.
  destruct (GORGIAS_SUBDOMAIN env) as [sd|]; [|discriminate].
  destruct (GORGIAS_USERNAME env) as [us|]; [|discriminate].
  destruct (GORGIAS_API_KEY env) as [ak|]; [|discriminate].
  destruct (negb _); [discriminate|].
  destruct (get fields (lit "formType")) as [ft|]; [|intros [= <- _ _]; lia].
  destruct (get fields (lit "email")) as [em|]; [|intros [= <- _ _]; lia].
  destruct (negb _); [intros [= <- _ _]; lia|].
  destruct (Generic.uploadFiles fetch sd us ak files n) as [[up rej] n2].
  unfold Generic.createTicket.
  destruct (post fetch _ n2) as [[resp|m] n3]; [|discriminate].
  destruct (negb (resp_ok resp)).
  - destruct (resp_text resp); [intros [= <- _ _]; lia|discriminate].
  - destruct (resp_json resp) as [td|]; cbn [bind]; [|discriminate].
    destruct (get_prop (Some td) "id") as [id|]; cbn [bind]; [|discriminate].
    destruct (get_prop (Some td) "uri") as [uri|]; cbn [bind]; [|discriminate].
    intros [= <- _ _]. lia.
Qed.

(** X7: the form-agnostic handler always sends a response, and its status
    is one of 200, 204, 400, 405, 500 and 502: it never answers 403 or
    429. *)
Theorem generic_status_codes env req (st : State World) :
  exists code,
    status (Generic.handler fetch JSON_parse env req st).1 = Some code /\
    In code [200; 204; 400; 405; 500; 502]%Z.
Proof.
  unfold Generic.handler, parseMultipart.
  destruct (str_eqb (method req) (lit "OPTIONS")); [exists 204%Z; cbn; tauto|].
  destruct (negb _); [exists 405%Z; cbn; tauto|].
  destruct (multipart req) as [m|raw files]; [exists 500%Z; cbn; tauto|].
  destruct (Generic.process fetch JSON_parse env (flattenFields raw) files (net st))
    as [[[code b]|m] n'] eqn:Hp; cbn [fst send status].
  - exists code. split; [reflexivity|].
    apply generic_process_codes in Hp. cbn. lia.
  - exists 500%Z. cbn. tauto.
Qed.

Lemma generic_handler_headers env req (st : State World) :
  headers (Generic.handler fetch JSON_parse env req st).1
  = headers (Generic.sendCORS env req newResponse).
Proof.
  unfold Generic.handler, parseMultipart.
  repeat match goal with
         | |- context [if ?b then _ else _] => destruct b
         | |- context [let (_, _) := ?p in _] => destruct p
         | |- context [match ?p with ParseError _ _ => _ | _ => _ end] => destruct p
         | |- context [match ?p with Ok _ => _ | Err _ => _ end] => destruct p
         end; try reflexivity.
Qed.

(** X11: every response of the form-agnostic handler carries the three
    fixed CORS headers, and [Access-Control-Allow-Origin] exactly when the
    origin is, as it stands, one of the comma-separated pieces of the
    configured list (which this handler does not trim); the value is that
    origin, with [Vary: Origin]. *)
Theorem generic_cors_headers env req (st : State World) :
  headers (Generic.handler fetch JSON_parse env req st).1
    !! lit "Access-Control-Allow-Origin"
  = genericAllowOrigin env req /\
  headers (Generic.handler fetch JSON_parse env req st).1 !! lit "Vary"
  = match genericAllowOrigin env req with
    | Some _ => Some (lit "Origin")
    | None => None
    end /\
  headers (Generic.handler fetch JSON_parse env req st).1
    !! lit "Access-Control-Allow-Methods"
  = Some (lit "POST,OPTIONS") /\
  headers (Generic.handler fetch JSON_parse env req st).1
    !! lit "Access-Control-Allow-Headers"
  = Some (lit "Content-Type") /\
  headers (Generic.handler fetch JSON_parse env req st).1
    !! lit "Access-Control-Allow-Credentials"
  = Some (lit "true").
Proof.
  rewrite generic_handler_headers.
  unfold genericAllowOrigin, Generic.sendCORS.
  destruct (origin req) as [o|].
  - destruct (includes (Generic.allowedOrigins env) o); repeat split; header_lookup.
  - repeat split; header_lookup.
Qed.

End GenericFacts.

(** ** Where requests and credentials go *)

Section Outgoing.

Context {World : Type}.
Variable fetch : World -> HttpRequest -> Result HttpResponse * World.
Variable JSON_parse : jsstring -> Result json.
Variable parseInt : jsstring -> option Z.
Variable deletable : jsstring -> bool.

Local Abbreviation handler := (Hardened.handler fetch JSON_parse parseInt deletable).
Local Abbreviation process := (Hardened.process fetch JSON_parse parseInt).

Lemma captcha_sent env fields (n : Net World) :
  exists extra,
    sent (Hardened.captcha fetch env fields n).2 = sent n ++ extra /\
    Forall (expectedRequest env) extra.
Proof.
  unfold Hardened.captcha.
  destruct (TURNSTILE_SECRET_KEY env) as [secret|];
    [|exists []; now rewrite app_nil_r].
  destruct (get fields (lit "turnstileToken")) as [token|];
    [|exists []; now rewrite app_nil_r].
  destruct (truthy_str secret && truthy_str token);
    [|exists []; now rewrite app_nil_r].
  unfold post.
  destruct (fetch (world n) _) as [[resp|m] w]; cbn [snd sent].
  - eexists [_]. split.
    + destruct (resp_json resp) as [v|]; cbn [bind]; [|reflexivity].
      destruct (get_prop (Some v) "success") as [[s|]|]; [destruct (truthy_json s)| |];
        reflexivity.
    + constructor; [|constructor]. left. split; reflexivity.
  - eexists [_]. split; [reflexivity|].
    constructor; [|constructor]. left. split; reflexivity.
Qed.

Lemma createTicket_sent env subdomain username apiKey fields formType email
    up rej (n : Net World) :
  exists req,
    url req = ticketsUrl (lit "https://" ++ subdomain ++ lit ".gorgias.com/api") /\
    basic_auth req = Some (username, apiKey) /\
    sent (Hardened.createTicket fetch JSON_parse parseInt env subdomain username apiKey
            fields formType email up rej n).2 = sent n ++ [req].
Proof.
  unfold Hardened.createTicket, post. eexists. split; [|split]; cycle 2.
  - destruct (fetch (world n) _) as [[resp|m] w]; [|reflexivity].
    destruct (negb (resp_ok resp)); [destruct (resp_text resp)|]; reflexivity.
  - reflexivity.
  - reflexivity.
Qed.

Lemma process_sent env fields files (n : Net World) :
  exists extra,
    sent (process env fields files n).2 = sent n ++ extra /\
    Forall (expectedRequest env) extra.
Proof.
  destruct (accepted env fields) eqn:Hacc.
  - rewrite (process_accepted fetch JSON_parse parseInt _ _ _ _ Hacc).
    destruct (captcha_sent env (sanitizeSubject fields) n) as (e1 & H1 & F1).
    destruct (Hardened.captcha fetch env (sanitizeSubject fields) n) as [[d|] n1];
      cbn [snd] in *; [eauto|].
    rewrite (uploadFiles_flat fetch).
    destruct (upload_loop_accounting fetch (subdomainOf env) (usernameOf env)
                (apiKeyOf env) (allFiles files) [] [] n1) as (up & rej & n2 & -> & _ & H2).
    destruct (createTicket_sent env (subdomainOf env) (usernameOf env) (apiKeyOf env)
                (sanitizeSubject fields) (formTypeOf fields) (emailOf fields) up rej n2)
      as (req & Hurl & Hauth & H3).
    exists (e1 ++ map (uploadRequest (subdomainOf env) (usernameOf env) (apiKeyOf env))
                    (allFiles files) ++ [req]).
    split.
    + rewrite H3, H2, H1. now rewrite <- !app_assoc.
    + apply Forall_app. split; [exact F1|].
      apply Forall_app. split.
      * apply Forall_forall. intros r Hr. apply list_elem_of_In, in_map_iff in Hr
          as (f & <- & _). right. split; [reflexivity|]. left. reflexivity.
      * constructor; [|constructor]. right. split; [exact Hauth|]. right. exact Hurl.
  - destruct (process_not_accepted fetch JSON_parse parseInt env fields files n Hacc)
      as (code & b & -> & _).
    exists []. now rewrite app_nil_r.
Qed.

(** X12: the requests the hardened handler sends while serving one
    request are appended to the log, and each is either the verification
    call to the fixed verification URL, sent without credentials, or a
    call to the upload or the ticket URL of the configured subdomain with
    the configured credentials.  Credentials go nowhere else, and no
    request goes to an address taken from the submission. *)
Theorem outbound_requests env now req (st : State World) :
  exists extra,
    sent (net (handler env now req st).2) = sent (net st) ++ extra /\
    Forall (expectedRequest env) extra.
Proof.
  destruct (reachesParse env now req (rateLimitMap st)) eqn:Hreach.
  - rewrite (handler_reached fetch JSON_parse parseInt deletable _ _ _ _ Hreach).
    destruct (multipart req) as [m|raw files]; cbn [snd net].
    + exists []. now rewrite app_nil_r.
    + apply process_sent.
  - apply (handler_early fetch JSON_parse parseInt deletable) in Hreach as (_ & -> & _).
    exists []. now rewrite app_nil_r.
Qed.

End Outgoing.

(** ** Subject, verification and customer name *)

Lemma get_set_eq (fields : Fields) (key v : jsstring) :
  get (set fields key v) key = Some v.
Proof.
  induction fields as [|[k old] rest IH]; cbn [set get].
  - unfold str_eqb. now rewrite bool_decide_eq_true_2.
  - destruct (str_eqb k key) eqn:Hk; cbn [get]; rewrite Hk; [reflexivity|exact IH].
Qed.

Lemma get_set_ne (fields : Fields) (key v key' : jsstring) :
  key' <> key -> get (set fields key v) key' = get fields key'.
Proof.
  intros Hne. induction fields as [|[k old] rest IH]; cbn [set get].
  - unfold str_eqb. rewrite bool_decide_eq_false_2; [reflexivity|congruence].
  - destruct (str_eqb k key) eqn:Hk; cbn [get].
    + apply str_eqb_eq in Hk. subst k.
      unfold str_eqb. rewrite bool_decide_eq_false_2; [reflexivity|congruence].
    + destruct (str_eqb k key'); [reflexivity|exact IH].
Qed.

Lemma sanitizeSubject_other (fields : Fields) (key : jsstring) :
  key <> lit "subject" -> get (sanitizeSubject fields) key = get fields key.
Proof.
  intros Hne. unfold sanitizeSubject.
  destruct (get fields (lit "subject")) as [s|]; [|reflexivity].
  destruct (truthy_str s); [|reflexivity].
  now apply get_set_ne.
Qed.

Lemma escapeHtml_truthy s : truthy_str s = true -> truthy_str (escapeHtml s) = true.
Proof.
  rewrite escapeHtml_flat_map. destruct s as [|c t]; [discriminate|]. intros _.
  cbn [flat_map]. unfold escapeChar.
  repeat match goal with |- context [if ?b then _ else _] => destruct b end;
    reflexivity.
Qed.

(** X13: the subject of the ticket.  A non-empty [subject] field is
    escaped and then cut to its first 200 characters, so the subject sent
    has at most 200 characters, none of them a markup character; without
    it the [customSubject] field is used as submitted, and otherwise the
    formatted form type followed by the customer name.  Sanitising
    touches no other field. *)
Theorem subject_resolution (fields : Fields) (formType : jsstring) (c : Customer) :
  subjectLine (sanitizeSubject fields) formType c
  = (if truthy (get fields (lit "subject"))
     then substring0 200 (escapeHtml (givenSubject fields))
     else fallbackSubject (sanitizeSubject fields) formType c) /\
  fallbackSubject (sanitizeSubject fields) formType c = fallbackSubject fields formType c /\
  (length (substring0 200 (escapeHtml (givenSubject fields))) <= 200)%nat /\
  forallb (fun x => negb (is_markup x))
    (substring0 200 (escapeHtml (givenSubject fields))) = true.
Proof.
  split; [|split; [|split]].
  - unfold subjectLine, fallbackSubject, givenSubject, sanitizeSubject.
    destruct (get fields (lit "subject")) as [s|] eqn:Hs; cbn [truthy].
    + destruct (truthy_str s) eqn:Ht.
      * rewrite get_set_eq. cbn [orS]. rewrite Ht.
        assert (truthy_str (substring0 200 (escapeHtml s)) = true) as ->; [|reflexivity].
        apply escapeHtml_truthy in Ht. destruct (escapeHtml s); [discriminate|reflexivity].
      * rewrite Hs. cbn [orS]. now rewrite Ht.
    + rewrite Hs. reflexivity.
  - unfold fallbackSubject. rewrite sanitizeSubject_other; [reflexivity|].
    vm_compute. discriminate.
  - unfold substring0. rewrite length_firstn. lia.
  - apply forallb_forall. intros x Hx. unfold substring0 in Hx.
    assert (In x (escapeHtml (givenSubject fields))) as Hin.
    { rewrite <- (firstn_skipn 200). apply in_or_app. now left. }
    now rewrite (escapeHtml_no_markup _ _ Hin).
Qed.

Section Verification.

Context {World : Type}.
Variable fetch : World -> HttpRequest -> Result HttpResponse * World.
Variable JSON_parse : jsstring -> Result json.
Variable parseInt : jsstring -> option Z.
Variable deletable : jsstring -> bool.

Local Abbreviation handler := (Hardened.handler fetch JSON_parse parseInt deletable).
Local Abbreviation process := (Hardened.process fetch JSON_parse parseInt).

Lemma captcha_skipped env fields (n : Net World) :
  truthy (TURNSTILE_SECRET_KEY env) && truthy (get fields (lit "turnstileToken")) = false ->
  Hardened.captcha fetch env fields n = (None, n).
Proof.
  unfold Hardened.captcha.
  destruct (TURNSTILE_SECRET_KEY env) as [secret|]; [|reflexivity].
  destruct (get fields (lit "turnstileToken")) as [token|]; [|reflexivity].
  cbn [truthy]. now intros ->.
Qed.

Lemma process_without_token env fields files (n : Net World) :
  truthy (get fields (lit "turnstileToken")) = false ->
  process env fields files n = process (withoutVerification env) fields files n.
Proof.
  intros Htok. unfold Hardened.process. cbn [withoutVerification
    GORGIAS_SUBDOMAIN GORGIAS_USERNAME GORGIAS_API_KEY].
  rewrite !captcha_skipped; [reflexivity|reflexivity|].
  rewrite sanitizeSubject_other by (vm_compute; discriminate).
  rewrite Htok. apply andb_false_r.
Qed.

(** X14: bot verification is applied only to submissions that carry a
    token.  A request without a non-empty [turnstileToken] field is
    handled, in every respect, as it would be by a deployment with no
    verification secret configured: no verification call is made and the
    submission proceeds. *)
Theorem verification_skipped_without_token env now req (st : State World) :
  hasToken req = false ->
  handler env now req st = handler (withoutVerification env) now req st.
Proof.
  unfold hasToken, Hardened.handler, parseMultipart.
  destruct (multipart req) as [m|raw files]; [reflexivity|].
  intros Htok. rewrite (process_without_token env _ files (net st) Htok).
  reflexivity.
Qed.

End Verification.

Lemma verification_skipped_without_token_witness :
  Hardened.handler mock no_json no_int all_deletable guarded_env 0 plain_submission idle
  = Hardened.handler mock no_json no_int all_deletable (withoutVerification guarded_env)
      0 plain_submission idle.
Proof.
  apply (verification_skipped_without_token mock no_json no_int all_deletable
           guarded_env 0 plain_submission idle).
  vm_compute. reflexivity.
Defined.

Lemma split_on_nonempty c s : split_on c s <> [].
Proof.
  destruct s as [|x t]; cbn [split_on]; [discriminate|].
  destruct (x =? c)%N; [discriminate|]. destruct (split_on c t); discriminate.
Qed.

Lemma split_on_cons c x t :
  split_on c (x :: t)
  = if (x =? c)%N then [] :: split_on c t
    else (x :: hd [] (split_on c t)) :: tl (split_on c t).
Proof.
  cbn [split_on]. destruct (x =? c)%N; [reflexivity|].
  destruct (split_on c t) eqn:H; [|reflexivity].
  now apply split_on_nonempty in H.
Qed.

Lemma split_on_hd c s :
  hd [] (split_on c s) = takeWhile (fun x => negb (x =? c)%N) s.
Proof.
  induction s as [|x t IH]; [reflexivity|].
  rewrite split_on_cons. cbn [takeWhile].
  destruct (x =? c)%N; cbn [negb hd]; [reflexivity|]. now rewrite IH.
Qed.

Lemma join_cons sep p rest :
  join sep (p :: rest) = p ++ match rest with [] => [] | _ => sep ++ join sep rest end.
Proof. destruct rest; cbn [join]; [now rewrite app_nil_r|reflexivity]. Qed.

Lemma split_on_tl c s :
  includes_char c s = false -> tl (split_on c s) = [].
Proof.
  induction s as [|x t IH]; [reflexivity|].
  unfold includes_char in *. cbn [existsb]. rewrite split_on_cons.
  destruct (x =? c)%N; cbn [orb]; [discriminate|]. exact IH.
Qed.

Lemma join_cons_more sep p rest :
  rest <> [] -> join sep (p :: rest) = p ++ sep ++ join sep rest.
Proof. destruct rest; [congruence|reflexivity]. Qed.

(** The pieces of a split, joined by the separator, give the string
    back. *)
Lemma join_split_on c s : join [c] (split_on c s) = s.
Proof.
  induction s as [|x t IH]; [reflexivity|].
  rewrite split_on_cons. destruct (x =? c)%N eqn:Hx.
  - apply N.eqb_eq in Hx. subst x.
    rewrite join_cons_more by apply split_on_nonempty. now rewrite IH.
  - pose proof (split_on_nonempty c t) as Hne.
    destruct (split_on c t) as [|w ws]; [congruence|].
    cbn [hd tl]. rewrite join_cons in *. rewrite <- app_comm_cons. f_equal. exact IH.
Qed.

Lemma split_on_recompose c s :
  s = hd [] (split_on c s)
      ++ (if includes_char c s then c :: join [c] (tl (split_on c s)) else []).
Proof.
  induction s as [|x t IH]; [reflexivity|].
  rewrite split_on_cons. unfold includes_char in *. cbn [existsb].
  destruct (x =? c)%N eqn:Hx; cbn [orb hd tl app].
  - apply N.eqb_eq in Hx. subst x. now rewrite join_split_on.
  - f_equal. exact IH.
Qed.

Lemma takeWhile_before c s :
  includes_char c (takeWhile (fun x => negb (x =? c)%N) s) = false.
Proof.
  induction s as [|x t IH]; [reflexivity|]. cbn [takeWhile].
  destruct (x =? c)%N eqn:Hx; cbn [negb]; [reflexivity|].
  unfold includes_char in *. cbn [existsb]. now rewrite Hx, IH.
Qed.

Lemma orStr_nil a : orStr a [] = a.
Proof. unfold orStr. now destruct a. Qed.

Lemma orStr_nonempty a b : b <> [] -> orStr a b <> [].
Proof. unfold orStr. destruct a; cbn; [tauto|discriminate]. Qed.

Lemma orS_falsy v b : truthy v = false -> orS v b = b.
Proof. unfold orS. destruct v as [s|]; cbn; [now intros ->|reflexivity]. Qed.

Lemma truthy_str_orS a b : truthy_str (orS a b) = truthy a || truthy_str b.
Proof. unfold orS. destruct a as [s|]; cbn; [destruct (truthy_str s) eqn:H; now rewrite ?H|reflexivity]. Qed.

Lemma falsy_nil s : truthy_str s = false -> s = [].
Proof. now destruct s. Qed.

Lemma trim_leading_space s : trim (lit " " ++ s) = trim s.
Proof. reflexivity. Qed.

(** The name of the customer, case by case. *)
Lemma customer_fullName (fields : Fields) (email : jsstring) :
  fullName (customerInfo fields email)
  = if truthy_str (givenName fields) then givenName fields
    else if truthy_str (trim (orS (get fields (lit "lastName")) []))
    then trim (orS (get fields (lit "lastName")) [])
    else takeWhile (fun c => negb (c =? c_at)%N) email.
Proof.
  unfold customerInfo. cbn [fullName]. fold (givenName fields).
  unfold orStr at 1. destruct (truthy_str (givenName fields)) eqn:Hname; [reflexivity|].
  pose proof Hname as Hparts. unfold givenName in Hparts.
  rewrite !truthy_str_orS in Hparts. cbn [truthy_str] in Hparts.
  rewrite orb_false_r in Hparts.
  apply orb_false_iff in Hparts as [_ Hparts].
  apply orb_false_iff in Hparts as [_ Hfirst].
  apply falsy_nil in Hname. rewrite Hname, (orS_falsy _ _ Hfirst).
  cbn [split_on hd tl join]. rewrite !orStr_nil. cbn [app].
  rewrite (trim_leading_space (orS (get fields (lit "lastName")) [])).
  unfold orStr. now rewrite split_on_hd.
Qed.

(** X15: the name of the customer on a ticket is the name the submission
    gives ([name], else [fullName], else [firstName]) when there is one;
    else its [lastName], trimmed, when that is not blank; else the part of
    the address before the [@].  Once the address has passed the pattern
    that part is not empty, and so the name never is. *)
Theorem customer_name_nonempty (fields : Fields) (email : jsstring) :
  EMAIL_REGEX_test email = true ->
  fullName (customerInfo fields email)
  = (if truthy_str (givenName fields) then givenName fields
     else if truthy_str (trim (orS (get fields (lit "lastName")) []))
     then trim (orS (get fields (lit "lastName")) [])
     else takeWhile (fun c => negb (c =? c_at)%N) email) /\
  takeWhile (fun c => negb (c =? c_at)%N) email <> [] /\
  fullName (customerInfo fields email) <> [].
Proof.
  intros Hmail.
  assert (takeWhile (fun c => negb (c =? c_at)%N) email <> []) as Hlocal.
  { unfold EMAIL_REGEX_test in Hmail.
    destruct (dropWhile _ email); [discriminate|].
    apply andb_true_iff in Hmail as [Hmail _].
    apply andb_true_iff in Hmail as [Hmail _].
    apply andb_true_iff in Hmail as [Hmail _].
    destruct (takeWhile _ email); [discriminate|discriminate]. }
  split; [apply customer_fullName|]. split; [exact Hlocal|].
  rewrite customer_fullName.
  destruct (truthy_str (givenName fields)) eqn:Hname;
    [intros H; rewrite H in Hname; discriminate|].
  destruct (truthy_str (trim _)) eqn:Hlast;
    [intros H; rewrite H in Hlast; discriminate|exact Hlocal].
Qed.

Lemma customer_name_nonempty_witness :
  fullName (customerInfo [(lit "lastName", Some (lit " Lee "))] (lit "jane@shop.example"))
  = lit "Lee" /\
  fullName (customerInfo [] (lit "jane@shop.example")) = lit "jane".
Proof.
  split.
  - rewrite (proj1 (customer_name_nonempty [(lit "lastName", Some (lit " Lee "))]
                      (lit "jane@shop.example") eq_refl)).
    reflexivity.
  - rewrite (proj1 (customer_name_nonempty [] (lit "jane@shop.example") eq_refl)).
    reflexivity.
Defined.

(** X16: when the submission gives neither a first nor a last name, both
    are cut from the name it gives at the first space: the first name is
    what precedes it and holds no space, the last name is everything
    after it, further spaces included, so that the two recompose the
    name; a name without a space is the first name, with an empty last
    name. *)
Theorem customer_name_split (fields : Fields) (email : jsstring) :
  truthy (get fields (lit "firstName")) = false ->
  truthy (get fields (lit "lastName")) = false ->
  givenName fields
  = firstName (customerInfo fields email)
      ++ (if includes_char c_space (givenName fields)
          then c_space :: lastName (customerInfo fields email) else []) /\
  includes_char c_space (firstName (customerInfo fields email)) = false /\
  (if includes_char c_space (givenName fields) then True
   else lastName (customerInfo fields email) = []).
Proof.
  intros Hfirst Hlast. unfold customerInfo. cbn [firstName lastName].
  fold (givenName fields).
  rewrite (orS_falsy _ _ Hfirst), (orS_falsy _ _ Hlast), !orStr_nil.
  split; [|split].
  - apply split_on_recompose.
  - rewrite split_on_hd. apply takeWhile_before.
  - destruct (includes_char c_space (givenName fields)) eqn:Hsp; [exact I|].
    now rewrite (split_on_tl _ _ Hsp).
Qed.

Lemma customer_name_split_witness :
  givenName named_fields
  = firstName (customerInfo named_fields (lit "jane@shop.example"))
      ++ (if includes_char c_space (givenName named_fields)
          then c_space :: lastName (customerInfo named_fields (lit "jane@shop.example"))
          else []) /\
  includes_char c_space (firstName (customerInfo named_fields (lit "jane@shop.example")))
  = false /\
  (if includes_char c_space (givenName named_fields) then True
   else lastName (customerInfo named_fields (lit "jane@shop.example")) = []).
Proof.
  apply (customer_name_split named_fields (lit "jane@shop.example"));
    vm_compute; reflexivity.
Defined.

(** ** Tags given as a comma-separated list *)

Lemma includes_char_app c a b :
  includes_char c (a ++ b) = includes_char c a || includes_char c b.
Proof. unfold includes_char. apply existsb_app. Qed.

Lemma split_on_no_sep c s p :
  In p (split_on c s) -> includes_char c p = false.
Proof.
  revert p. induction s as [|x t IH]; intros p.
  - cbn. intros [<-|[]]. reflexivity.
  - rewrite split_on_cons. pose proof (split_on_nonempty c t) as Hne.
    destruct (x =? c)%N eqn:Hx.
    + intros [<-|Hp]; [reflexivity|now apply IH].
    + destruct (split_on c t) as [|w ws]; [congruence|]. cbn [hd tl].
      intros [<-|Hp].
      * unfold includes_char. cbn [existsb]. rewrite Hx. apply (IH w). now left.
      * apply IH. now right.
Qed.

Lemma commaTags_omap (pieces : list jsstring) :
  filter (fun t => truthy_str t = true) (map trim pieces) = omap tagOf pieces.
Proof.
  induction pieces as [|p pieces IH]; [reflexivity|].
  cbn [map omap list_omap]. fold (omap tagOf pieces). unfold tagOf at 1.
  rewrite filter_cons, IH.
  destruct (truthy_str (trim p)) eqn:Hp.
  - rewrite decide_True by reflexivity. reflexivity.
  - rewrite decide_False by discriminate. reflexivity.
Qed.

(** X17: the tags read from a comma-separated [tags] field.  The field is
    cut at its commas into pieces that hold no comma and that, joined by
    commas, give the field back; the tags are these pieces, trimmed, in
    their order, the blank ones left out.  So every tag is non-empty, has
    no white space at either end and holds no comma, and there is no tag
    exactly when every piece is blank. *)
Theorem comma_tags_clean (tags : jsstring) :
  join (lit ",") (split_on c_comma tags) = tags /\
  Forall (fun piece => includes_char c_comma piece = false) (split_on c_comma tags) /\
  commaTags tags = omap tagOf (split_on c_comma tags) /\
  Forall (fun t => t <> [] /\ trim t = t /\ includes_char c_comma t = false)
    (commaTags tags) /\
  (commaTags tags = []
   <-> Forall (fun piece => trim piece = []) (split_on c_comma tags)).
Proof.
  assert (Forall (fun piece => includes_char c_comma piece = false)
            (split_on c_comma tags)) as Hpieces.
  { apply Forall_forall. intros piece Hin. apply list_elem_of_In in Hin.
    now apply split_on_no_sep in Hin. }
  assert (commaTags tags = omap tagOf (split_on c_comma tags)) as Heq
      by apply commaTags_omap.
  split; [apply join_split_on|]. split; [exact Hpieces|]. split; [exact Heq|]. split.
  - apply Forall_forall. intros t Ht. rewrite Heq in Ht.
    apply list_elem_of_omap in Ht as (piece & Hpiece & Htag).
    unfold tagOf in Htag. destruct (truthy_str (trim piece)) eqn:Htr; [|discriminate].
    injection Htag as <-. split; [|split].
    + intros H. rewrite H in Htr. discriminate.
    + apply trim_idempotent.
    + rewrite Forall_forall in Hpieces. specialize (Hpieces piece Hpiece).
      destruct (trim_decomp piece) as (pre & post & Hdec & _).
      rewrite Hdec, !includes_char_app in Hpieces.
      apply orb_false_iff in Hpieces as [_ Hpieces].
      now apply orb_false_iff in Hpieces as [Hpieces _].
  - rewrite Heq. clear. induction (split_on c_comma tags) as [|p l IH].
    + split; [constructor|reflexivity].
    + cbn [omap list_omap]. fold (omap tagOf l). unfold tagOf at 1.
      destruct (truthy_str (trim p)) eqn:Hp.
      * split; [discriminate|]. intros H. apply Forall_cons in H as [H _].
        rewrite H in Hp. discriminate.
      * rewrite IH. apply falsy_nil in Hp. split.
        -- intros H. now constructor.
        -- intros H. now apply Forall_cons in H as [_ H].
Qed.

(** ** The file filter *)

Lemma includes_In (arr : list jsstring) (x : jsstring) :
  includes arr x = true <-> In x arr.
Proof.
  unfold includes. rewrite existsb_exists. split.
  - intros (y & Hy & Heq). apply str_eqb_eq in Heq. now subst.
  - intros Hx. exists x. split; [exact Hx|]. unfold str_eqb.
    now apply bool_decide_eq_true_2.
Qed.

(** X18: whatever the setting of [ALLOWED_FILE_TYPES], the list of
    allowed types is never empty, so the filter never accepts every file:
    a file is kept exactly when it declares a non-empty type that equals
    one of the entries.  The entries of a configured list are the pieces
    between its commas as they stand, untrimmed; with the variable unset
    they are the twelve default types. *)
Theorem file_filter_spec (setting mimetype : option jsstring) :
  allowedFileTypes setting <> [] /\
  (fileFilter setting mimetype = true
   <-> exists m, mimetype = Some m /\ m <> [] /\ In m (allowedFileTypes setting)) /\
  (forall s m, setting = Some s ->
     In m (allowedFileTypes setting) -> includes_char c_comma m = false) /\
  allowedFileTypes None = defaultFileTypes.
Proof.
  assert (allowedFileTypes setting <> []) as Hne.
  { destruct setting as [s|]; [apply split_on_nonempty|discriminate]. }
  split; [exact Hne|split; [|split; [|reflexivity]]].
  - unfold fileFilter. destruct (allowedFileTypes setting) as [|a l] eqn:Hl; [congruence|].
    cbn [length Nat.eqb]. destruct mimetype as [m|].
    + rewrite andb_true_iff, includes_In. split.
      * intros [Hm Hin]. exists m. repeat split; [|exact Hin].
        destruct m; [discriminate|discriminate].
      * intros (m' & [= <-] & Hm & Hin). split; [|exact Hin].
        destruct m; [congruence|reflexivity].
    + split; [discriminate|]. intros (m & [=] & _).
  - intros s m -> Hin. now apply split_on_no_sep in Hin.
Qed.

(** ** The markup of the ticket body *)

Lemma occurrences_app c a b : occurrences c (a ++ b) = (occurrences c a + occurrences c b)%nat.
Proof. apply count_occ_app. Qed.

Lemma occurrences_escaped c s : is_markup c = true -> occurrences c (escapeHtml s) = 0%nat.
Proof.
  intros Hc. apply count_occ_not_In. intros Hin.
  apply escapeHtml_no_markup in Hin. congruence.
Qed.

Lemma markup_cases c :
  is_markup c = true -> c = c_lt \/ c = c_gt \/ c = c_dq \/ c = c_sq.
Proof.
  unfold is_markup. rewrite !orb_true_iff, !N.eqb_eq. tauto.
Qed.

Lemma renderField_markup c kv :
  is_markup c = true -> occurrences c (Hardened.renderField kv) = perField c.
Proof.
  intros Hc. unfold Hardened.renderField.
  destruct (_ || _); unfold longBlock, shortRow;
    rewrite !occurrences_app, !(occurrences_escaped c _ Hc);
    destruct (markup_cases c Hc) as [-> | [-> | [-> | ->]]]; vm_compute; reflexivity.
Qed.

Lemma rendered_markup c (data : list (jsstring * jsstring)) :
  is_markup c = true ->
  occurrences c (concat (map Hardened.renderField data)) = (perField c * length data)%nat.
Proof.
  intros Hc. induction data as [|kv data IH]; cbn [map concat length].
  - cbn. lia.
  - rewrite occurrences_app, IH, (renderField_markup c kv Hc). lia.
Qed.

(** X19: the markup of the body the hardened renderer produces does not
    depend on what was submitted, only on how many fields are rendered:
    with [n] of them the body holds [2 + 6 n] characters [<], as many
    [>] and as many double quotes (four each for the placeholder body
    when [n = 0]), and two single quotes, all of them the template's
    own. *)
Theorem hardened_body_markup (formType : jsstring) (fields : Fields) (c : N) :
  is_markup c = true ->
  occurrences c (Hardened.generateGenericTicketBody formType fields)
  = perBody c (length (dataFields Hardened.RESERVED_FIELDS fields)).
Proof.
  intros Hc. unfold Hardened.generateGenericTicketBody.
  destruct (length (dataFields Hardened.RESERVED_FIELDS fields) =? 0)%nat eqn:Hn.
  - apply Nat.eqb_eq in Hn. rewrite Hn.
    destruct (markup_cases c Hc) as [-> | [-> | [-> | ->]]]; vm_compute; reflexivity.
  - rewrite fold_left_append, !occurrences_app, (rendered_markup c _ Hc).
    unfold perBody, perField. rewrite Hn.
    destruct (markup_cases c Hc) as [-> | [-> | [-> | ->]]];
      change (occurrences _ html_open) with 1%nat || change (occurrences _ html_open) with 2%nat;
      change (occurrences _ html_close) with 1%nat || change (occurrences _ html_close) with 0%nat;
      cbn [N.eqb Pos.eqb c_lt c_gt c_dq c_sq]; lia.
Qed.

Lemma hardened_body_markup_witness :
  occurrences c_lt
    (Hardened.generateGenericTicketBody (lit "contact-form")
       [(lit "message", Some (lit "<script>alert('x')</script>"))])
  = perBody c_lt
      (length (dataFields Hardened.RESERVED_FIELDS
                 [(lit "message", Some (lit "<script>alert('x')</script>"))])).
Proof.
  apply (hardened_body_markup (lit "contact-form")
           [(lit "message", Some (lit "<script>alert('x')</script>"))] c_lt).
  vm_compute. reflexivity.
Defined.

(** ** The key of the rate limiter *)

Section ClientKey.

Context {World : Type}.
Variable fetch : World -> HttpRequest -> Result HttpResponse * World.
Variable JSON_parse : jsstring -> Result json.
Variable parseInt : jsstring -> option Z.
Variable deletable : jsstring -> bool.

Local Abbreviation handler := (Hardened.handler fetch JSON_parse parseInt deletable).

Lemma fresh_client_passes env now req (st : State World) :
  (reachesRateLimit env req = true -> rateLimitMap st !! clientIp req = None) ->
  status (handler env now req st).1 <> Some 429%Z.
Proof.
  intros Hfresh H429.
  apply (handler_429 fetch JSON_parse parseInt deletable) in H429.
  unfold rateLimited in H429. apply andb_true_iff in H429 as [Hreach Hlim].
  rewrite checkRateLimit_open in Hlim by (left; now apply Hfresh).
  discriminate.
Qed.

(** X20: the limiter counts per client key, which is the first entry of
    [X-Forwarded-For] when the request declares a non-blank one.
    Requests whose keys are pairwise distinct and new to the map are
    never answered 429, however many they are and however close in
    time. *)
Theorem distinct_clients_never_limited env (traffic : list (Z * Request)) :
  forall st : State World,
    NoDup (limitedClients env traffic) ->
    (forall ip, In ip (limitedClients env traffic) -> rateLimitMap st !! ip = None) ->
    Forall (fun res => status res <> Some 429%Z)
      (responses fetch JSON_parse parseInt deletable env traffic st).
Proof.
  induction traffic as [|[now req] traffic IH]; intros st Hnd Hnew; [constructor|].
  cbn [responses fst snd].
  pose proof (handler_rateLimitMap fetch JSON_parse parseInt deletable env now req st)
    as Hmap.
  pose proof (fresh_client_passes env now req st) as Hpass.
  destruct (handler env now req st) as [res st'] eqn:Hh. cbn [fst snd] in *.
  unfold limitedClients in Hnd, Hnew. cbn [omap list_omap snd] in Hnd, Hnew.
  fold (limitedClients env traffic) in Hnd, Hnew.
  destruct (reachesRateLimit env req) eqn:Hreach.
  - apply NoDup_cons in Hnd as [Hnotin Hnd]. constructor.
    + apply Hpass. intros _. apply Hnew. now left.
    + apply IH; [exact Hnd|]. intros ip Hip. rewrite Hmap.
      rewrite checkRateLimit_other.
      * apply Hnew. now right.
      * intros ->. apply Hnotin. now apply list_elem_of_In.
  - constructor.
    + apply Hpass. discriminate.
    + apply IH; [exact Hnd|]. intros ip Hip. rewrite Hmap. now apply Hnew.
Qed.

End ClientKey.

Lemma distinct_clients_never_limited_witness :
  length rotating = 7%nat /\
  Forall (fun res => status res <> Some 429%Z)
    (responses mock no_json no_int all_deletable demo_env rotating idle).
Proof.
  split; [reflexivity|].
  apply (distinct_clients_never_limited mock no_json no_int all_deletable demo_env
           rotating idle).
  - apply (bool_decide_eq_true_1 (NoDup (limitedClients demo_env rotating))).
    vm_compute. reflexivity.
  - intros ip _. apply lookup_empty.
Defined.

(** ** Which fields are rendered *)



(** * The geocoding proxy *)

Lemma ws_cases c :
  is_ws c = true ->
  In c [9; 10; 11; 12; 13; 32; 160; 5760; 8192; 8193; 8194; 8195; 8196; 8197;
        8198; 8199; 8200; 8201; 8202; 8232; 8233; 8239; 8287; 12288; 65279]%N.
Proof.
  unfold is_ws. rewrite !orb_true_iff, !andb_true_iff, !N.leb_le, !N.eqb_eq.
  cbn [In]. lia.
Qed.

Lemma encode_ws c t :
  is_ws c = true ->
  Geocode.encodeURIComponent (c :: t)
  = (r <- Geocode.encodeURIComponent t ;;
     Ok (flat_map Geocode.percent (Geocode.utf8 c) ++ r)) /\
  forallb url_safe (flat_map Geocode.percent (Geocode.utf8 c)) = true.
Proof.
  intros Hc. apply ws_cases in Hc. cbn [In] in Hc.
  repeat (destruct Hc as [<-|Hc]; [split; [reflexivity|vm_compute; reflexivity]|]).
  destruct Hc.
Qed.

Lemma encode_plain c t :
  (is_lower c || is_upper c || is_digit c || (c =? 45)%N) = true ->
  Geocode.encodeURIComponent (c :: t)
  = (r <- Geocode.encodeURIComponent t ;; Ok (c :: r)) /\
  url_safe c = true.
Proof.
  intros Hc. cbn [Geocode.encodeURIComponent].
  assert (Geocode.is_unreserved c = true) as ->.
  { unfold Geocode.is_unreserved. cbn [existsb].
    rewrite !orb_true_iff in *. tauto. }
  split; [reflexivity|]. unfold url_safe. now rewrite Hc.
Qed.

(** A string of the postal-code alphabet is always encoded, into
    letters, digits, hyphens and percent signs. *)
Lemma encode_postal s :
  forallb Geocode.postal_char s = true ->
  exists address,
    Geocode.encodeURIComponent s = Ok address /\ forallb url_safe address = true.
Proof.
  induction s as [|c t IH]; [exists []; split; reflexivity|].
  cbn [forallb]. intros H. apply andb_true_iff in H as [Hc Ht].
  destruct (IH Ht) as (a & Ha & Hsafe).
  destruct (is_ws c) eqn:Hws.
  - destruct (encode_ws c t Hws) as [-> Hp]. rewrite Ha. cbn [bind].
    eexists. split; [reflexivity|]. rewrite forallb_app. now rewrite Hp, Hsafe.
  - unfold Geocode.postal_char in Hc. rewrite Hws, orb_false_r in Hc.
    destruct (encode_plain c t Hc) as [-> Hp]. rewrite Ha. cbn [bind].
    eexists. split; [reflexivity|]. cbn [forallb]. now rewrite Hp, Hsafe.
Qed.

Lemma component_stripped c j : Geocode.component c = Ok j -> stripped j = true.
Proof.
  unfold Geocode.component.
  destruct (get_prop (Some c) "long_name") as [a|]; cbn [bind]; [|discriminate].
  destruct (get_prop (Some c) "short_name") as [b|]; cbn [bind]; [|discriminate].
  destruct (get_prop (Some c) "types") as [d|]; cbn [bind]; [|discriminate].
  intros [= <-]. destruct a, b, d; vm_compute; reflexivity.
Qed.

Lemma mapM_stripped (l : list json) :
  forall comps, Geocode.mapM Geocode.component l = Ok comps ->
                forallb stripped comps = true.
Proof.
  induction l as [|c l IH]; cbn [Geocode.mapM]; intros comps.
  - now intros [= <-].
  - destruct (Geocode.component c) as [j|] eqn:Hj; cbn [bind]; [|discriminate].
    destruct (Geocode.mapM Geocode.component l) as [js|]; cbn [bind]; [|discriminate].
    intros [= <-]. cbn [forallb]. now rewrite (component_stripped _ _ Hj), (IH js).
Qed.

Lemma components_stripped result comps :
  Geocode.components result = Ok comps -> forallb stripped comps = true.
Proof.
  unfold Geocode.components.
  destruct (get_prop result "address_components") as [[v|]|]; cbn [bind];
    [| now intros [= <-] | discriminate].
  destruct (truthy_json v); [|now intros [= <-]].
  destruct v; try discriminate. apply mapM_stripped.
Qed.

Ltac in_errors :=
  unfold geocodeErrors; cbn [In]; repeat first [left; reflexivity | right].

Section GeocodeFacts.

Context {World : Type}.
Variable fetch : World -> jsstring -> Result HttpResponse * World.

Local Abbreviation handler := (Geocode.handler fetch).

Lemma proxy_requested apiKey trimmed res (w : World) requested :
  forallb Geocode.postal_char trimmed = true ->
  exists address,
    Geocode.encodeURIComponent trimmed = Ok address /\
    forallb url_safe address = true /\
    (Geocode.proxy fetch apiKey trimmed res w requested).2
    = requested ++ [Geocode.geocodeBase ++ address ++ lit "&key=" ++ apiKey].
Proof.
  intros Hp. destruct (encode_postal trimmed Hp) as (address & Ha & Hsafe).
  exists address. split; [exact Ha|split; [exact Hsafe|]].
  unfold Geocode.proxy, Geocode.geocodeUrl. rewrite Ha. cbn [bind].
  destruct (fetch w _). reflexivity.
Qed.

(** X22: the proxy calls the geocoding service at most once per request,
    and only for a postal code given as a single non-empty string whose
    trimmed value has 2 to 20 characters, all letters, digits, white
    space or hyphens.  The address fetched is the fixed base, the encoded
    code and the configured key; the encoded code holds only letters,
    digits, hyphens and percent signs, so it cannot end its parameter or
    add another one. *)
Theorem geocode_upstream_requests env key now req postalCode (st : Geocode.State World) :
  Geocode.requested (handler env key now req postalCode st).2 = Geocode.requested st \/
  exists code apiKey address,
    postalCode = Some (Single code) /\
    key = Some apiKey /\ apiKey <> [] /\
    Geocode.POSTAL_CODE_REGEX_test (trim code) = true /\
    Geocode.encodeURIComponent (trim code) = Ok address /\
    forallb url_safe address = true /\
    Geocode.requested (handler env key now req postalCode st).2
    = Geocode.requested st
      ++ [Geocode.geocodeBase ++ address ++ lit "&key=" ++ apiKey].
Proof.
  unfold Geocode.handler.
  destruct (str_eqb (method req) (lit "OPTIONS")); [now left|].
  destruct (negb (str_eqb (method req) (lit "GET"))); [now left|].
  destruct (negb _); [now left|].
  destruct (Geocode.checkRateLimit now (clientIp req) (Geocode.rateLimitMap st))
    as [allowed m'].
  destruct (negb allowed); [now left|].
  destruct key as [apiKey|]; cbn [truthy negb]; [|now left].
  destruct (truthy_str apiKey) eqn:Hkey; cbn [negb]; [|now left].
  destruct postalCode as [[code|codes]|]; [|now left|now left].
  destruct (negb (truthy_str code)); [now left|].
  destruct (_ || _) eqn:Hvalid; [now left|].
  apply orb_false_iff in Hvalid as [_ Hre]. apply negb_false_iff in Hre.
  right. exists code, apiKey.
  assert (forallb Geocode.postal_char (trim code) = true) as Hp.
  { unfold Geocode.POSTAL_CODE_REGEX_test in Hre.
    now apply andb_true_iff in Hre as [_ Hre]. }
  cbn [orS]. rewrite Hkey.
  destruct (proxy_requested apiKey (trim code)
              (Geocode.sendCORS env req newResponse) (Geocode.world st)
              (Geocode.requested st) Hp) as (address & Ha & Hsafe & Hreq).
  exists address. repeat split; try assumption.
  - destruct apiKey; [discriminate|discriminate].
  - cbn [Geocode.world Geocode.requested Geocode.rateLimitMap].
    destruct (Geocode.proxy fetch apiKey (trim code) _ _ _) as [[outcome w] requested'].
    cbn [snd Geocode.requested] in *. exact Hreq.
Qed.

Lemma geocode_no_cache env req :
  headers (Geocode.sendCORS env req newResponse) !! lit "Cache-Control" = None.
Proof.
  unfold Geocode.sendCORS.
  destruct (origin req) as [o|]; [destruct (_ && _)|]; header_lookup.
Qed.

Lemma proxy_shapes apiKey trimmed res (w : World) requested r :
  (Geocode.proxy fetch apiKey trimmed res w requested).1.1 = Ok r ->
  status r = Some 200%Z /\
  ((exists status_, body r = Some (noResults status_) /\ headers r = headers res) \/
   (exists comps,
       body r = Some (oneResult comps) /\ forallb stripped comps = true /\
       headers r = <[lit "Cache-Control" := Geocode.cacheControl]> (headers res))).
Proof.
  unfold Geocode.proxy.
  destruct (Geocode.geocodeUrl apiKey trimmed) as [u|]; [|discriminate].
  destruct (fetch w u) as [[response|] w']; cbn [fst bind]; [|discriminate].
  destruct (resp_json response) as [data|]; cbn [bind]; [|discriminate].
  destruct (get_prop (Some data) "status") as [status_|]; cbn [bind]; [|discriminate].
  destruct (negb (Geocode.is_OK status_)).
  { intros [= <-]. split; [reflexivity|]. left. eauto. }
  destruct (get_prop (Some data) "results") as [results|]; cbn [bind]; [|discriminate].
  destruct (_ || _).
  { intros [= <-]. split; [reflexivity|]. left. eauto. }
  destruct (Geocode.components _) as [comps|] eqn:Hc; cbn [bind]; [|discriminate].
  intros [= <-]. split; [reflexivity|]. right. exists comps.
  split; [reflexivity|]. split; [|reflexivity].
  now apply components_stripped in Hc.
Qed.

(** X23: the proxy answers in one of four ways: 204 without a body; one
    of seven fixed pairs of an error status and a message; 200 with the
    upstream status and an empty result list; or 200 with exactly one
    result that holds the address components alone, each cut down to
    [long_name], [short_name] and [types].  Only the last carries a
    [Cache-Control] header.  Nothing else of the upstream answer, and
    nothing of the key, is passed on. *)
Theorem geocode_responses env key now req postalCode (st : Geocode.State World) :
  (status (handler env key now req postalCode st).1 = Some 204%Z /\
   body (handler env key now req postalCode st).1 = None /\
   headers (handler env key now req postalCode st).1 !! lit "Cache-Control" = None) \/
  (exists code b,
      In (code, b) geocodeErrors /\
      status (handler env key now req postalCode st).1 = Some code /\
      body (handler env key now req postalCode st).1 = Some b /\
      headers (handler env key now req postalCode st).1 !! lit "Cache-Control" = None) \/
  (exists status_,
      status (handler env key now req postalCode st).1 = Some 200%Z /\
      body (handler env key now req postalCode st).1 = Some (noResults status_) /\
      headers (handler env key now req postalCode st).1 !! lit "Cache-Control" = None) \/
  (exists comps,
      status (handler env key now req postalCode st).1 = Some 200%Z /\
      body (handler env key now req postalCode st).1 = Some (oneResult comps) /\
      forallb stripped comps = true /\
      headers (handler env key now req postalCode st).1 !! lit "Cache-Control"
      = Some Geocode.cacheControl).
Proof.
  pose proof (geocode_no_cache env req) as Hcache.
  assert (forall code msg,
             In (code, error_body msg) geocodeErrors ->
             forall s : Geocode.State World,
               let r := (send (Geocode.sendCORS env req newResponse) code (error_body msg), s).1 in
               exists code b,
                 In (code, b) geocodeErrors /\ status r = Some code /\ body r = Some b /\
                 headers r !! lit "Cache-Control" = None) as Herr.
  { intros code msg Hin s. exists code, (error_body msg). now repeat split. }
  unfold Geocode.handler.
  destruct (str_eqb (method req) (lit "OPTIONS")); [left; now repeat split|].
  right.
  destruct (negb (str_eqb (method req) (lit "GET")));
    [left; apply Herr; in_errors|].
  destruct (negb _); [left; apply Herr; in_errors|].
  destruct (Geocode.checkRateLimit now (clientIp req) (Geocode.rateLimitMap st))
    as [allowed m'].
  destruct (negb allowed); [left; apply Herr; in_errors|].
  destruct (negb (truthy key)); [left; apply Herr; in_errors|].
  destruct postalCode as [[code|codes]|];
    [|left; apply Herr; in_errors|left; apply Herr; in_errors].
  destruct (negb (truthy_str code)); [left; apply Herr; in_errors|].
  destruct (_ || _); [left; apply Herr; in_errors|].
  pose proof (proxy_shapes (orS key []) (trim code)
                (Geocode.sendCORS env req newResponse) (Geocode.world st)
                (Geocode.requested st)) as Hshape.
  cbn [Geocode.world Geocode.requested Geocode.rateLimitMap].
  destruct (Geocode.proxy fetch (orS key []) (trim code) _ _ _)
    as [[[r|m] w] requested']; cbn [fst] in *.
  - destruct (Hshape r eq_refl) as (Hst & [(s & Hb & Hh)|(comps & Hb & Hs & Hh)]).
    + right. left. exists s. rewrite Hh. now repeat split.
    + right. right. exists comps. rewrite Hh, lookup_insert_eq. now repeat split.
  - left. apply (Herr 502%Z "Geocoding service temporarily unavailable"%string
                   ltac:(in_errors)
                   {| Geocode.rateLimitMap := m'; Geocode.world := w;
                      Geocode.requested := requested' |}).
Qed.

End GeocodeFacts.

Example geocode_lookup :
  let out := Geocode.handler atlas demo_env (Some (lit "KEY")) 0 lookup_request
               (Some (Single (lit " 90 210 "))) geo_idle in
  status out.1 = Some 200%Z /\
  body out.1
  = Some (oneResult [JObj [(lit "long_name", JStr (lit "Springfield"));
                           (lit "short_name", JStr (lit "SPR"));
                           (lit "types", JArr [JStr (lit "locality")])]]) /\
  Geocode.requested out.2 = [Geocode.geocodeBase ++ lit "90%20210&key=KEY"].
Proof. vm_compute. repeat split. Qed.

(** * Uploading one attachment *)

Section Upload.

Context {World : Type}.
Variable fetch : World -> HttpRequest -> Result HttpResponse * World.

Lemma descriptor_outcome data file :
  is_Ok (descriptor data file) = usable data /\
  forall a, descriptor data file = Ok a ->
    exists v, att_name a = Some v /\
              (truthy_json v = true \/ v = str_or_null (originalFilename file)).
Proof.
  unfold descriptor.
  assert (forall fileData : json,
             fileData <> JNull ->
             exists u nm s c,
               get_prop (Some fileData) "url" = Ok u /\
               get_prop (Some fileData) "name" = Ok nm /\
               get_prop (Some fileData) "size" = Ok s /\
               get_prop (Some fileData) "content_type" = Ok c) as Hread.
  { intros [] Hnn; try congruence; cbn [get_prop]; eauto 10. }
  assert (forall fileData : json,
             fileData <> JNull ->
             is_Ok (url_ <- get_prop (Some fileData) "url" ;;
                    name_ <- get_prop (Some fileData) "name" ;;
                    size_ <- get_prop (Some fileData) "size" ;;
                    ctype_ <- get_prop (Some fileData) "content_type" ;;
                    Ok {| att_url := url_;
                          att_name :=
                            match name_ with
                            | Some v => if truthy_json v then Some v
                                        else Some (str_or_null (originalFilename file))
                            | None => Some (str_or_null (originalFilename file))
                            end;
                          att_size := size_;
                          att_content_type := ctype_ |}) = true /\
             forall a,
               (url_ <- get_prop (Some fileData) "url" ;;
                name_ <- get_prop (Some fileData) "name" ;;
                size_ <- get_prop (Some fileData) "size" ;;
                ctype_ <- get_prop (Some fileData) "content_type" ;;
                Ok {| att_url := url_;
                      att_name :=
                        match name_ with
                        | Some v => if truthy_json v then Some v
                                    else Some (str_or_null (originalFilename file))
                        | None => Some (str_or_null (originalFilename file))
                        end;
                      att_size := size_;
                      att_content_type := ctype_ |}) = Ok a ->
               exists v, att_name a = Some v /\
                         (truthy_json v = true \/ v = str_or_null (originalFilename file)))
    as Hgood.
  { intros fileData Hnn.
    destruct (Hread fileData Hnn) as (u & nm & s & c & -> & -> & -> & ->).
    cbn [bind is_Ok]. split; [reflexivity|]. intros a [= <-]. cbn [att_name].
    destruct nm as [v|]; [destruct (truthy_json v) eqn:Hv|]; eauto. }
  destruct data as [ |b|z|t|s|items|props];
    try (apply Hgood; discriminate).
  - split; [reflexivity|]. cbn. discriminate.
  - destruct items as [|first rest]; cbn [head].
    + split; [reflexivity|]. cbn. discriminate.
    + assert (first = JNull \/ first <> JNull) as [->|Hnn]
        by (destruct first; (now left) || (right; discriminate)).
      * split; [reflexivity|]. cbn. discriminate.
      * destruct (Hgood first Hnn) as [Hok Hname].
        split; [|exact Hname]. rewrite Hok. now destruct first.
Qed.

(** X24: a file counts as uploaded exactly when the upload service
    answers with a status from 200 to 299 and a JSON body that holds a
    descriptor: the body itself, or the first element when it is an
    array, is neither [null] nor missing.  No property of the descriptor
    is required; its name is the one the service returns when that is
    truthy and the original file name otherwise. *)
Theorem upload_outcome failure subdomain apiUser apiKey file (n : Net World) :
  (is_Ok (uploadAttachment fetch failure subdomain apiUser apiKey file n).1 = true
   <-> exists resp data,
         (fetch (world n) (uploadRequest subdomain apiUser apiKey file)).1 = Ok resp /\
         resp_ok resp = true /\ resp_json resp = Ok data /\ usable data = true) /\
  (forall a,
      (uploadAttachment fetch failure subdomain apiUser apiKey file n).1 = Ok a ->
      exists v, att_name a = Some v /\
                (truthy_json v = true \/ v = str_or_null (originalFilename file))).
Proof.
  unfold uploadAttachment, post.
  destruct (fetch (world n) (uploadRequest subdomain apiUser apiKey file))
    as [[resp|m] w]; cbn [fst].
  - destruct (resp_ok resp) eqn:Hok; cbn [negb].
    + destruct (resp_json resp) as [data|m] eqn:Hjson; cbn [fst].
      * destruct (descriptor_outcome data file) as [Hd Hname].
        split; [|exact Hname]. rewrite Hd. split.
        -- intros Hu. exists resp, data. now repeat split.
        -- intros (resp' & data' & [= <-] & _ & Hj & Hu).
           rewrite Hjson in Hj. now injection Hj as <-.
      * split; [|discriminate]. split; [discriminate|].
        intros (resp' & data' & [= <-] & _ & Hj & _). rewrite Hjson in Hj. discriminate.
    + split.
      * split.
        -- destruct (resp_text resp); discriminate.
        -- intros (resp' & data' & [= <-] & Hok' & _). congruence.
      * destruct (resp_text resp); discriminate.
  - split; [|discriminate]. split; [discriminate|].
    intros (resp' & data' & [=] & _).
Qed.

End Upload.

(** * What the form-agnostic handler does not check *)

Section GenericSubmits.

Context {World : Type}.
Variable fetch : World -> HttpRequest -> Result HttpResponse * World.
Variable JSON_parse : jsstring -> Result json.

Lemma generic_createTicket_sent env subdomain username apiKey fields formType email
    up rej (n : Net World) :
  exists ticket,
    url ticket = ticketsUrl (lit "https://" ++ subdomain ++ lit ".gorgias.com/api") /\
    sent (Generic.createTicket fetch JSON_parse env subdomain username apiKey
            fields formType email up rej n).2 = sent n ++ [ticket].
Proof.
  unfold Generic.createTicket, post. eexists. split; cycle 1.
  - destruct (fetch (world n) _) as [[resp|m] w]; [|reflexivity].
    destruct (negb (resp_ok resp)); [destruct (resp_text resp)|]; reflexivity.
  - reflexivity.
Qed.

Lemma generic_process_submits env fields files (n : Net World) :
  configured env = true -> missingRequired fields = false ->
  exists earlier ticket,
    url ticket = ticketsUrl (lit "https://" ++ subdomainOf env ++ lit ".gorgias.com/api") /\
    sent (Generic.process fetch JSON_parse env fields files n).2 = earlier ++ [ticket].
Proof.
  unfold configured, missingRequired. intros Hconf Hmiss.
  apply andb_true_iff in Hconf as [Hconf Hak].
  apply andb_true_iff in Hconf as [Hsd Hus].
  apply orb_false_iff in Hmiss as [Hft Hem].
  apply negb_false_iff in Hft, Hem.
  apply truthy_orS in Hsd as [Hsd Hsd'], Hus as [Hus Hus'], Hak as [Hak Hak'].
  apply truthy_orS in Hft as [Hft Hft'], Hem as [Hem Hem'].
  unfold Generic.process.
  rewrite Hsd, Hus, Hak, Hsd', Hus', Hak'. cbn [andb negb].
  rewrite Hft, Hem, Hft', Hem'. cbn [andb negb].
  destruct (Generic.uploadFiles fetch _ _ _ files n) as [[up rej] n2].
  unfold subdomainOf.
  destruct (generic_createTicket_sent env (orS (GORGIAS_SUBDOMAIN env) [])
              (orS (GORGIAS_USERNAME env) []) (orS (GORGIAS_API_KEY env) [])
              fields (orS (get fields (lit "formType")) [])
              (orS (get fields (lit "email")) []) up rej n2) as (ticket & Hurl & Hsent).
  exists (sent n2), ticket. split; [exact Hurl|exact Hsent].
Qed.

(** X25: the form-agnostic handler checks nothing but the presence of the
    two required fields.  In a configured deployment every POST whose
    body parses and holds a non-empty form type and a non-empty [email]
    field ends with a ticket-creation call, whatever the origin, the form
    type, the shape of the address, the length of the fields and the
    number of earlier submissions. *)
Theorem generic_submits_unvalidated env req (st : State World) raw files :
  method req = lit "POST" ->
  multipart req = Parsed raw files ->
  configured env = true ->
  missingRequired (flattenFields raw) = false ->
  exists earlier ticket,
    url ticket = ticketsUrl (lit "https://" ++ subdomainOf env ++ lit ".gorgias.com/api") /\
    sent (net (Generic.handler fetch JSON_parse env req st).2) = earlier ++ [ticket].
Proof.
  intros Hpost Hparsed Hconf Hmiss.
  destruct (generic_process_submits env (flattenFields raw) files (net st) Hconf Hmiss)
    as (earlier & ticket & Hurl & Hsent).
  exists earlier, ticket. split; [exact Hurl|].
  unfold Generic.handler, parseMultipart. rewrite Hpost, Hparsed.
  change (str_eqb (lit "POST") (lit "OPTIONS")) with false.
  change (str_eqb (lit "POST") (lit "POST")) with true. cbn [negb].
  destruct (Generic.process fetch JSON_parse env (flattenFields raw) files (net st))
    as [[[code b]|m] n']; exact Hsent.
Qed.

End GenericSubmits.

Lemma generic_submits_unvalidated_witness :
  exists earlier ticket,
    url ticket = ticketsUrl (lit "https://" ++ subdomainOf demo_env ++ lit ".gorgias.com/api") /\
    sent (net (Generic.handler mock no_json demo_env unchecked_submission idle).2)
    = earlier ++ [ticket].
Proof.
  refine (generic_submits_unvalidated mock no_json demo_env unchecked_submission idle
            _ _ eq_refl eq_refl _ _);
    vm_compute; reflexivity.
Defined.

Section GeocodeLimit.

Context {World : Type}.
Variable fetch : World -> jsstring -> Result HttpResponse * World.

Lemma geocode_limiter_refuses (now : Z) (ip : jsstring) (m : gmap jsstring RateRecord) :
  (Geocode.checkRateLimit now ip m).1 = false
  <-> exists r, m !! ip = Some r /\ (now - start r <= 60000)%Z /\ (20 <= count r)%Z.
Proof.
  unfold Geocode.checkRateLimit, Geocode.RATE_WINDOW, Geocode.RATE_LIMIT.
  destruct (m !! ip) as [r|].
  - destruct (Z.gtb_spec (now - start r) 60000); cbn [fst count].
    + split; [discriminate|]. intros (r' & [= <-] & ? & _). lia.
    + destruct (Z.leb_spec (count r + 1) 20).
      * split; [discriminate|]. intros (r' & [= <-] & _ & ?). lia.
      * split; [|reflexivity]. intros _. exists r. repeat split; lia.
  - split; [discriminate|]. intros (r & [=] & _).
Qed.

(** X26: the proxy answers 429 exactly to a GET from an allowed origin
    whose client key has a record that is at most 60000 ms old and
    already counts 20 requests or more.  The limiter runs before the key
    and the postal code are looked at. *)
Theorem geocode_rate_limited env key now req postalCode (st : Geocode.State World) :
  status (Geocode.handler fetch env key now req postalCode st).1 = Some 429%Z
  <-> geoReaches env req = true /\
      exists r, Geocode.rateLimitMap st !! clientIp req = Some r /\
                (now - start r <= 60000)%Z /\ (20 <= count r)%Z.
Proof.
  rewrite <- geocode_limiter_refuses.
  unfold geoReaches, inAllowList, Geocode.handler.
  destruct (str_eqb (method req) (lit "OPTIONS")) eqn:Hopt.
  { apply str_eqb_eq in Hopt. rewrite Hopt. cbn. split; [discriminate|].
    intros [? _]. discriminate. }
  destruct (str_eqb (method req) (lit "GET")); cbn [negb andb];
    [|cbn; split; [discriminate|intros [? _]; discriminate]].
  destruct (origin req) as [o|]; cbn [truthy andb negb];
    [|cbn; split; [discriminate|intros [? _]; discriminate]].
  destruct (truthy_str o); cbn [andb negb];
    [|cbn; split; [discriminate|intros [? _]; discriminate]].
  destruct (includes (Hardened.allowedOrigins env) o); cbn [andb negb];
    [|cbn; split; [discriminate|intros [? _]; discriminate]].
  destruct (Geocode.checkRateLimit now (clientIp req) (Geocode.rateLimitMap st))
    as [[|] m']; cbn [fst negb]; [|cbn; split; [intros _; now split|reflexivity]].
  assert (forall r : Response,
             status r <> Some 429%Z ->
             status r = Some 429%Z <-> true = true /\ true = false) as Hno.
  { intros r Hr. split; [intros H; now destruct Hr|intros [_ ?]; discriminate]. }
  destruct (negb (truthy key)); [apply Hno; discriminate|].
  destruct postalCode as [[code|codes]|];
    [|apply Hno; discriminate|apply Hno; discriminate].
  destruct (negb (truthy_str code)); [apply Hno; discriminate|].
  destruct (_ || _); [apply Hno; discriminate|].
  pose proof (proxy_shapes fetch (orS key []) (trim code)
                (Geocode.sendCORS env req newResponse) (Geocode.world st)
                (Geocode.requested st)) as Hshape.
  cbn [Geocode.world Geocode.requested Geocode.rateLimitMap].
  destruct (Geocode.proxy fetch (orS key []) (trim code) _ _ _)
    as [[[r|m] w] requested']; cbn [fst] in *; apply Hno.
  - destruct (Hshape r eq_refl) as [-> _]. discriminate.
  - discriminate.
Qed.

End GeocodeLimit.
